(** * FLAME / DECA reconstruction: the geometric core

    A shallow embedding of [flame/utils.py] (vertex_normals, face_vertices,
    load_obj, upsample_mesh) and of [flame/deca/recon.py] (the DecaReconModel
    wrapper: _encode, _decompose_params, _decode, __call__), followed by the
    properties of the natural-language specification stated over them.

    Number model.  The arrays of the program hold IEEE floats.  In
    [flame/deca/recon.py], whose arithmetic is composition of rigid and
    similarity transforms, a float is an exact real number ([R]); rounding
    and overflow are outside that part of the model.  The functions of
    [flame/utils.py] square and multiply their inputs and divide by norms:
    there every arithmetic result lives in [Float.fval], which adds NaN and
    the two infinities to the reals, and every operation is taken with the
    range of the format (overflow to an infinity, underflow to zero, IEEE
    rules on the special values).  Rounding inside the range is outside the
    model throughout. *)

From Stdlib Require Import Reals Lra Lia ZArith List String Ascii Bool.
Import ListNotations.

(* ================================================================== *)
(** * Part I: the model                                                *)
(* ================================================================== *)

(** ** Python sequences *)

Module Py.

(** [l[i]] for a Python list or one axis of a numpy array: a negative index
    counts from the end, an index outside [-len, len) raises IndexError. *)
Definition index {A : Type} (l : list A) (i : Z) : option A :=
  let n := Z.of_nat (List.length l) in
  if (0 <=? i)%Z then nth_error l (Z.to_nat i)
  else if (- n <=? i)%Z then nth_error l (Z.to_nat (n + i))
  else None.

(** The bounds of [l[start:end]] as Python normalises them. *)
Definition clamp (n i : Z) : Z :=
  if (i <? 0)%Z then Z.max (i + n) 0 else Z.min i n.

(** [l[start:end]] (step 1): never raises. *)
Definition slice {A : Type} (l : list A) (start stop : Z) : list A :=
  let n := Z.of_nat (List.length l) in
  let s := clamp n start in
  let e := clamp n stop in
  firstn (Z.to_nat (e - s)) (skipn (Z.to_nat s) l).

(** [l[start:]]. *)
Definition slice_from {A : Type} (l : list A) (start : Z) : list A :=
  slice l start (Z.of_nat (List.length l)).

(** [sub in s] for strings. *)
Fixpoint contains (sub s : string) : bool :=
  String.prefix sub s ||
  match s with
  | EmptyString => false
  | String _ s' => contains sub s'
  end.

(** An insertion-ordered dict with string keys: [d[k] = v] replaces the value
    of an existing key in place and appends a new key at the end. *)
Definition dict (V : Type) : Type := list (string * V).

Fixpoint dict_get {V : Type} (d : dict V) (k : string) : option V :=
  match d with
  | [] => None
  | (k', v) :: d' => if String.eqb k k' then Some v else dict_get d' k
  end.

Fixpoint dict_set {V : Type} (d : dict V) (k : string) (v : V) : dict V :=
  match d with
  | [] => [(k, v)]
  | (k', v') :: d' =>
      if String.eqb k k' then (k', v) :: d' else (k', v') :: dict_set d' k v
  end.

Definition keys {V : Type} (d : dict V) : list string := map fst d.

End Py.

(** ** Fixed-size vectors and matrices (numpy arrays of shape (3,), (4,),
    (3,3) and (4,4)) *)

Module Linalg.

Local Open Scope R_scope.

Inductive vec3 := V3 (x y z : R).
Inductive vec4 := V4 (x y z w : R).
Inductive mat3 := M3 (r0 r1 r2 : vec3).
Inductive mat4 := M4 (r0 r1 r2 r3 : vec4).

Inductive idx4 := I0 | I1 | I2 | I3.

Definition idx4_eqb (i j : idx4) : bool :=
  match i, j with
  | I0, I0 | I1, I1 | I2, I2 | I3, I3 => true
  | _, _ => false
  end.

Definition vget (v : vec4) (j : idx4) : R :=
  match v with
  | V4 a b c d => match j with I0 => a | I1 => b | I2 => c | I3 => d end
  end.

Definition row (M : mat4) (i : idx4) : vec4 :=
  match M with
  | M4 r0 r1 r2 r3 => match i with I0 => r0 | I1 => r1 | I2 => r2 | I3 => r3 end
  end.

Definition mget (M : mat4) (i j : idx4) : R := vget (row M i) j.

Definition vbuild (f : idx4 -> R) : vec4 := V4 (f I0) (f I1) (f I2) (f I3).

Definition mbuild (f : idx4 -> idx4 -> R) : mat4 :=
  M4 (vbuild (f I0)) (vbuild (f I1)) (vbuild (f I2)) (vbuild (f I3)).

Definition sum4 (f : idx4 -> R) : R := f I0 + f I1 + f I2 + f I3.

(** [np.eye(3)], [np.eye(4)]. *)
Definition eye3 : mat3 := M3 (V3 1 0 0) (V3 0 1 0) (V3 0 0 1).
Definition eye4 : mat4 := M4 (V4 1 0 0 0) (V4 0 1 0 0) (V4 0 0 1 0) (V4 0 0 0 1).

(** [A @ B] on two (4,4) arrays. *)
Definition matmul (A B : mat4) : mat4 :=
  mbuild (fun i j => sum4 (fun k => mget A i k * mget B k j)).

(** [A.T]. *)
Definition transpose (A : mat4) : mat4 := mbuild (fun i j => mget A j i).

(** [x @ B] for a row vector [x] of shape (4,). *)
Definition vecmat (x : vec4) (B : mat4) : vec4 :=
  vbuild (fun j => sum4 (fun k => vget x k * mget B k j)).

(** [X @ B] for [X] of shape (n,4). *)
Definition rows_matmul (X : list vec4) (B : mat4) : list vec4 :=
  map (fun x => vecmat x B) X.

(** The column-vector product [A x]. *)
Definition matvec (A : mat4) (x : vec4) : vec4 :=
  vbuild (fun i => sum4 (fun k => mget A i k * vget x k)).

(** [np.linalg.inv] on a (4,4) array.  LAPACK raises LinAlgError on a
    singular matrix ([None]); otherwise the result is the inverse, which in
    exact arithmetic is the adjugate divided by the determinant. *)
Definition others (i : idx4) : idx4 * idx4 * idx4 :=
  match i with
  | I0 => (I1, I2, I3)
  | I1 => (I0, I2, I3)
  | I2 => (I0, I1, I3)
  | I3 => (I0, I1, I2)
  end.

Definition sign (i : idx4) : R := match i with I0 | I2 => 1 | _ => -1 end.

Definition minor (M : mat4) (i j : idx4) : R :=
  let '(a, b, c) := others i in
  let '(p, q, r) := others j in
  mget M a p * (mget M b q * mget M c r - mget M b r * mget M c q)
  - mget M a q * (mget M b p * mget M c r - mget M b r * mget M c p)
  + mget M a r * (mget M b p * mget M c q - mget M b q * mget M c p).

Definition cofactor (M : mat4) (i j : idx4) : R := sign i * sign j * minor M i j.

Definition det4 (M : mat4) : R := sum4 (fun j => mget M I0 j * cofactor M I0 j).

Definition inv (M : mat4) : option mat4 :=
  if Req_EM_T (det4 M) 0 then None
  else Some (mbuild (fun i j => cofactor M j i / det4 M)).

(** [np.c_[v, np.ones(v.shape[0])]] and [v[:, :3]]. *)
Definition c_ones (v : list vec3) : list vec4 :=
  map (fun p => match p with V3 x y z => V4 x y z 1 end) v.

Definition trim3 (v : list vec4) : list vec3 :=
  map (fun p => match p with V4 x y z _ => V3 x y z end) v.

(** [R.mean(axis=0)] over the per-vertex (4,4) matrices: the entrywise sum
    divided by their number.  (On no matrix at all numpy yields NaN entries;
    the mesh decoder returns one matrix per vertex of a non-empty mesh.) *)
Definition madd (A B : mat4) : mat4 := mbuild (fun i j => mget A i j + mget B i j).
Definition mzero : mat4 := mbuild (fun _ _ => 0).
Definition mscale (c : R) (A : mat4) : mat4 := mbuild (fun i j => c * mget A i j).
Definition msum (Rs : list mat4) : mat4 := fold_left madd Rs mzero.
Definition mean (Rs : list mat4) : mat4 := mscale (/ INR (List.length Rs)) (msum Rs).

End Linalg.

(** ** flame/deca/recon.py *)

Module Recon.

Import Linalg.
Local Open Scope string_scope.

(** A torch tensor of rank 2 (batch x n) or rank 3 (batch x 9 x 3). *)
Inductive tensor :=
| T2 (rows : list (list R))
| T3 (blocks : list (list (list R))).

(** The collaborators of the model that are not part of the geometric core:
    the input check of the base class, the neural encoders, the mesh decoder
    (FLAME, and in dense mode the detail generator with the upsampling of
    the mesh), and the three transform builders of [flame/transforms.py].
    Each is a function parameter; [None] stands for a raised exception.
    [D_mesh dense enc_dict] stands for lines 246-264 and 272 of [_decode]:
    it yields the vertices as an (n,3) array and the per-vertex matrices
    [R] as an (n,4,4) array, both already squeezed. *)
Class Collaborators := {
  Image : Type;
  Assets : Type;
  shape : Image -> list Z;
  _check_input : Image -> Z * Z -> option Image;
  E_flame : Image -> option (list (list R));
  E_detail : Image -> option (list (list R));
  E_expression : Image -> option (list (list R));
  D_mesh : bool -> Py.dict tensor -> option (list vec3 * list mat4);
  create_viewport_matrix : Z -> Z -> mat4;
  create_ortho_matrix : Z -> Z -> mat4;
  crop_matrix_to_3d : mat3 -> mat4
}.

Section Model.

Context {C : Collaborators}.

(** The attributes of a [DecaReconModel] instance.  [assets] gathers what
    [_load_cfg], [_load_data] and [_create_submodels] store (configuration,
    templates, faces, networks). *)
Record DecaReconModel := mkModel {
  name : string;
  img_size : option (list Z);
  device : string;
  dense : bool;
  tform : option mat3;
  _warned_about_tform : bool;
  _crop_img_size : list Z;
  param_dict : Py.dict Z;
  n_param : Z;
  assets : Assets
}.

Definition set_img_size (s : option (list Z)) (self : DecaReconModel) :=
  mkModel (name self) s (device self) (dense self) (tform self)
    (_warned_about_tform self) (_crop_img_size self) (param_dict self)
    (n_param self) (assets self).

Definition set_tform (t : option mat3) (self : DecaReconModel) :=
  mkModel (name self) (img_size self) (device self) (dense self) t
    (_warned_about_tform self) (_crop_img_size self) (param_dict self)
    (n_param self) (assets self).

Definition set_warned_about_tform (b : bool) (self : DecaReconModel) :=
  mkModel (name self) (img_size self) (device self) (dense self) (tform self)
    b (_crop_img_size self) (param_dict self) (n_param self) (assets self).

(** The result of [_decode] and of [__call__]: the dict with keys "v" and
    "mat". *)
Record Out := mkOut { v : list vec3; mat : mat4 }.

(** *** Methods as state transformers

    A method runs on the instance [self], may change its attributes, may log
    warnings, and either returns a value or raises. *)
Definition M (A : Type) : Type :=
  DecaReconModel -> option A * DecaReconModel * list string.

Definition ret {A} (a : A) : M A := fun self => (Some a, self, []).

Definition bind {A B} (m : M A) (k : A -> M B) : M B :=
  fun self =>
    match m self with
    | (Some a, self', log) =>
        match k a self' with
        | (r, self'', log') => (r, self'', (log ++ log')%list)
        end
    | (None, self', log) => (None, self', log)
    end.

Definition raise {A} : M A := fun self => (None, self, []).

Definition lift {A} (o : option A) : M A :=
  match o with Some a => ret a | None => raise end.

Definition get : M DecaReconModel := fun self => (Some self, self, []).

Definition modify (f : DecaReconModel -> DecaReconModel) : M unit :=
  fun self => (Some tt, f self, []).

Definition warning (msg : string) : M unit := fun self => (Some tt, self, [msg]).

Notation "x <- m ;; k" := (bind m (fun x => k))
  (at level 61, m at next level, right associativity).
Notation "' pat <- m ;; k" := (bind m (fun x => match x with pat => k end))
  (at level 61, pat pattern, m at next level, right associativity).
Notation "m ;;; k" := (bind m (fun _ => k))
  (at level 61, right associativity).

(** *** __init__ and _check *)

Definition MODELS := ["deca-coarse"; "deca-dense"; "emoca-coarse"; "emoca-dense"].
Definition DEVICES := ["cuda"; "cpu"].

Definition default_param_dict : Py.dict Z :=
  [("n_shape", 100%Z); ("n_tex", 50%Z); ("n_exp", 50%Z);
   ("n_pose", 6%Z); ("n_cam", 3%Z); ("n_light", 27%Z)].

Definition img_size_warning :=
  "Arg `img_size` not given; beware, cannot render recon on top of original image anymore (only on cropped image)".

Definition __init__ (name : string) (img_size : option (list Z))
    (device : string) (tform : option mat3) (assets : Assets)
  : option (DecaReconModel * list string) :=
  if negb (existsb (String.eqb name) MODELS) then None
  else if negb (existsb (String.eqb device) DEVICES) then None
  else
    Some (mkModel name img_size device (Py.contains "dense" name) tform false
            [224%Z; 224%Z] default_param_dict
            (fold_right Z.add 0%Z (map snd default_param_dict)) assets,
          match img_size with None => [img_size_warning] | Some _ => [] end).

(** *** _decompose_params *)

(** [t.reshape(t.shape[0], 9, 3)] on a (batch x k) tensor: defined when
    batch * k = batch * 27, row-major. *)
Definition rows_of_3 (r : list R) : list (list R) :=
  match r with
  | [a0; a1; a2; b0; b1; b2; c0; c1; c2; d0; d1; d2; e0; e1; e2;
     f0; f1; f2; g0; g1; g2; h0; h1; h2; i0; i1; i2] =>
      [[a0; a1; a2]; [b0; b1; b2]; [c0; c1; c2]; [d0; d1; d2]; [e0; e1; e2];
       [f0; f1; f2]; [g0; g1; g2]; [h0; h1; h2]; [i0; i1; i2]]
  | _ => []
  end.

Definition reshape_9_3 (rows : list (list R)) : option (list (list (list R))) :=
  if forallb (fun r => Nat.eqb (List.length r) 27) rows
  then Some (map rows_of_3 rows)
  else None.

(** [s[2:]] on a string. *)
Definition drop2 (s : string) : string :=
  match s with
  | String _ (String _ s') => s'
  | _ => ""
  end.

Fixpoint decompose_loop (parameters : list (list R)) (num_dict : Py.dict Z)
    (ks : list string) (enc_dict : Py.dict tensor) (start : Z)
  : option (Py.dict tensor) :=
  match ks with
  | [] => Some enc_dict
  | key :: ks' =>
      let key := drop2 key in
      match Py.dict_get num_dict ("n_" ++ key) with
      | None => None
      | Some n =>
          let stop := (start + n)%Z in
          let enc_dict :=
            Py.dict_set enc_dict key
              (T2 (map (fun r => Py.slice r start stop) parameters)) in
          let start := stop in
          if String.eqb key "light" then
            match Py.dict_get enc_dict key with
            | Some (T2 rows) =>
                match reshape_9_3 rows with
                | Some t =>
                    decompose_loop parameters num_dict ks'
                      (Py.dict_set enc_dict key (T3 t)) start
                | None => None
                end
            | _ => None
            end
          else decompose_loop parameters num_dict ks' enc_dict start
      end
  end.

Definition _decompose_params (parameters : list (list R)) (num_dict : Py.dict Z)
  : option (Py.dict tensor) :=
  decompose_loop parameters num_dict (Py.keys num_dict) [] 0%Z.

(** The column ranges the loop visits, in order: (trimmed key, start, end). *)
Fixpoint offsets (num_dict : Py.dict Z) (ks : list string) (start : Z)
  : list (string * Z * Z) :=
  match ks with
  | [] => []
  | key :: ks' =>
      let key := drop2 key in
      match Py.dict_get num_dict ("n_" ++ key) with
      | None => []
      | Some n => (key, start, (start + n)%Z) :: offsets num_dict ks' (start + n)%Z
      end
  end.

(** *** _encode *)

Definition _encode (image : Image) : M (Py.dict tensor) :=
  self <- get ;;
  match img_size self with
  | None => modify (set_img_size (Some (Py.slice_from (shape image) 2)))
  | Some _ => ret tt
  end ;;;
  self <- get ;;
  enc_params <- lift (E_flame image) ;;
  enc_dict <- lift (_decompose_params enc_params (param_dict self)) ;;
  enc_dict <-
    (if dense self
     then detail_params <- lift (E_detail image) ;;
          ret (Py.dict_set enc_dict "detail" (T2 detail_params))
     else ret enc_dict) ;;
  enc_dict <-
    (if Py.contains "emoca" (name self)
     then exp <- lift (E_expression image) ;;
          ret (Py.dict_set enc_dict "exp" (T2 exp))
     else ret enc_dict) ;;
  ret enc_dict.

(** *** _decode *)

(** [enc_dict["cam"].cpu().numpy().squeeze()] followed by [sc = cam[0]] and
    [tx, ty = cam[1:]]: the squeezed array is a vector of three scalars for a
    (1,3) tensor (a batch of one) and for a (3,1) tensor; on any other shape
    the unpacking or the array literals that follow do not yield scalars
    ([None]). *)
Definition cam_of (t : tensor) : option (R * R * R) :=
  match t with
  | T2 [[sc; tx; ty]] => Some (sc, tx, ty)
  | T2 [[sc]; [tx]; [ty]] => Some (sc, tx, ty)
  | _ => None
  end.

Definition cam_lookup (enc_dict : Py.dict tensor) : option (R * R * R) :=
  match Py.dict_get enc_dict "cam" with
  | Some t => cam_of t
  | None => None
  end.

(** A two-argument builder applied to an unpacked size tuple: the tuple
    must hold exactly two numbers. *)
Definition star (f : Z -> Z -> mat4) (size : list Z) : option mat4 :=
  match size with
  | [a; b] => Some (f a b)
  | _ => None
  end.

Definition tform_warning :=
  "Attribute `tform` is not set, so cannot render in the original image space, only in cropped image space!".

Definition _decode (enc_dict : Py.dict tensor) : M Out :=
  self <- get ;;
  '(v, R) <- lift (D_mesh (dense self) enc_dict) ;;
  cam <- lift (cam_lookup enc_dict) ;;
  let R := mean R in
  let '(sc, tx, ty) := cam in
  let T := M4 (V4 1 0 0 tx) (V4 0 1 0 ty) (V4 0 0 1 0) (V4 0 0 0 1) in
  let S := M4 (V4 sc 0 0 0) (V4 0 sc 0 0) (V4 0 0 sc 0) (V4 0 0 0 1) in
  match tform self with
  | None =>
      (if negb (_warned_about_tform self)
       then warning tform_warning ;;; modify (set_warned_about_tform true)
       else ret tt) ;;;
      modify (set_tform (Some eye3))
  | Some _ => ret tt
  end ;;;
  self <- get ;;
  OP <- lift (star create_ortho_matrix (_crop_img_size self)) ;;
  VP <- lift (star create_viewport_matrix (_crop_img_size self)) ;;
  CP <- lift (option_map crop_matrix_to_3d (tform self)) ;;
  VP_ <- lift (match img_size self with
               | Some s => star create_viewport_matrix s
               | None => None
               end) ;;
  OP_ <- lift (match img_size self with
               | Some s => star create_ortho_matrix s
               | None => None
               end) ;;
  let pose := matmul S T in
  CPinv <- lift (inv CP) ;;
  let forward := matmul (matmul CPinv VP) OP in
  backward <- lift (inv (matmul VP_ OP_)) ;;
  let mat := matmul (matmul backward forward) pose in
  let v := rows_matmul (c_ones v) (transpose mat) in
  let v := trim3 v in
  let mat := matmul mat R in
  ret (mkOut v mat).

(** *** __call__ *)

Definition __call__ (image : Image) : M Out :=
  image <- lift (_check_input image (224%Z, 224%Z)) ;;
  enc_dict <- _encode image ;;
  dec_dict <- _decode enc_dict ;;
  ret dec_dict.

(** What running a method leaves behind. *)
Definition result_of {A} (r : option A * DecaReconModel * list string) : option A :=
  fst (fst r).
Definition state_of {A} (r : option A * DecaReconModel * list string)
  : DecaReconModel := snd (fst r).
Definition log_of {A} (r : option A * DecaReconModel * list string) : list string :=
  snd r.

(** A sequence of reconstruction calls on the same instance (a call that
    raises leaves the instance as the exception found it). *)
Fixpoint calls (images : list Image) (self : DecaReconModel) : DecaReconModel :=
  match images with
  | [] => self
  | image :: rest => calls rest (state_of (__call__ image self))
  end.

(** *** Vocabulary of the specification *)

(** The attributes no method of the reconstruction path assigns. *)
Definition same_fixed_attributes (self self' : DecaReconModel) : Prop :=
  name self' = name self /\ device self' = device self /\
  dense self' = dense self /\ _crop_img_size self' = _crop_img_size self /\
  param_dict self' = param_dict self /\ n_param self' = n_param self /\
  assets self' = assets self.

(** The three attributes the reconstruction path assigns, and how: a set
    [img_size] and a set [tform] stay as they are, an unset [tform] stays
    unset or becomes the identity, and the warned flag is only ever raised,
    and only on an instance whose [tform] is unset. *)
Definition lazy_attributes_step (self self' : DecaReconModel) : Prop :=
  (forall s, img_size self = Some s -> img_size self' = Some s) /\
  (forall t, tform self = Some t -> tform self' = Some t) /\
  (tform self = None -> tform self' = None \/ tform self' = Some eye3) /\
  (_warned_about_tform self = true -> _warned_about_tform self' = true) /\
  (tform self <> None -> _warned_about_tform self' = _warned_about_tform self).

Definition Frame (self self' : DecaReconModel) : Prop :=
  same_fixed_attributes self self' /\ lazy_attributes_step self self'.

(** The instance after the [tform] check of [_decode] (lines 292-298). *)
Definition after_tform_check (self : DecaReconModel) : DecaReconModel :=
  match tform self with
  | None =>
      set_tform (Some eye3)
        (if negb (_warned_about_tform self)
         then set_warned_about_tform true self else self)
  | Some _ => self
  end.

(** The situation in which [_decode] runs to its end on a supplied crop
    transform [t]: the mesh decoder returns the vertices [v] and the matrices
    [Rs], the camera vector is [sc, tx, ty], the crop size is the fixed
    224 x 224, the original image size is [W, H], and neither matrix handed
    to [np.linalg.inv] is singular. *)
Record decode_ready (self : DecaReconModel) (enc_dict : Py.dict tensor)
    (v : list vec3) (Rs : list mat4) (sc tx ty : R) (t : mat3) (W H : Z)
    (CPinv backward : mat4) : Prop := {
  ready_mesh : D_mesh (dense self) enc_dict = Some (v, Rs);
  ready_cam : cam_lookup enc_dict = Some (sc, tx, ty);
  ready_tform : tform self = Some t;
  ready_crop_size : _crop_img_size self = [224%Z; 224%Z];
  ready_img_size : img_size self = Some [W; H];
  ready_CPinv : inv (crop_matrix_to_3d t) = Some CPinv;
  ready_backward :
    inv (matmul (create_viewport_matrix W H) (create_ortho_matrix W H))
    = Some backward
}.

(** The matrices of the reprojection as the specification words them:
    [T] is the identity carrying [tx] at (0,3) and [ty] at (1,3), [S] scales
    x, y and z by [sc] and keeps the homogeneous row, and the chain is the
    product backward . forward . pose. *)
Definition set_entry (A : mat4) (i j : idx4) (x : R) : mat4 :=
  mbuild (fun i' j' => if idx4_eqb i i' && idx4_eqb j j' then x else mget A i' j').

Definition T_spec (tx ty : R) : mat4 :=
  set_entry (set_entry eye4 I0 I3 tx) I1 I3 ty.

Definition S_spec (sc : R) : mat4 :=
  mbuild (fun i j =>
            if idx4_eqb i j then match i with I3 => 1%R | _ => sc end else 0%R).

Definition pose_spec (sc tx ty : R) : mat4 := matmul (S_spec sc) (T_spec tx ty).

Definition forward_spec (CPinv VP OP : mat4) : mat4 := matmul CPinv (matmul VP OP).

Definition full_matrix_spec (backward forward pose : mat4) : mat4 :=
  matmul backward (matmul forward pose).


(** The six named blocks of one coefficient row, in declaration order, and
    the row they concatenate to. *)
Record blocks := mkBlocks {
  b_shape : list R; b_tex : list R; b_exp : list R;
  b_pose : list R; b_cam : list R; b_light : list R
}.

Definition well_sized (b : blocks) : Prop :=
  List.length (b_shape b) = 100%nat /\ List.length (b_tex b) = 50%nat /\
  List.length (b_exp b) = 50%nat /\ List.length (b_pose b) = 6%nat /\
  List.length (b_cam b) = 3%nat /\ List.length (b_light b) = 27%nat.

Definition concat_blocks (b : blocks) : list R :=
  (b_shape b ++ b_tex b ++ b_exp b ++ b_pose b ++ b_cam b ++ b_light b)%list.

End Model.

End Recon.


(** ** A concrete instance

    One choice of collaborators on which the model can be run: an image is
    its shape, the encoder answers with a fixed coefficient row whose camera
    block is [2, 1, 3], the mesh decoder with a two-vertex mesh, and the
    builders are a textbook viewport, a z-flipping orthographic matrix and
    the affine lift of a 3x3 matrix.  They only serve to run the model on
    concrete inputs; no property below depends on them. *)

Module Example.

Import Linalg Recon.
Local Open Scope R_scope.

Definition viewport (nx ny : Z) : mat4 :=
  M4 (V4 (IZR nx / 2) 0 0 (IZR nx / 2))
     (V4 0 (IZR ny / 2) 0 (IZR ny / 2))
     (V4 0 0 1 0)
     (V4 0 0 0 1).

Definition ortho (nx ny : Z) : mat4 :=
  M4 (V4 1 0 0 0) (V4 0 1 0 0) (V4 0 0 (-1) 0) (V4 0 0 0 1).

Definition lift3 (t : mat3) : mat4 :=
  match t with
  | M3 (V3 a b c) (V3 d e f) _ => M4 (V4 a b 0 c) (V4 d e 0 f) (V4 0 0 1 0) (V4 0 0 0 1)
  end.

Definition coefficients : list (list R) :=
  [repeat 0 206 ++ [2; 1; 3] ++ repeat 0 27].

Definition vertices : list vec3 := [V3 1 0 0; V3 0 1 0].

#[export] Instance collaborators : Collaborators := {|
  Image := list Z;
  Assets := unit;
  shape := fun img => img;
  _check_input := fun img _ => Some img;
  E_flame := fun _ => Some coefficients;
  E_detail := fun _ => None;
  E_expression := fun _ => None;
  D_mesh := fun _ _ => Some (vertices, [eye4; eye4]);
  create_viewport_matrix := viewport;
  create_ortho_matrix := ortho;
  crop_matrix_to_3d := lift3
|}.

(** A crop transform: scale by two, shift by (10, 20). *)
Definition crop : mat3 := M3 (V3 2 0 10) (V3 0 2 20) (V3 0 0 1).

(** A coarse model on the CPU, as [__init__] leaves it. *)
Definition model (img_size : option (list Z)) (tform : option mat3) : DecaReconModel :=
  mkModel "deca-coarse" img_size "cpu" false tform false [224%Z; 224%Z]
    default_param_dict 236%Z tt.

Definition image224 : list Z := [1%Z; 3%Z; 224%Z; 224%Z].

(** An encoder dict holding the camera block only (the example mesh decoder
    reads nothing else), the inverse of the lifted crop matrix, and the
    inverse of viewport times orthographic matrix at 224 x 224. *)
Definition enc_dict : Py.dict tensor := [("cam"%string, T2 [[2; 1; 3]])].

Definition crop_inverse : mat4 :=
  M4 (V4 (1 / 2) 0 0 (-5)) (V4 0 (1 / 2) 0 (-10)) (V4 0 0 1 0) (V4 0 0 0 1).

Definition backward224 : mat4 :=
  M4 (V4 (1 / 112) 0 0 (-1)) (V4 0 (1 / 112) 0 (-1)) (V4 0 0 (-1) 0) (V4 0 0 0 1).

(** The blocks of the coefficient row above. *)
Definition row_blocks : blocks :=
  mkBlocks (repeat 0 100) (repeat 0 50) (repeat 0 50) (repeat 0 6) [2; 1; 3]
    (repeat 0 27).

End Example.

(** ** Floating-point values and their range

    The functions of [flame/utils.py] compute on float arrays.  Their
    arithmetic is modelled with its range: a result is exact as long as it
    is representable in magnitude, a result beyond the largest finite number
    is an infinity, a result below the smallest positive number is zero, and
    the operations on infinities and NaN follow IEEE 754.  Rounding inside
    the range is outside the model, and so is the sign of a zero: the one
    divisor of the modelled code that can be zero is a Euclidean norm, the
    positive zero. *)

Module Float.

Local Open Scope R_scope.

(** An entry of a float array. *)
Inductive fval :=
| Fin (x : R)
| PInf
| NInf
| NaN.

Definition finite (f : fval) : Prop :=
  match f with Fin _ => True | _ => False end.

(** The range of a binary format: its largest finite number and its
    smallest positive number.  The two bounds hold of binary32 and of
    binary64, the formats torch and numpy compute in. *)
Class Format := {
  huge : R;
  tiny : R;
  tiny_pos : 0 < tiny;
  tiny_small : tiny <= / 1000000000000;
  huge_big : 1000000000000 <= huge
}.

(** binary32, the format of [torch.zeros] and of the tensors the mesh
    decoder returns: (2 - 2^-23) 2^127 and 2^-149. *)
#[global] Instance binary32 : Format := {|
  huge := 340282346638528859811704183484516925440;
  tiny := / 713623846352979940529142984724747568191373312;
  tiny_pos := ltac:(lra);
  tiny_small := ltac:(lra);
  huge_big := ltac:(lra)
|}.

Section Operations.

Context {fmt : Format}.

(** The infinity of the sign of [x]. *)
Definition inf (x : R) : fval := if Rlt_dec 0 x then PInf else NInf.

(** The float an exact result becomes. *)
Definition rnd (x : R) : fval :=
  if Rlt_dec huge (Rabs x) then inf x
  else if Rlt_dec (Rabs x) tiny then Fin 0
  else Fin x.

Definition fopp (a : fval) : fval :=
  match a with
  | Fin x => Fin (- x)
  | PInf => NInf
  | NInf => PInf
  | NaN => NaN
  end.

(** [a + b]: opposite infinities give NaN. *)
Definition fadd (a b : fval) : fval :=
  match a, b with
  | Fin x, Fin y => rnd (x + y)
  | NaN, _ | _, NaN => NaN
  | PInf, NInf | NInf, PInf => NaN
  | PInf, _ | _, PInf => PInf
  | NInf, _ | _, NInf => NInf
  end.

(** [a - b]. *)
Definition fsub (a b : fval) : fval := fadd a (fopp b).

(** [a * b]: zero times an infinity gives NaN. *)
Definition fmul (a b : fval) : fval :=
  match a, b with
  | Fin x, Fin y => rnd (x * y)
  | NaN, _ | _, NaN => NaN
  | Fin x, PInf | PInf, Fin x => if Req_EM_T x 0 then NaN else inf x
  | Fin x, NInf | NInf, Fin x => if Req_EM_T x 0 then NaN else inf (- x)
  | PInf, PInf | NInf, NInf => PInf
  | PInf, NInf | NInf, PInf => NInf
  end.

(** [a / b]: x / 0 is NaN for x = 0 and the infinity of the sign of x
    otherwise, a finite number over an infinity is zero, an infinity over an
    infinity is NaN. *)
Definition fdiv (a b : fval) : fval :=
  match a, b with
  | NaN, _ | _, NaN => NaN
  | Fin x, Fin y =>
      if Req_EM_T y 0 then (if Req_EM_T x 0 then NaN else inf x)
      else rnd (x / y)
  | Fin _, PInf | Fin _, NInf => Fin 0
  | PInf, Fin y => if Rlt_dec y 0 then NInf else PInf
  | NInf, Fin y => if Rlt_dec y 0 then PInf else NInf
  | PInf, PInf | PInf, NInf | NInf, PInf | NInf, NInf => NaN
  end.

(** [sqrt a]. *)
Definition fsqrt (a : fval) : fval :=
  match a with
  | Fin x => if Rlt_dec x 0 then NaN else Fin (sqrt x)
  | PInf => PInf
  | NInf => NaN
  | NaN => NaN
  end.

(** A number the format represents in magnitude: zero, or between the
    smallest positive and the largest finite number. *)
Definition in_range (x : R) : Prop :=
  x = 0 \/ (tiny <= Rabs x /\ Rabs x <= huge).

(** *** Vocabulary for magnitudes *)

(** A sum of squares as a norm computes it: the positive infinity, or a
    number that is zero or representable and that satisfies [bnd]. *)
Definition covers (f : fval) (bnd : R -> Prop) : Prop :=
  f = PInf \/
  exists s, f = Fin s /\ 0 <= s /\ (s = 0 \/ tiny <= s) /\ s <= huge /\ bnd s.

(** [s] is at least the square of [x], unless that square is below the
    range. *)
Definition above_square (x : R) (s : R) : Prop := x * x <= s \/ x * x < tiny.

End Operations.

(** A finite entry of magnitude at most [K]. *)
Definition bounded (K : R) (f : fval) : Prop :=
  exists e, f = Fin e /\ Rabs e <= K.

(** The positive infinity or NaN; and a value that is neither negative nor
    the negative infinity. *)
Definition unbounded (f : fval) : Prop := f = PInf \/ f = NaN.

Definition nonnegative (f : fval) : Prop :=
  f = PInf \/ f = NaN \/ exists s, f = Fin s /\ 0 <= s.

(** A row of three entries. *)
Inductive fvec3 := FV3 (x y z : fval).

Definition finite3 (v : fvec3) : Prop :=
  match v with FV3 x y z => finite x /\ finite y /\ finite z end.

Definition bounded3 (K : R) (a : fvec3) : Prop :=
  match a with FV3 x y z => bounded K x /\ bounded K y /\ bounded K z end.

End Float.

(** ** Whole-array operations on lists of rows *)

Module Arr.

Import Linalg Float.
Local Open Scope R_scope.

(** Every element through a function that may raise. *)
Fixpoint mapM {A B : Type} (f : A -> option B) (l : list A) : option (list B) :=
  match l with
  | [] => Some []
  | a :: l' =>
      match f a, mapM f l' with
      | Some b, Some r => Some (b :: r)
      | _, _ => None
      end
  end.

(** [l[idx]] with an integer index array (fancy indexing): IndexError when
    an index is out of range. *)
Definition take {A : Type} (l : list A) (idx : list Z) : option (list A) :=
  mapM (Py.index l) idx.

(** An elementwise binary operation on two arrays with equally many rows.
    The operands may be results of earlier operations that raised.  Rows
    counts that differ are reported as [None]: numpy raises unless one
    operand has a single row, which it would broadcast; no template of the
    program has that shape, and no statement below concerns it. *)
Fixpoint zipM {A B D : Type} (f : A -> B -> option D) (l1 : list A) (l2 : list B)
  : option (list D) :=
  match l1, l2 with
  | [], [] => Some []
  | a :: l1', b :: l2' =>
      match f a b, zipM f l1' l2' with
      | Some d, Some r => Some (d :: r)
      | _, _ => None
      end
  | _, _ => None
  end.

Definition zipO {A B D : Type} (f : A -> B -> option D)
    (o1 : option (list A)) (o2 : option (list B)) : option (list D) :=
  match o1, o2 with
  | Some l1, Some l2 => zipM f l1 l2
  | _, _ => None
  end.

Definition zip_with {A B D : Type} (f : A -> B -> D) :=
  zipO (fun a b => Some (f a b)).

Definition mapO {A B : Type} (f : A -> B) (o : option (list A)) : option (list B) :=
  option_map (map f) o.

Definition bind {A B : Type} (o : option A) (f : A -> option B) : option B :=
  match o with Some a => f a | None => None end.

(** An array computation [o] of [n] rows is described row by row by [g]:
    when it returns, row [i] is [g i], and it returns whenever every [g i]
    is defined. *)
Definition pointwise {B : Type} (n : nat) (o : option (list B))
    (g : nat -> option B) : Prop :=
  (forall r, o = Some r ->
             List.length r = n /\
             forall i, (i < n)%nat -> nth_error r i = g i) /\
  ((forall i, (i < n)%nat -> g i <> None) -> o <> None).

(** The exact sum of two real vectors (it serves to state properties; the
    program adds with [fadd3]). *)
Definition vadd (a b : vec3) : vec3 :=
  match a, b with V3 a0 a1 a2, V3 b0 b1 b2 => V3 (a0 + b0) (a1 + b1) (a2 + b2) end.

(** A row of finite numbers as a row of a float array. *)
Definition lift3 (a : vec3) : fvec3 :=
  match a with V3 x y z => FV3 (Fin x) (Fin y) (Fin z) end.

Section Rows.

Context {fmt : Format}.

(** [a + b], [a - b] and [a * b], entry by entry. *)
Definition fadd3 (a b : fvec3) : fvec3 :=
  match a, b with
  | FV3 a0 a1 a2, FV3 b0 b1 b2 => FV3 (fadd a0 b0) (fadd a1 b1) (fadd a2 b2)
  end.

Definition fsub3 (a b : fvec3) : fvec3 :=
  match a, b with
  | FV3 a0 a1 a2, FV3 b0 b1 b2 => FV3 (fsub a0 b0) (fsub a1 b1) (fsub a2 b2)
  end.

Definition fmul3 (a b : fvec3) : fvec3 :=
  match a, b with
  | FV3 a0 a1 a2, FV3 b0 b1 b2 => FV3 (fmul a0 b0) (fmul a1 b1) (fmul a2 b2)
  end.

(** A row times a scalar ([row * w]) and a scalar times a row
    ([d * row]). *)
Definition fscale_row (a : fvec3) (w : fval) : fvec3 :=
  match a with FV3 a0 a1 a2 => FV3 (fmul a0 w) (fmul a1 w) (fmul a2 w) end.

Definition fscale3 (d : fval) (n : fvec3) : fvec3 :=
  match n with FV3 x y z => FV3 (fmul d x) (fmul d y) (fmul d z) end.

(** A row divided by a scalar. *)
Definition vdiv (a : fvec3) (d : fval) : fvec3 :=
  match a with FV3 a0 a1 a2 => FV3 (fdiv a0 d) (fdiv a1 d) (fdiv a2 d) end.

(** The cross product of two vectors of three entries. *)
Definition cross3 (a b : fvec3) : fvec3 :=
  match a, b with
  | FV3 a0 a1 a2, FV3 b0 b1 b2 =>
      FV3 (fsub (fmul a1 b2) (fmul a2 b1))
          (fsub (fmul a2 b0) (fmul a0 b2))
          (fsub (fmul a0 b1) (fmul a1 b0))
  end.

(** [torch.cross(A, B)] on two (n,3) tensors, called without [dim]: the
    product is taken along the first axis of size three.  That is the last
    axis, row by row, unless there are exactly three rows: then it is axis
    0, and the vectors crossed are the columns, so that row 0 of the result
    is [A[1] * B[2] - A[2] * B[1]] entry by entry, and so on. *)
Definition torch_cross (A B : list fvec3) : option (list fvec3) :=
  match A, B with
  | [a0; a1; a2], [b0; b1; b2] =>
      Some [fsub3 (fmul3 a1 b2) (fmul3 a2 b1);
            fsub3 (fmul3 a2 b0) (fmul3 a0 b2);
            fsub3 (fmul3 a0 b1) (fmul3 a1 b0)]
  | _, _ => zipM (fun a b => Some (cross3 a b)) A B
  end.

Definition crossO (o1 o2 : option (list fvec3)) : option (list fvec3) :=
  match o1, o2 with
  | Some A, Some B => torch_cross A B
  | _, _ => None
  end.

(** The Euclidean norm of a row as [torch.norm] and [np.linalg.norm]
    compute it: the square root of the sum of the squares, each square and
    each partial sum a float. *)
Definition norm (a : fvec3) : fval :=
  match a with
  | FV3 a0 a1 a2 => fsqrt (fadd (fadd (fmul a0 a0) (fmul a1 a1)) (fmul a2 a2))
  end.

End Rows.

End Arr.

(** ** flame/utils.py: vertex_normals *)

Module Normals.

Import Linalg Float Arr.
Local Open Scope R_scope.

(** A tensor of shape [bs, nv, 3]: its second dimension and its batches,
    each of [nv] rows. *)
Record vertices := mkVertices { nv : nat; batches : list (list vec3) }.

Definition rectangular (v : vertices) : Prop :=
  Forall (fun b => List.length b = nv v) (batches v).

Definition face := (Z * Z * Z)%type.

Definition f0 (t : face) : Z := fst (fst t).
Definition f1 (t : face) : Z := snd (fst t).
Definition f2 (t : face) : Z := snd t.

(** [f + (torch.arange(bs) * nv)[:, None, None]], then [reshape(-1, 3)]. *)
Fixpoint expand_faces (nv : nat) (b : nat) (f : list (list face)) : list face :=
  match f with
  | [] => []
  | fb :: f' =>
      let off := (Z.of_nat b * Z.of_nat nv)%Z in
      (map (fun t => (f0 t + off, f1 t + off, f2 t + off)%Z) fb
       ++ expand_faces nv (S b) f')%list
  end.

(** [t.reshape(k, 3)] for a flat list of rows: defined when the number of
    rows matches. *)
Definition reshape_rows {A : Type} (k : nat) (l : list A) : option (list A) :=
  if Nat.eqb (List.length l) k then Some l else None.

(** [F.normalize(x, eps=eps, dim=1)]: each row divided by its norm clamped
    below at [eps] ([clamp_min] keeps NaN and the positive infinity). *)
Definition eps : R := 1 / 1000000.

Definition clamp_min (x : fval) (lo : R) : fval :=
  match x with
  | Fin r => Fin (Rmax r lo)
  | PInf => PInf
  | NInf => Fin lo
  | NaN => NaN
  end.

(** [t.reshape((bs, nv, 3))] on [bs * nv] rows. *)
Fixpoint chunks {A : Type} (bs nv : nat) (l : list A) : list (list A) :=
  match bs with
  | O => []
  | S bs' => firstn nv l :: chunks bs' nv (skipn nv l)
  end.

Section VertexNormals.

Context {fmt : Format}.

(** [x[i] = y] and [normals.index_add_(0, idx, src)]: row [idx[k]] gains
    [src[k]], in order; an index outside [0, n) raises. *)
Fixpoint add_at (l : list fvec3) (i : nat) (a : fvec3) : list fvec3 :=
  match l, i with
  | [], _ => []
  | x :: l', O => fadd3 x a :: l'
  | x :: l', S i' => x :: add_at l' i' a
  end.

Fixpoint index_add (normals : list fvec3) (idx : list Z) (src : list fvec3)
  : option (list fvec3) :=
  match idx, src with
  | [], [] => Some normals
  | i :: idx', a :: src' =>
      if ((0 <=? i) && (i <? Z.of_nat (List.length normals)))%Z
      then index_add (add_at normals (Z.to_nat i) a) idx' src'
      else None
  | _, _ => None
  end.

Definition normalize_row (eps : R) (a : fvec3) : fvec3 :=
  vdiv a (clamp_min (norm a) eps).

(** Lines 24-37: the tensor [normals] after the three [index_add_]. *)
Definition accumulate (v : vertices) (f : list (list face))
  : option (list fvec3) :=
  let nv := nv v in
  let bs := List.length f in
  let normals := repeat (FV3 (Fin 0) (Fin 0) (Fin 0)) (bs * nv) in
  let f := expand_faces nv 0 f in
  match reshape_rows (bs * nv) (map lift3 (List.concat (batches v))) with
  | None => None
  | Some flat =>
      match take flat (map f0 f), take flat (map f1 f), take flat (map f2 f) with
      | Some vf0, Some vf1, Some vf2 =>
          let c1 := crossO (zip_with fsub3 (Some vf2) (Some vf1))
                           (zip_with fsub3 (Some vf0) (Some vf1)) in
          let c2 := crossO (zip_with fsub3 (Some vf0) (Some vf2))
                           (zip_with fsub3 (Some vf1) (Some vf2)) in
          let c0 := crossO (zip_with fsub3 (Some vf1) (Some vf0))
                           (zip_with fsub3 (Some vf2) (Some vf0)) in
          match c1, c2, c0 with
          | Some c1, Some c2, Some c0 =>
              match index_add normals (map f1 f) c1 with
              | None => None
              | Some normals =>
                  match index_add normals (map f2 f) c2 with
                  | None => None
                  | Some normals => index_add normals (map f0 f) c0
                  end
              end
          | _, _, _ => None
          end
      | _, _, _ => None
      end
  end.

(** Lines 39-41 on top of it. *)
Definition vertex_normals (v : vertices) (f : list (list face))
  : option (list (list fvec3)) :=
  match accumulate v f with
  | None => None
  | Some normals =>
      let normals := map (normalize_row eps) normals in
      Some (chunks (List.length f) (nv v) normals)
  end.

End VertexNormals.

(** Vertices none of whose coordinates exceeds [B] in magnitude. *)
Definition within (B : R) (v : vertices) : Prop :=
  Forall (Forall (fun p => match p with
                           | V3 x y z => Rabs x <= B /\ Rabs y <= B /\ Rabs z <= B
                           end)) (batches v).

(** Faces whose vertex numbers, after the batch offset, are rows of the
    flattened vertex array. *)
Definition faces_in_range (v : vertices) (f : list (list face)) : Prop :=
  Forall (fun t =>
            (0 <= f0 t < Z.of_nat (List.length f * nv v))%Z /\
            (0 <= f1 t < Z.of_nat (List.length f * nv v))%Z /\
            (0 <= f2 t < Z.of_nat (List.length f * nv v))%Z)
         (expand_faces (nv v) 0 f).

End Normals.

(** ** flame/utils.py: upsample_mesh *)

Module Upsample.

Import Linalg Float Arr.
Local Open Scope R_scope.

(** The entries of [dense_template] the function reads.  The pixel
    coordinates are integers ([astype(int)] leaves them as they are). *)
Record dense_template := mkTemplate {
  x_coords : list Z;
  y_coords : list Z;
  valid_pixel_ids : list Z;
  valid_pixel_3d_faces : list (Z * Z * Z);
  valid_pixel_b_coords : list (R * R * R)
}.

Definition c0 {A : Type} (t : A * A * A) : A := fst (fst t).
Definition c1 {A : Type} (t : A * A * A) : A := snd (fst t).
Definition c2 {A : Type} (t : A * A * A) : A := snd t.

(** [a[:, k]]. *)
Definition col {A : Type} (k : A * A * A -> A) (a : list (A * A * A)) : list A :=
  map k a.

(** [disp_map[ys, xs]]: the entry at row [ys[i]], column [xs[i]]. *)
Definition index2 (disp_map : list (list R)) (y x : Z) : option R :=
  match Py.index disp_map y with
  | Some r => Py.index r x
  | None => None
  end.

Section UpsampleMesh.

Context {fmt : Format}.

(** [src[faces[:, 0], :] * b[:, 0][:, np.newaxis] + ... ]: the barycentric
    combination of the rows of [src] the faces name. *)
Definition interpolate (src : list vec3) (faces : list (Z * Z * Z))
    (b : list (R * R * R)) : option (list fvec3) :=
  let src := map lift3 src in
  let weights k := Some (map Fin (col k b)) in
  zip_with fadd3
    (zip_with fadd3
       (zip_with fscale_row (take src (col c0 faces)) (weights c0))
       (zip_with fscale_row (take src (col c1 faces)) (weights c1)))
    (zip_with fscale_row (take src (col c2 faces)) (weights c2)).

Definition upsample_mesh (v normals : list vec3) (disp_map : list (list R))
    (dense_template : dense_template) : option (list fvec3) :=
  let x_coords := x_coords dense_template in
  let y_coords := y_coords dense_template in
  let valid_pixel_ids := valid_pixel_ids dense_template in
  let valid_pixel_3d_faces := valid_pixel_3d_faces dense_template in
  let valid_pixel_b_coords := valid_pixel_b_coords dense_template in
  let pixel_3d_points := interpolate v valid_pixel_3d_faces valid_pixel_b_coords in
  let pixel_3d_normals :=
    interpolate normals valid_pixel_3d_faces valid_pixel_b_coords in
  let pixel_3d_normals :=
    zip_with vdiv pixel_3d_normals (mapO norm pixel_3d_normals) in
  let displacements :=
    mapO Fin (zipO (index2 disp_map) (take y_coords valid_pixel_ids)
                                     (take x_coords valid_pixel_ids)) in
  let offsets := zip_with fscale3 displacements pixel_3d_normals in
  let v_dense := zip_with fadd3 pixel_3d_points offsets in
  v_dense.

(** *** The algorithm as the specification words it, pixel by pixel, each
    coordinate written out in the scalar operations *)

(** Steps 1 and 2: the weighted sum of one coordinate of the three corners
    of the enclosing triangle. *)
Definition weighted (a0 a1 a2 : R) (w : R * R * R) : fval :=
  fadd (fadd (fmul (Fin a0) (Fin (c0 w))) (fmul (Fin a1) (Fin (c1 w))))
       (fmul (Fin a2) (Fin (c2 w))).

Definition barycentric (src : list vec3) (tri : Z * Z * Z) (w : R * R * R)
  : option fvec3 :=
  bind (Py.index src (c0 tri)) (fun a0 =>
  bind (Py.index src (c1 tri)) (fun a1 =>
  bind (Py.index src (c2 tri)) (fun a2 =>
  match a0, a1, a2 with
  | V3 x0 y0 z0, V3 x1 y1 z1, V3 x2 y2 z2 =>
      Some (FV3 (weighted x0 x1 x2 w) (weighted y0 y1 y2 w) (weighted z0 z1 z2 w))
  end))).

(** Step 3: the length of the interpolated normal. *)
Definition length3 (nx ny nz : fval) : fval :=
  fsqrt (fadd (fadd (fmul nx nx) (fmul ny ny)) (fmul nz nz)).

(** Step 4: the displacement at the pixel's (row, column). *)
Definition displacement (disp_map : list (list R)) (t : dense_template) (pid : Z)
  : option R :=
  bind (Py.index (y_coords t) pid) (fun y =>
  bind (Py.index (x_coords t) pid) (fun x =>
  index2 disp_map y x)).

(** Step 5: one coordinate of the point moved by the displacement along the
    normal divided by its length. *)
Definition displaced (p n len : fval) (d : R) : fval :=
  fadd p (fmul (Fin d) (fdiv n len)).

(** Steps 1 to 5 for the [i]-th valid pixel. *)
Definition dense_vertex (v normals : list vec3) (disp_map : list (list R))
    (t : dense_template) (i : nat) : option fvec3 :=
  bind (nth_error (valid_pixel_3d_faces t) i) (fun tri =>
  bind (nth_error (valid_pixel_b_coords t) i) (fun w =>
  bind (nth_error (valid_pixel_ids t) i) (fun pid =>
  bind (barycentric v tri w) (fun p =>
  bind (barycentric normals tri w) (fun n =>
  bind (displacement disp_map t pid) (fun d =>
  match p, n with
  | FV3 px py pz, FV3 nx ny nz =>
      let len := length3 nx ny nz in
      Some (FV3 (displaced px nx len d) (displaced py ny len d)
                (displaced pz nz len d))
  end)))))).

(** The same three formulas over the real numbers, and what it takes for
    the float formulas to agree with them: every product, sum and quotient
    on the way is representable in magnitude. *)
Definition plain_weighted (a0 a1 a2 : R) (w : R * R * R) : R :=
  a0 * c0 w + a1 * c1 w + a2 * c2 w.

Definition weighted_in_range (a0 a1 a2 : R) (w : R * R * R) : Prop :=
  in_range (a0 * c0 w) /\ in_range (a1 * c1 w) /\ in_range (a2 * c2 w) /\
  in_range (a0 * c0 w + a1 * c1 w) /\
  in_range (a0 * c0 w + a1 * c1 w + a2 * c2 w).

Definition plain_length (nx ny nz : R) : R := sqrt (nx * nx + ny * ny + nz * nz).

Definition length_in_range (nx ny nz : R) : Prop :=
  in_range (nx * nx) /\ in_range (ny * ny) /\ in_range (nz * nz) /\
  in_range (nx * nx + ny * ny) /\ in_range (nx * nx + ny * ny + nz * nz).

Definition plain_displaced (p n len d : R) : R := p + d * (n / len).

Definition displaced_in_range (p n len d : R) : Prop :=
  len <> 0 /\ in_range (n / len) /\ in_range (d * (n / len)) /\
  in_range (p + d * (n / len)).

(** A template whose three per-pixel arrays have one entry per valid pixel
    and whose lookups all succeed. *)
Definition well_formed (v normals : list vec3) (disp_map : list (list R))
    (t : dense_template) : Prop :=
  List.length (valid_pixel_3d_faces t) = List.length (valid_pixel_ids t) /\
  List.length (valid_pixel_b_coords t) = List.length (valid_pixel_ids t) /\
  forall i, (i < List.length (valid_pixel_ids t))%nat ->
            dense_vertex v normals disp_map t i <> None.

End UpsampleMesh.

End Upsample.

(** ** Concrete inputs for the upsampler

    A single triangle in the plane z = 0, a 1 x 1 displacement map holding
    the value 1, and a template with one valid pixel at (0, 0) inside the
    triangle.  With [flat_normals] every vertex normal is (0, 0, 1); with
    [opposed_normals] two unit normals point in opposite directions, and the
    template [midpoint] weighs exactly these two vertices by one half; with
    [zero_normals] every vertex normal is the zero vector, as
    [vertex_normals] returns it for a vertex of no face. *)

Module UpsampleExample.

Import Linalg Upsample.
Local Open Scope R_scope.

Definition triangle : list vec3 := [V3 0 0 0; V3 1 0 0; V3 0 1 0].

Definition flat_normals : list vec3 := [V3 0 0 1; V3 0 0 1; V3 0 0 1].

Definition opposed_normals : list vec3 := [V3 0 0 1; V3 0 0 (-1); V3 0 0 1].


Definition disp_map : list (list R) := [[1]].

Definition centroid : dense_template :=
  mkTemplate [0%Z] [0%Z] [0%Z] [(0, 1, 2)%Z] [(1 / 4, 1 / 4, 1 / 2)].

Definition midpoint : dense_template :=
  mkTemplate [0%Z] [0%Z] [0%Z] [(0, 1, 2)%Z] [(1 / 2, 1 / 2, 0)].

End UpsampleExample.

(** ** Concrete inputs for the vertex normals: one batch of four vertices
    and a single triangle, the fourth vertex belonging to no face; and a
    triangle with edges of length 1e20, whose cross products exceed the
    binary32 range. *)

Module NormalsExample.

Import Linalg Normals.
Local Open Scope R_scope.

Definition mesh : vertices :=
  mkVertices 4 [[V3 0 0 0; V3 1 0 0; V3 0 1 0; V3 5 5 5]].

Definition faces : list (list face) := [[(0, 1, 2)%Z]].

Definition large_mesh : vertices :=
  mkVertices 3 [[V3 0 0 0; V3 100000000000000000000 0 0;
                 V3 0 100000000000000000000 0]].

End NormalsExample.

(** ** flame/utils.py: load_obj *)

Module Obj.

Local Open Scope string_scope.

(** *** Python strings *)

(** The ASCII characters [str.isspace] accepts: tab, line feed, vertical
    tab, form feed, carriage return, the four separators 28-31, space. *)
Definition is_space (c : ascii) : bool :=
  let n := nat_of_ascii c in
  ((9 <=? n) && (n <=? 13) || (28 <=? n) && (n <=? 31) || (n =? 32))%nat.

Fixpoint lstrip (s : string) : string :=
  match s with
  | String c s' => if is_space c then lstrip s' else s
  | EmptyString => EmptyString
  end.

(** [s.rstrip()]: the characters of [s] up to the last one that is no
    space. *)
Fixpoint rstrip (s : string) : string :=
  match s with
  | EmptyString => EmptyString
  | String c s' =>
      match rstrip s' with
      | EmptyString => if is_space c then EmptyString else String c EmptyString
      | rest => String c rest
      end
  end.

Definition strip (s : string) : string := rstrip (lstrip s).

(** [s.split()]: the maximal runs of characters that are no space.  [cur]
    is the run being read. *)
Fixpoint split_from (cur : string) (s : string) : list string :=
  match s with
  | EmptyString => match cur with EmptyString => [] | _ => [cur] end
  | String c s' =>
      if is_space c
      then match cur with
           | EmptyString => split_from EmptyString s'
           | _ => cur :: split_from EmptyString s'
           end
      else split_from (cur ++ String c EmptyString) s'
  end.

Definition split (s : string) : list string := split_from EmptyString s.

(** [s.split(sep)] for a one-character separator: the pieces between the
    separators, empty ones included. *)
Fixpoint split_on_from (sep : ascii) (cur : string) (s : string) : list string :=
  match s with
  | EmptyString => [cur]
  | String c s' =>
      if Ascii.eqb c sep
      then cur :: split_on_from sep EmptyString s'
      else split_on_from sep (cur ++ String c EmptyString) s'
  end.

Definition split_on (sep : ascii) (s : string) : list string :=
  split_on_from sep EmptyString s.

Definition startswith (s prefix : string) : bool := String.prefix prefix s.

(** *** The built-ins the loader leaves to Python

    [float(x)] and [int(x)] ([None]: ValueError) and the text [str(l)] of a
    list of floats, which the error messages embed. *)
Class Builtins := {
  F : Type;
  float : string -> option F;
  int : string -> option Z;
  str_floats : list F -> string
}.

(** What the loader can raise: the two ValueErrors it builds itself, the
    ValueError of a failed [float] or [int] (its text is not modelled, the
    offending token is kept), and torch's RuntimeError. *)
Inductive exn :=
| ValueError (msg : string)
| ConversionError (token : string)
| RuntimeError.

Inductive result (A : Type) :=
| Ok (a : A)
| Raise (e : exn).

Arguments Ok {A} a.
Arguments Raise {A} e.

Section Loader.

Context {B : Builtins}.

(** The four lists the loop fills. *)
Record state := mkState {
  verts : list (list F);
  uvcoords : list (list F);
  faces : list Z;
  uv_faces : list Z
}.

(** [[float(x) for x in tokens]]. *)
Fixpoint floats (tokens : list string) : result (list F) :=
  match tokens with
  | [] => Ok []
  | x :: rest =>
      match float x with
      | None => Raise (ConversionError x)
      | Some a =>
          match floats rest with
          | Ok l => Ok (a :: l)
          | Raise e => Raise e
          end
      end
  end.

(** The body of [for vert_props in face_list].  ([str.split] with a
    separator never returns an empty list, so [vert_props[0]] exists.) *)
Definition face_step (st : state) (vert_props : list string) : result state :=
  match vert_props with
  | [] => Raise RuntimeError
  | p0 :: rest =>
      match int p0 with
      | None => Raise (ConversionError p0)
      | Some i =>
          let st := mkState (verts st) (uvcoords st) (faces st ++ [i]) (uv_faces st) in
          match rest with
          | [] => Ok st
          | p1 :: _ =>
              if String.eqb p1 "" then Ok st
              else
                match int p1 with
                | None => Raise (ConversionError p1)
                | Some j =>
                    Ok (mkState (verts st) (uvcoords st) (faces st)
                          (uv_faces st ++ [j]))
                end
          end
      end
  end.

Fixpoint face_loop (st : state) (face_list : list (list string)) : result state :=
  match face_list with
  | [] => Ok st
  | vert_props :: rest =>
      match face_step st vert_props with
      | Ok st' => face_loop st' rest
      | Raise e => Raise e
      end
  end.

Definition vertex_message (vert : list F) (line : string) : string :=
  "Vertex " ++ str_floats vert ++ " does not have 3 values. Line: " ++ line.

Definition texture_message (tx : list F) (line : string) : string :=
  "Texture " ++ str_floats tx ++ " does not have 2 values. Line: " ++ line.

(** The body of [for line in lines]. *)
Definition step (st : state) (line : string) : result state :=
  let tokens := split (strip line) in
  if startswith line "v " then
    match floats (Py.slice tokens 1 4) with
    | Raise e => Raise e
    | Ok vert =>
        if negb (Nat.eqb (List.length vert) 3)
        then Raise (ValueError (vertex_message vert line))
        else Ok (mkState (verts st ++ [vert]) (uvcoords st) (faces st) (uv_faces st))
    end
  else if startswith line "vt " then
    match floats (Py.slice tokens 1 3) with
    | Raise e => Raise e
    | Ok tx =>
        if negb (Nat.eqb (List.length tx) 2)
        then Raise (ValueError (texture_message tx line))
        else Ok (mkState (verts st) (uvcoords st ++ [tx]) (faces st) (uv_faces st))
    end
  else if startswith line "f " then
    let face := Py.slice_from tokens 1 in
    let face_list := map (split_on "/"%char) face in
    face_loop st face_list
  else Ok st.

Fixpoint loop (st : state) (lines : list string) : result state :=
  match lines with
  | [] => Ok st
  | line :: rest =>
      match step st line with
      | Ok st' => loop st' rest
      | Raise e => Raise e
      end
  end.

(** [torch.tensor(l, dtype=torch.long)]: a value outside the 64-bit range
    raises; [t.reshape(-1, 3)]: the number of elements must be a multiple
    of three; [t - 1] wraps around. *)
Definition in_int64 (z : Z) : bool :=
  ((- 2 ^ 63 <=? z) && (z <? 2 ^ 63))%Z.

Definition wrap64 (z : Z) : Z := ((z + 2 ^ 63) mod 2 ^ 64 - 2 ^ 63)%Z.

Fixpoint rows3 (l : list Z) : option (list (Z * Z * Z)) :=
  match l with
  | [] => Some []
  | a :: b :: c :: rest =>
      match rows3 rest with
      | Some r => Some ((a, b, c) :: r)
      | None => None
      end
  | _ => None
  end.

Definition long_faces (l : list Z) : result (list (Z * Z * Z)) :=
  if forallb in_int64 l then
    match rows3 l with
    | Some r =>
        Ok (map (fun t => (wrap64 (fst (fst t) - 1), wrap64 (snd (fst t) - 1),
                           wrap64 (snd t - 1))) r)
    | None => Raise RuntimeError
    end
  else Raise RuntimeError.

(** The returned tuple; each array gains a leading axis of length one. *)
Record mesh := mkMesh {
  m_verts : list (list (list F));
  m_uvcoords : list (list (list F));
  m_faces : list (list (Z * Z * Z));
  m_uv_faces : list (list (Z * Z * Z))
}.

(** [load_obj] on the lines of the file, as iterating the open file yields
    them. *)
Definition load_obj (file_lines : list string) : result mesh :=
  let lines := map strip file_lines in
  match loop (mkState [] [] [] []) lines with
  | Raise e => Raise e
  | Ok st =>
      match long_faces (faces st) with
      | Raise e => Raise e
      | Ok faces =>
          match long_faces (uv_faces st) with
          | Raise e => Raise e
          | Ok uv_faces => Ok (mkMesh [verts st] [uvcoords st] [faces] [uv_faces])
          end
      end
  end.

(** *** Vocabulary of the specification *)

(** A vertex line with fewer than three coordinates, a texture line with
    fewer than two values (the first token is the tag). *)
Definition short_vertex_line (line : string) : Prop :=
  startswith line "v " = true /\ (List.length (split (strip line)) < 4)%nat.

Definition short_texture_line (line : string) : Prop :=
  startswith line "vt " = true /\ (List.length (split (strip line)) < 3)%nat.

End Loader.

End Obj.

(** ** Concrete built-ins for the loader

    [float] and [int] restricted to plain decimal integer numerals with an
    optional sign, on which they agree with Python; the text of a list of
    floats is left schematic. *)

Module ObjExample.

Import Obj.
Local Open Scope string_scope.

Definition digit (c : ascii) : option Z :=
  let n := nat_of_ascii c in
  if ((48 <=? n) && (n <=? 57))%nat then Some (Z.of_nat (n - 48)) else None.

Fixpoint digits (acc : Z) (s : string) : option Z :=
  match s with
  | EmptyString => Some acc
  | String c s' =>
      match digit c with
      | Some d => digits (10 * acc + d)%Z s'
      | None => None
      end
  end.

Definition numeral (s : string) : option Z :=
  match s with
  | EmptyString => None
  | String "-"%char (String c s') => option_map Z.opp (digits 0 (String c s'))
  | String "+"%char (String c s') => digits 0 (String c s')
  | _ => digits 0 s
  end.

#[export] Instance builtins : Builtins := {|
  F := R;
  float := fun s => option_map IZR (numeral s);
  int := numeral;
  str_floats := fun _ => "[...]"
|}.

(** A file whose vertex line carries four values and whose texture line
    carries three. *)
Definition long_lines : list string :=
  ["v 1 2 3 4"; "v 0 0 0"; "v 0 1 0"; "vt 0 1 2"; "f 1/1 2/1 3/1"].

(** A file whose second line is a vertex with two coordinates. *)
Definition short_lines : list string := ["v 1 2 3"; "v 1 2"; "f 1 2 3"].

(** A file whose first two lines are a tag with nothing after it (the
    space and the line end are stripped). *)
Definition tag_only_lines : list string :=
  [String "v" (String " " (String "010" EmptyString));
   String "v" (String "t" (String " " (String "010" EmptyString)));
   "v 1 2 3"].

End ObjExample.

(** ** flame/deca/recon.py: what a sequence of calls logs *)

Module ReconLog.

Import Linalg Recon.

Section Model.

Context {C : Collaborators}.

(** The warnings logged by a sequence of reconstruction calls on the same
    instance, in order. *)
Fixpoint calls_log (images : list Image) (self : DecaReconModel) : list string :=
  match images with
  | [] => []
  | image :: rest =>
      (log_of (__call__ image self)
       ++ calls_log rest (state_of (__call__ image self)))%list
  end.

(** An instance that will not warn about [tform] again. *)
Definition quiet (self : DecaReconModel) : Prop :=
  tform self <> None \/ _warned_about_tform self = true.

End Model.

End ReconLog.

(** ** The concrete instance: what its encoder yields *)

Module ExampleEncoded.

Import Linalg Recon.
Local Open Scope R_scope.

(** The dict [_encode] returns on the concrete instance. *)
Definition encoded : Py.dict tensor :=
  [("shape"%string, T2 [repeat 0 100]);
   ("tex"%string, T2 [repeat 0 50]);
   ("exp"%string, T2 [repeat 0 50]);
   ("pose"%string, T2 [repeat 0 6]);
   ("cam"%string, T2 [[2; 1; 3]]);
   ("light"%string, T3 [repeat (repeat 0 3) 9])].

End ExampleEncoded.

(** ** flame/utils.py: face_vertices *)

Module FaceVertices.

Import Linalg Arr Normals.
Local Open Scope R_scope.

(** The three rows of [flat] a face names ([flat[t]] for one row [t] of the
    index tensor). *)
Definition corners (flat : list vec3) (t : face) : option (vec3 * vec3 * vec3) :=
  match Py.index flat (f0 t), Py.index flat (f1 t), Py.index flat (f2 t) with
  | Some a, Some b, Some c => Some (a, b, c)
  | _, _, _ => None
  end.

(** [v[f.long()]] for the offset faces, batch by batch; [b] is the number of
    the batch. *)
Fixpoint gather (flat : list vec3) (nv : nat) (b : nat) (f : list (list face))
  : option (list (list (vec3 * vec3 * vec3))) :=
  match f with
  | [] => Some []
  | fb :: f' =>
      let off := (Z.of_nat b * Z.of_nat nv)%Z in
      match mapM (fun t => corners flat (f0 t + off, f1 t + off, f2 t + off)%Z) fb,
            gather flat nv (S b) f' with
      | Some r, Some rest => Some (r :: rest)
      | _, _ => None
      end
  end.

(** The result has shape [bs, nf, 3, 3]. *)
Definition face_vertices (v : vertices) (f : list (list face))
  : option (list (list (vec3 * vec3 * vec3))) :=
  let nv := nv v in
  let bs := List.length f in
  match reshape_rows (bs * nv) (List.concat (batches v)) with
  | None => None
  | Some v => gather v nv 0 f
  end.

(** *** Vocabulary *)

(** The vertex tensor with [d] added to every vertex. *)
Definition translate (d : vec3) (v : vertices) : vertices :=
  mkVertices (nv v) (map (map (fun p => vadd p d)) (batches v)).

(** Faces whose vertex numbers are vertex numbers of one mesh. *)
Definition local_faces (nv : nat) (f : list (list face)) : Prop :=
  Forall (Forall (fun t =>
                    (0 <= f0 t < Z.of_nat nv)%Z /\
                    (0 <= f1 t < Z.of_nat nv)%Z /\
                    (0 <= f2 t < Z.of_nat nv)%Z)) f.

(** A row of finite entries. *)
Definition row_of (x y z : R) : Float.fvec3 :=
  Float.FV3 (Float.Fin x) (Float.Fin y) (Float.Fin z).

End FaceVertices.

(** ** The OBJ loader: vocabulary for whole files *)

Module ObjLines.

Import Obj.
Local Open Scope string_scope.

(** A string of whitespace only. *)
Fixpoint all_space (s : string) : bool :=
  match s with
  | EmptyString => true
  | String c s' => is_space c && all_space s'
  end.

(** A line of the file that is neither a vertex, a texture nor a face
    line (a comment, a normal, a group, an empty line). *)
Definition other_line (line : string) : Prop :=
  startswith (strip line) "v " = false /\
  startswith (strip line) "vt " = false /\
  startswith (strip line) "f " = false.

(** The number of lines of the file that carry the prefix. *)
Definition count_lines (prefix : string) (file_lines : list string) : nat :=
  List.length (filter (fun l => startswith (strip l) prefix) file_lines).

(** The number of vertex references on the face lines of the file: every
    token after the tag is one. *)
Fixpoint face_references (file_lines : list string) : nat :=
  match file_lines with
  | [] => 0
  | l :: rest =>
      ((if startswith (strip l) "f "
        then List.length (split (strip l)) - 1 else 0)
       + face_references rest)%nat
  end.

End ObjLines.
(* ================================================================== *)
(** * Part II: properties                                              *)
(* ================================================================== *)

(** ** Linear algebra on (4,4) arrays *)

Section LinalgFacts.

Import Linalg.
Local Open Scope R_scope.

Ltac by_entries tac :=
  cbv [matmul transpose matvec vecmat madd mscale mzero mbuild vbuild sum4
       mget vget row cofactor sign minor others det4 eye4];
  f_equal; f_equal; tac.

Lemma matmul_assoc (A B D : mat4) :
  matmul (matmul A B) D = matmul A (matmul B D).
Proof.
  destruct A as [[? ? ? ?] [? ? ? ?] [? ? ? ?] [? ? ? ?]],
           B as [[? ? ? ?] [? ? ? ?] [? ? ? ?] [? ? ? ?]],
           D as [[? ? ? ?] [? ? ? ?] [? ? ? ?] [? ? ? ?]].
  by_entries ltac:(ring).
Qed.

Lemma matmul_eye_l (A : mat4) : matmul eye4 A = A.
Proof. destruct A as [[? ? ? ?] [? ? ? ?] [? ? ? ?] [? ? ? ?]]. by_entries ltac:(ring). Qed.

Lemma matmul_eye_r (A : mat4) : matmul A eye4 = A.
Proof. destruct A as [[? ? ? ?] [? ? ? ?] [? ? ? ?] [? ? ? ?]]. by_entries ltac:(ring). Qed.

(** [inv] returns a left inverse ... *)
Lemma inv_left (A N : mat4) : inv A = Some N -> matmul N A = eye4.
Proof.
  unfold inv. destruct (Req_EM_T (det4 A) 0) as [|Hd]; [discriminate|].
  intros H; injection H as <-.
  destruct A as [[a0 a1 a2 a3] [b0 b1 b2 b3] [c0 c1 c2 c3] [d0 d1 d2 d3]].
  cbv [det4 sum4 mget vget row cofactor sign minor others] in Hd.
  by_entries ltac:(field; intro E; apply Hd; rewrite <- E; ring).
Qed.


Lemma inv_defined (A : mat4) : det4 A <> 0 -> exists N, inv A = Some N.
Proof.
  intros Hd. unfold inv. destruct (Req_EM_T (det4 A) 0); [contradiction|eauto].
Qed.

Lemma det4_eye4 : det4 eye4 = 1.
Proof. cbv [det4 sum4 mget vget row cofactor sign minor others eye4]. ring. Qed.

Lemma inv_eye4 : inv eye4 = Some eye4.
Proof.
  unfold inv. destruct (Req_EM_T (det4 eye4) 0) as [E|_].
  - rewrite det4_eye4 in E. lra.
  - f_equal. by_entries ltac:(field; lra).
Qed.


End LinalgFacts.

(** ** The reconstruction model: how a method leaves the instance *)

Section ReconFacts.

Import Linalg Recon.
Context {C : Collaborators}.

Ltac run :=
  unfold state_of, result_of, log_of, bind, get, modify, ret, lift, raise, warning;
  simpl.

Lemma _encode_state (image : Image) (self : DecaReconModel) :
  state_of (_encode image self) =
  match img_size self with
  | None => set_img_size (Some (Py.slice_from (shape image) 2)) self
  | Some _ => self
  end.
Proof.
  unfold _encode. run.
  destruct (img_size self) eqn:Hs; run;
    destruct (E_flame image); run; trivial;
    destruct (_decompose_params _ _); run; trivial;
    destruct (dense self); run;
    try (destruct (E_detail image); run; trivial);
    destruct (Py.contains "emoca" (name self)); run; trivial;
    destruct (E_expression image); run; trivial.
Qed.

Lemma _decode_state (enc_dict : Py.dict tensor) (self : DecaReconModel) :
  state_of (_decode enc_dict self) =
  match D_mesh (dense self) enc_dict, cam_lookup enc_dict with
  | Some _, Some _ => after_tform_check self
  | _, _ => self
  end.
Proof.
  unfold _decode, after_tform_check. run.
  destruct (D_mesh (dense self) enc_dict) as [[v Rs]|]; run; trivial.
  destruct (cam_lookup enc_dict) as [[[sc tx] ty]|]; run; trivial.
  destruct (tform self) eqn:Ht; run.
  - rewrite Ht. simpl.
    destruct (star create_ortho_matrix _); run; trivial.
    destruct (star create_viewport_matrix _); run; trivial.
    destruct (img_size self) as [s|]; run; trivial.
    destruct (star create_viewport_matrix s); run; trivial.
    destruct (star create_ortho_matrix s); run; trivial.
    destruct (inv _); run; trivial.
    destruct (inv _); run; trivial.
  - destruct (_warned_about_tform self); run;
    (destruct (star create_ortho_matrix _); run; trivial;
     destruct (star create_viewport_matrix _); run; trivial;
     destruct (img_size self) as [s|]; run; trivial;
     destruct (star create_viewport_matrix s); run; trivial;
     destruct (star create_ortho_matrix s); run; trivial;
     destruct (inv _); run; trivial;
     destruct (inv _); run; trivial).
Qed.


Lemma __call___state (image : Image) (self : DecaReconModel) :
  state_of (__call__ image self) =
  match _check_input image (224%Z, 224%Z) with
  | None => self
  | Some image' =>
      match result_of (_encode image' self) with
      | None => state_of (_encode image' self)
      | Some enc_dict => state_of (_decode enc_dict (state_of (_encode image' self)))
      end
  end.
Proof.
  unfold __call__. run.
  destruct (_check_input image (224%Z, 224%Z)) as [image'|]; run; trivial.
  destruct (_encode image' self) as [[[enc|] s1] l1]; run; trivial.
  destruct (_decode enc s1) as [[[out|] s2] l2]; run; trivial.
Qed.

Lemma Frame_refl (self : DecaReconModel) : Frame self self.
Proof.
  unfold Frame, same_fixed_attributes, lazy_attributes_step. intuition.
Qed.

Lemma Frame_trans (s1 s2 s3 : DecaReconModel) :
  Frame s1 s2 -> Frame s2 s3 -> Frame s1 s3.
Proof.
  unfold Frame, same_fixed_attributes, lazy_attributes_step.
  intros [[? [? [? [? [? [? ?]]]]]] [Hi [Ht [Hn [Hw Hk]]]]]
         [[? [? [? [? [? [? ?]]]]]] [Hi' [Ht' [Hn' [Hw' Hk']]]]].
  repeat split; try congruence; auto.
  - intros E. destruct (Hn E) as [E'|E']; [auto|].
    right. apply Ht'. exact E'.
  - intros E. destruct (tform s1) as [t|] eqn:Et; [|congruence].
    rewrite Hk' by (rewrite (Ht t eq_refl); discriminate).
    apply Hk. discriminate.
Qed.

Lemma Frame_set_img_size (s : option (list Z)) (self : DecaReconModel) :
  img_size self = None -> Frame self (set_img_size s self).
Proof.
  intros E. unfold Frame, same_fixed_attributes, lazy_attributes_step; simpl.
  repeat split; auto. intros ? ?. congruence.
Qed.

Lemma Frame_after_tform_check (self : DecaReconModel) :
  Frame self (after_tform_check self).
Proof.
  unfold after_tform_check.
  destruct (tform self) eqn:Et; [apply Frame_refl|].
  unfold Frame, same_fixed_attributes, lazy_attributes_step.
  destruct (_warned_about_tform self) eqn:Ew; simpl; rewrite ?Et, ?Ew;
    repeat split; auto; try congruence.
Qed.

Lemma _encode_frame (image : Image) (self : DecaReconModel) :
  Frame self (state_of (_encode image self)).
Proof.
  rewrite _encode_state. destruct (img_size self) eqn:E.
  - apply Frame_refl.
  - apply Frame_set_img_size, E.
Qed.

Lemma _decode_frame (enc_dict : Py.dict tensor) (self : DecaReconModel) :
  Frame self (state_of (_decode enc_dict self)).
Proof.
  rewrite _decode_state.
  destruct (D_mesh _ _); [|apply Frame_refl].
  destruct (cam_lookup _); [|apply Frame_refl].
  apply Frame_after_tform_check.
Qed.

Lemma __call___frame (image : Image) (self : DecaReconModel) :
  Frame self (state_of (__call__ image self)).
Proof.
  rewrite __call___state.
  destruct (_check_input _ _) as [image'|]; [|apply Frame_refl].
  destruct (result_of _).
  - eapply Frame_trans; [apply _encode_frame|apply _decode_frame].
  - apply _encode_frame.
Qed.

Lemma calls_frame (images : list Image) (self : DecaReconModel) :
  Frame self (calls images self).
Proof.
  revert self. induction images as [|image rest IH]; intros self; simpl.
  - apply Frame_refl.
  - eapply Frame_trans; [apply __call___frame|apply IH].
Qed.

(** The stored image size after one call. *)
Lemma __call___img_size (image : Image) (self : DecaReconModel) :
  img_size (state_of (__call__ image self)) =
  match _check_input image (224%Z, 224%Z), img_size self with
  | Some image', None => Some (Py.slice_from (shape image') 2)
  | _, s => s
  end.
Proof.
  rewrite __call___state.
  destruct (_check_input _ _) as [image'|]; [|destruct (img_size self); trivial].
  assert (E : img_size (state_of (_encode image' self)) =
              match img_size self with
              | None => Some (Py.slice_from (shape image') 2)
              | Some s => Some s
              end).
  { rewrite _encode_state. destruct (img_size self) eqn:E; simpl; auto. }
  destruct (result_of _) as [enc|].
  - destruct (_decode_frame enc (state_of (_encode image' self))) as [_ [Hi _]].
    destruct (img_size self); rewrite (Hi _ E); trivial.
  - rewrite E. destruct (img_size self); trivial.
Qed.


(** C5, in the form that holds of the code.  A reconstruction call leaves
    every attribute of the instance unchanged except three: [img_size], which is assigned only
    while unset and then holds the trailing dimensions of the checked image;
    the flag [_warned_about_tform], which is only ever raised, and only on
    an instance whose [tform] is unset; and [tform] itself, which is kept
    when the caller supplied one and is otherwise either still unset or
    replaced by the 3x3 identity. *)
Theorem C5_call_changes_only_lazy_attributes
    (image : Image) (self : DecaReconModel) :
  let self' := state_of (__call__ image self) in
  same_fixed_attributes self self' /\
  (forall t, tform self = Some t -> tform self' = Some t) /\
  (tform self = None -> tform self' = None \/ tform self' = Some eye3) /\
  (forall s, img_size self = Some s -> img_size self' = Some s) /\
  (img_size self = None ->
   img_size self' = None \/
   exists image', _check_input image (224%Z, 224%Z) = Some image' /\
                  img_size self' = Some (Py.slice_from (shape image') 2)) /\
  (_warned_about_tform self = true -> _warned_about_tform self' = true) /\
  (tform self <> None -> _warned_about_tform self' = _warned_about_tform self).
Proof.
  intros self'.
  destruct (__call___frame image self) as [Hfix [Hi [Ht [Hn [Hw Hk]]]]].
  fold self' in Hfix, Hi, Ht, Hn, Hw, Hk.
  repeat split; try apply Hfix; auto.
  intros E. unfold self'. rewrite __call___img_size, E.
  destruct (_check_input image (224%Z, 224%Z)) as [image'|]; eauto.
Qed.

(** C8.  On an instance built without [img_size], the first call whose
    image passes the input check stores the third and fourth dimension of
    that image (named w and h by the docstring of [_encode]) as [img_size],
    and no later call changes it, whatever images it is given. *)
Theorem C8_img_size_is_inferred_once
    (image image' : Image) (n c w h : Z) (later : list Image)
    (self : DecaReconModel) :
  img_size self = None ->
  _check_input image (224%Z, 224%Z) = Some image' ->
  shape image' = [n; c; w; h] ->
  let self1 := state_of (__call__ image self) in
  img_size self1 = Some [w; h] /\
  img_size (calls later self1) = Some [w; h].
Proof.
  intros Hs Hc Hsh self1.
  assert (E : img_size self1 = Some [w; h]).
  { unfold self1. rewrite __call___img_size, Hc, Hs, Hsh. reflexivity. }
  split; [exact E|].
  destruct (calls_frame later self1) as [_ [Hi _]]. apply Hi, E.
Qed.

End ReconFacts.

(** C5, the claim as stated fails: a call on an instance whose [tform] is
    unset assigns the identity to the caller-visible attribute. *)
Lemma C5_tform_is_assigned :
  Recon.tform (Example.model None None) = None /\
  Recon.tform
    (Recon.state_of (Recon.__call__ (C := Example.collaborators) Example.image224 (Example.model None None)))
  = Some Linalg.eye3.
Proof.
  split; [reflexivity|].
  rewrite __call___state. simpl Recon._check_input.
  assert (E : exists d, Recon.result_of
                (Recon._encode (C := Example.collaborators) Example.image224 (Example.model None None)) = Some d
              /\ Recon.cam_lookup d = Some (2, 1, 3)%R).
  { eexists. split; vm_compute; reflexivity. }
  destruct E as [d [-> Hcam]].
  rewrite _decode_state, Hcam. reflexivity.
Qed.

(** C8 on the concrete instance: a 224 x 224 image fixes (224, 224), and a
    later 100 x 50 image does not change it. *)
Lemma C8_witness :
  Recon.img_size
    (Recon.state_of (Recon.__call__ (C := Example.collaborators) Example.image224 (Example.model None None)))
  = Some [224%Z; 224%Z] /\
  Recon.img_size
    (Recon.calls (C := Example.collaborators) [[1%Z; 3%Z; 100%Z; 50%Z]]
       (Recon.state_of (Recon.__call__ (C := Example.collaborators) Example.image224 (Example.model None None))))
  = Some [224%Z; 224%Z].
Proof.
  apply (C8_img_size_is_inferred_once (C := Example.collaborators)
           Example.image224 Example.image224 1 3 224 224
           [[1%Z; 3%Z; 100%Z; 50%Z]] (Example.model None None));
    reflexivity.
Defined.

(** ** The coordinate reprojector *)

Section Reprojection.

Import Linalg Recon.
Context {C : Collaborators}.
Local Open Scope R_scope.

Ltac run :=
  unfold state_of, result_of, log_of, bind, get, modify, ret, lift, raise, warning;
  simpl.

(** The array literals of [_decode] are the matrices the specification
    describes. *)
Lemma T_literal (tx ty : R) :
  M4 (V4 1 0 0 tx) (V4 0 1 0 ty) (V4 0 0 1 0) (V4 0 0 0 1) = T_spec tx ty.
Proof. reflexivity. Qed.

Lemma S_literal (sc : R) :
  M4 (V4 sc 0 0 0) (V4 0 sc 0 0) (V4 0 0 sc 0) (V4 0 0 0 1) = S_spec sc.
Proof. reflexivity. Qed.

(** What [_decode] returns when it runs to its end, in the shape of the
    code: [mat = backward @ forward @ pose] with numpy's left-to-right
    association. *)
Lemma _decode_returns self enc_dict v Rs sc tx ty t W H CPinv backward :
  decode_ready self enc_dict v Rs sc tx ty t W H CPinv backward ->
  let OP := create_ortho_matrix 224 224 in
  let VP := create_viewport_matrix 224 224 in
  let pose := matmul (S_spec sc) (T_spec tx ty) in
  let forward := matmul (matmul CPinv VP) OP in
  let mat := matmul (matmul backward forward) pose in
  _decode enc_dict self =
  (Some (mkOut (trim3 (rows_matmul (c_ones v) (transpose mat)))
               (matmul mat (mean Rs))), self, []).
Proof.
  intros [Hm Hc Ht Hcs Hs Hi Hb]. unfold _decode. run.
  rewrite Hm. run. rewrite Hc. run. rewrite Ht. run.
  rewrite Hcs, Ht, Hs. run. rewrite Hi. run. rewrite Hb. run.
  reflexivity.
Qed.

Lemma full_matrix_association (backward CPinv VP OP pose : mat4) :
  matmul (matmul backward (matmul (matmul CPinv VP) OP)) pose =
  full_matrix_spec backward (forward_spec CPinv VP OP) pose.
Proof.
  unfold full_matrix_spec, forward_spec. now rewrite !matmul_assoc.
Qed.


Lemma msum_entry (Rs : list mat4) (Z0 : mat4) (i j : idx4) :
  mget (fold_left madd Rs Z0) i j =
  mget Z0 i j + fold_right Rplus 0 (map (fun A => mget A i j) Rs).
Proof.
  revert Z0. induction Rs as [|A Rs IH]; intros Z0; simpl.
  - ring.
  - rewrite IH.
    replace (mget (madd Z0 A) i j) with (mget Z0 i j + mget A i j)
      by (destruct i, j; reflexivity).
    ring.
Qed.

Lemma mean_entry (Rs : list mat4) (i j : idx4) :
  mget (mean Rs) i j =
  fold_right Rplus 0 (map (fun A => mget A i j) Rs) / INR (List.length Rs).
Proof.
  unfold mean, msum.
  replace (mget (mscale (/ INR (List.length Rs)) (fold_left madd Rs mzero)) i j)
    with (/ INR (List.length Rs) * mget (fold_left madd Rs mzero) i j)
    by (destruct i, j; reflexivity).
  rewrite msum_entry.
  replace (mget mzero i j) with 0 by (destruct i, j; reflexivity).
  unfold Rdiv. ring.
Qed.




(** C7.  With the identity as crop transform (whose lift is the 4x4
    identity) and an original image of the crop size 224 x 224, backward
    composed with forward is exactly the 4x4 identity, so the matrix
    [_decode] applies reduces to the pose matrix. *)
Theorem C7_identity_reprojection
    self enc_dict v Rs sc tx ty CPinv backward :
  decode_ready self enc_dict v Rs sc tx ty eye3 224 224 CPinv backward ->
  crop_matrix_to_3d eye3 = eye4 ->
  let OP := create_ortho_matrix 224 224 in
  let VP := create_viewport_matrix 224 224 in
  matmul backward (matmul (matmul CPinv VP) OP) = eye4 /\
  _decode enc_dict self =
  (Some (mkOut (trim3 (rows_matmul (c_ones v) (transpose (pose_spec sc tx ty))))
               (matmul (pose_spec sc tx ty) (mean Rs))), self, []).
Proof.
  intros Hr Hlift OP VP.
  pose proof (ready_CPinv _ _ _ _ _ _ _ _ _ _ _ _ Hr) as Hi.
  pose proof (ready_backward _ _ _ _ _ _ _ _ _ _ _ _ Hr) as Hb.
  rewrite Hlift, inv_eye4 in Hi. injection Hi as <-.
  assert (E : matmul backward (matmul (matmul eye4 VP) OP) = eye4).
  { rewrite matmul_eye_l. apply inv_left, Hb. }
  split; [exact E|].
  rewrite (_decode_returns _ _ _ _ _ _ _ _ _ _ _ _ Hr). simpl.
  fold OP VP. rewrite E, matmul_eye_l. reflexivity.
Qed.

End Reprojection.

(** The concrete instance runs [_decode] to its end. *)
Lemma example_inverse (A N : Linalg.mat4) :
  Linalg.det4 A <> 0%R ->
  Linalg.mbuild (fun i j => (Linalg.cofactor A j i / Linalg.det4 A)%R) = N ->
  Linalg.inv A = Some N.
Proof.
  intros Hd <-. unfold Linalg.inv.
  destruct (Req_EM_T (Linalg.det4 A) 0); [contradiction|reflexivity].
Qed.

Ltac example_inv :=
  apply example_inverse;
  cbv [Linalg.matmul Linalg.mbuild Linalg.vbuild Linalg.sum4 Linalg.mget
       Linalg.vget Linalg.row Linalg.cofactor Linalg.sign Linalg.minor
       Linalg.others Linalg.det4 Linalg.eye3 Linalg.eye4
       Recon.crop_matrix_to_3d Recon.create_viewport_matrix
       Recon.create_ortho_matrix Example.collaborators Example.lift3
       Example.viewport Example.ortho Example.crop Example.crop_inverse
       Example.backward224];
  [lra | f_equal; f_equal; field].

Lemma example_ready (t : Linalg.mat3) (CPinv : Linalg.mat4) :
  Linalg.inv (Example.lift3 t) = Some CPinv ->
  Recon.decode_ready (C := Example.collaborators)
    (Example.model (Some [224%Z; 224%Z]) (Some t)) Example.enc_dict
    Example.vertices [Linalg.eye4; Linalg.eye4] 2 1 3 t 224 224
    CPinv Example.backward224.
Proof.
  intros Hi. split; try reflexivity; [exact Hi|]. example_inv.
Qed.

Lemma example_crop_inverse :
  Linalg.inv (Example.lift3 Example.crop) = Some Example.crop_inverse.
Proof. example_inv. Qed.

Lemma example_identity_inverse :
  Linalg.inv (Example.lift3 Linalg.eye3) = Some Linalg.eye4.
Proof. exact inv_eye4. Qed.



(** C7 on the concrete instance with the identity as crop transform. *)
Lemma C7_witness :
  Linalg.matmul Example.backward224
    (Linalg.matmul
       (Linalg.matmul Linalg.eye4 (Example.viewport 224 224))
       (Example.ortho 224 224))
  = Linalg.eye4.
Proof.
  exact (proj1
    (C7_identity_reprojection (C := Example.collaborators)
       _ _ _ _ _ _ _ _ _
       (example_ready Linalg.eye3 Linalg.eye4 example_identity_inverse)
       eq_refl)).
Defined.

(** ** The parameter decomposer *)

Section Decompose.

Import Linalg Recon.

Lemma clamp_in_range (n i : Z) : (0 <= i <= n)%Z -> Py.clamp n i = i.
Proof.
  intros H. unfold Py.clamp.
  destruct (Z.ltb_spec i 0); lia.
Qed.

(** A slice that cuts a list at two block boundaries returns the block. *)
Lemma slice_block {A : Type} (pre mid post : list A) :
  Py.slice (pre ++ mid ++ post)
    (Z.of_nat (List.length pre))
    (Z.of_nat (List.length pre) + Z.of_nat (List.length mid)) = mid.
Proof.
  unfold Py.slice. rewrite !length_app, !clamp_in_range by lia.
  replace (Z.to_nat (_ + _ - _)) with (List.length mid) by lia.
  rewrite Nat2Z.id, skipn_app, skipn_all, Nat.sub_diag. simpl.
  rewrite firstn_app, firstn_all, Nat.sub_diag. simpl. apply app_nil_r.
Qed.

Lemma rows_of_3_lossless (r : list R) :
  List.length r = 27%nat ->
  List.concat (rows_of_3 r) = r /\
  List.length (rows_of_3 r) = 9%nat /\
  Forall (fun row => List.length row = 3%nat) (rows_of_3 r).
Proof.
  intros H.
  do 27 (destruct r as [|? r]; [discriminate H|]).
  destruct r; [|discriminate H].
  simpl. repeat split. repeat constructor.
Qed.


(** Each declared range of a concatenated row is the block it was built
    from. *)
Lemma slices_of_row (b : blocks) :
  well_sized b ->
  Py.slice (concat_blocks b) 0 100 = b_shape b /\
  Py.slice (concat_blocks b) 100 150 = b_tex b /\
  Py.slice (concat_blocks b) 150 200 = b_exp b /\
  Py.slice (concat_blocks b) 200 206 = b_pose b /\
  Py.slice (concat_blocks b) 206 209 = b_cam b /\
  Py.slice (concat_blocks b) 209 236 = b_light b.
Proof.
  intros [Hs [Ht [He [Hp [Hc Hl]]]]]. unfold concat_blocks.
  repeat split.
  - pose proof (slice_block [] (b_shape b)
                  (b_tex b ++ b_exp b ++ b_pose b ++ b_cam b ++ b_light b)) as E.
    simpl in E. rewrite Hs in E. exact E.
  - pose proof (slice_block (b_shape b) (b_tex b)
                  (b_exp b ++ b_pose b ++ b_cam b ++ b_light b)) as E.
    rewrite Hs, Ht in E. exact E.
  - pose proof (slice_block (b_shape b ++ b_tex b) (b_exp b)
                  (b_pose b ++ b_cam b ++ b_light b)) as E.
    rewrite length_app, Hs, Ht, He, <- app_assoc in E. exact E.
  - pose proof (slice_block (b_shape b ++ b_tex b ++ b_exp b) (b_pose b)
                  (b_cam b ++ b_light b)) as E.
    rewrite !length_app, Hs, Ht, He, Hp, <- !app_assoc in E. exact E.
  - pose proof (slice_block (b_shape b ++ b_tex b ++ b_exp b ++ b_pose b)
                  (b_cam b) (b_light b)) as E.
    rewrite !length_app, Hs, Ht, He, Hp, Hc, <- !app_assoc in E. exact E.
  - pose proof (slice_block
                  (b_shape b ++ b_tex b ++ b_exp b ++ b_pose b ++ b_cam b)
                  (b_light b) []) as E.
    rewrite !length_app, Hs, Ht, He, Hp, Hc, Hl, <- !app_assoc, app_nil_r in E.
    exact E.
Qed.

Lemma slices_of_rows (rows : list blocks) (start stop : Z) (f : blocks -> list R) :
  Forall well_sized rows ->
  (forall b, well_sized b -> Py.slice (concat_blocks b) start stop = f b) ->
  map (fun r => Py.slice r start stop) (map concat_blocks rows) = map f rows.
Proof.
  intros Hw Hf. rewrite map_map. apply map_ext_in.
  intros b Hb. apply Hf. rewrite Forall_forall in Hw. auto.
Qed.

Lemma reshape_light (rows : list blocks) :
  Forall well_sized rows ->
  reshape_9_3 (map b_light rows) = Some (map (fun b => rows_of_3 (b_light b)) rows).
Proof.
  intros Hw. unfold reshape_9_3.
  replace (forallb _ (map b_light rows)) with true.
  - now rewrite map_map.
  - symmetry. apply forallb_forall. intros r Hr.
    apply in_map_iff in Hr. destruct Hr as [b [<- Hb]].
    rewrite Forall_forall in Hw. destruct (Hw b Hb) as [_ [_ [_ [_ [_ Hl]]]]].
    rewrite Hl. reflexivity.
Qed.

(** C6.  On a coefficient tensor whose rows concatenate blocks of the
    declared sizes in declaration order, [_decompose_params] returns the
    dict that maps each trimmed group name, in declaration order, to exactly
    its block, the light block reshaped to (batch, 9, 3) row-major, which
    flattens back to the 27 values; the column ranges it visits start at 0,
    each start at the end of the one before, and end at 236. *)
Theorem C6_decompose_returns_the_blocks (rows : list blocks) :
  Forall well_sized rows ->
  _decompose_params (map concat_blocks rows) default_param_dict =
  Some [("shape"%string, T2 (map b_shape rows));
        ("tex"%string, T2 (map b_tex rows));
        ("exp"%string, T2 (map b_exp rows));
        ("pose"%string, T2 (map b_pose rows));
        ("cam"%string, T2 (map b_cam rows));
        ("light"%string, T3 (map (fun b => rows_of_3 (b_light b)) rows))] /\
  Forall (fun b =>
            List.concat (rows_of_3 (b_light b)) = b_light b /\
            List.length (rows_of_3 (b_light b)) = 9%nat /\
            Forall (fun row => List.length row = 3%nat) (rows_of_3 (b_light b)))
         rows /\
  offsets default_param_dict (Py.keys default_param_dict) 0 =
  [("shape"%string, 0, 100); ("tex"%string, 100, 150); ("exp"%string, 150, 200);
   ("pose"%string, 200, 206); ("cam"%string, 206, 209);
   ("light"%string, 209, 236)]%Z.
Proof.
  intros Hw. split; [|split; [|reflexivity]].
  - unfold _decompose_params. cbn -[Py.slice reshape_9_3].
    rewrite (slices_of_rows rows 0 100 b_shape Hw)
      by (intros b Hb; apply (slices_of_row b Hb)).
    rewrite (slices_of_rows rows 100 150 b_tex Hw)
      by (intros b Hb; apply (slices_of_row b Hb)).
    rewrite (slices_of_rows rows 150 200 b_exp Hw)
      by (intros b Hb; apply (slices_of_row b Hb)).
    rewrite (slices_of_rows rows 200 206 b_pose Hw)
      by (intros b Hb; apply (slices_of_row b Hb)).
    rewrite (slices_of_rows rows 206 209 b_cam Hw)
      by (intros b Hb; apply (slices_of_row b Hb)).
    rewrite (slices_of_rows rows 209 236 b_light Hw)
      by (intros b Hb; apply (slices_of_row b Hb)).
    rewrite (reshape_light rows Hw). reflexivity.
  - rewrite Forall_forall in *. intros b Hb.
    apply rows_of_3_lossless. apply (Hw b Hb).
Qed.

End Decompose.

(** C6 on one concrete row: 206 zeros, the camera block [2, 1, 3], 27 zeros. *)
Lemma C6_witness :
  Recon._decompose_params (map Recon.concat_blocks [Example.row_blocks])
    Recon.default_param_dict =
  Some [("shape"%string, Recon.T2 [repeat 0%R 100]);
        ("tex"%string, Recon.T2 [repeat 0%R 50]);
        ("exp"%string, Recon.T2 [repeat 0%R 50]);
        ("pose"%string, Recon.T2 [repeat 0%R 6]);
        ("cam"%string, Recon.T2 [[2%R; 1%R; 3%R]]);
        ("light"%string, Recon.T3 [repeat (repeat 0%R 3) 9])].
Proof.
  refine (proj1 (C6_decompose_returns_the_blocks [Example.row_blocks] _)).
  repeat constructor.
Defined.

(** ** Whole-array operations, row by row *)

Section ArrFacts.

Import Linalg Arr.

Lemma mapM_rows {A B : Type} (f : A -> option B) (l : list A) :
  pointwise (List.length l) (mapM f l) (fun i => bind (nth_error l i) f).
Proof.
  induction l as [|a l [IHs IHt]]; split; simpl.
  - intros r E. injection E as <-. split; [reflexivity|]. intros i Hi. lia.
  - discriminate.
  - intros r E. destruct (f a) as [b|] eqn:Ea; [|discriminate].
    destruct (mapM f l) as [r'|]; [|discriminate]. injection E as <-.
    destruct (IHs r' eq_refl) as [Hl Hn]. split; [simpl; congruence|].
    intros [|i] Hi; simpl; [now rewrite Ea|]. apply Hn. lia.
  - intros Hg. pose proof (Hg 0%nat ltac:(lia)) as H0. simpl in H0.
    destruct (f a); [|contradiction].
    destruct (mapM f l) eqn:E; [discriminate|].
    exfalso. apply IHt; [|reflexivity].
    intros i Hi. apply (Hg (S i)). lia.
Qed.

Lemma some_rows {A : Type} (l : list A) :
  pointwise (List.length l) (Some l) (nth_error l).
Proof.
  split; [|discriminate].
  intros r E. injection E as <-. auto.
Qed.

Lemma zipM_rows {A B D : Type} (f : A -> B -> option D) (l1 : list A) (l2 : list B) :
  List.length l1 = List.length l2 ->
  pointwise (List.length l1) (zipM f l1 l2)
    (fun i => bind (nth_error l1 i) (fun a => bind (nth_error l2 i) (f a))).
Proof.
  revert l2. induction l1 as [|a l1 IH]; intros [|b l2] Hlen; try discriminate.
  - split; simpl; [|discriminate].
    intros r E. injection E as <-. split; [reflexivity|]. intros i Hi. lia.
  - injection Hlen as Hlen. destruct (IH l2 Hlen) as [IHs IHt].
    split; simpl.
    + intros r E. destruct (f a b) as [d|] eqn:Ed; [|discriminate].
      destruct (zipM f l1 l2) as [r'|]; [|discriminate]. injection E as <-.
      destruct (IHs r' eq_refl) as [Hl Hn]. split; [simpl; congruence|].
      intros [|i] Hi; simpl; [now rewrite Ed|]. apply Hn. lia.
    + intros Hg. pose proof (Hg 0%nat ltac:(lia)) as H0. simpl in H0.
      destruct (f a b); [|contradiction].
      destruct (zipM f l1 l2) eqn:E; [discriminate|].
      exfalso. apply IHt; [|reflexivity].
      intros i Hi. apply (Hg (S i)). lia.
Qed.

Lemma zipO_rows {A B D : Type} (f : A -> B -> option D) (n : nat)
    (o1 : option (list A)) (o2 : option (list B)) g1 g2 :
  pointwise n o1 g1 -> pointwise n o2 g2 ->
  pointwise n (zipO f o1 o2) (fun i => bind (g1 i) (fun a => bind (g2 i) (f a))).
Proof.
  intros [H1s H1t] [H2s H2t].
  destruct o1 as [l1|].
  - destruct (H1s l1 eq_refl) as [L1 N1].
    destruct o2 as [l2|].
    + destruct (H2s l2 eq_refl) as [L2 N2]. simpl.
      destruct (zipM_rows f l1 l2 ltac:(congruence)) as [Zs Zt].
      rewrite L1 in Zs, Zt. split.
      * intros r E. destruct (Zs r E) as [Hl Hn]. split; [exact Hl|].
        intros i Hi. rewrite (Hn i Hi), (N1 i Hi), (N2 i Hi). reflexivity.
      * intros Hg. apply Zt. intros i Hi.
        rewrite (N1 i Hi), (N2 i Hi). apply Hg, Hi.
    + split; [discriminate|]. intros Hg. exfalso. apply H2t; [|reflexivity].
      intros i Hi E. apply (Hg i Hi). rewrite E.
      destruct (g1 i); reflexivity.
  - split; [discriminate|]. intros Hg. exfalso. apply H1t; [|reflexivity].
    intros i Hi E. apply (Hg i Hi). rewrite E. reflexivity.
Qed.

Lemma mapO_rows {A B : Type} (f : A -> B) (n : nat) (o : option (list A)) g :
  pointwise n o g ->
  pointwise n (mapO f o) (fun i => option_map f (g i)).
Proof.
  intros [Hs Ht]. destruct o as [l|]; simpl.
  - destruct (Hs l eq_refl) as [L N]. split; [|discriminate].
    intros r E. injection E as <-. split; [now rewrite length_map|].
    intros i Hi. rewrite nth_error_map, (N i Hi). reflexivity.
  - split; [discriminate|]. intros Hg. exfalso. apply Ht; [|reflexivity].
    intros i Hi E. apply (Hg i Hi). now rewrite E.
Qed.

Lemma pointwise_ext {B : Type} (n : nat) (o : option (list B)) g g' :
  pointwise n o g -> (forall i, (i < n)%nat -> g i = g' i) -> pointwise n o g'.
Proof.
  intros [Hs Ht] E. split.
  - intros r Hr. destruct (Hs r Hr) as [L N]. split; [exact L|].
    intros i Hi. rewrite <- E by exact Hi. auto.
  - intros Hg. apply Ht. intros i Hi. rewrite E by exact Hi. auto.
Qed.

Lemma index_map {A B : Type} (g : A -> B) (l : list A) (i : Z) :
  Py.index (map g l) i = option_map g (Py.index l i).
Proof.
  unfold Py.index. rewrite length_map.
  destruct (0 <=? i)%Z; [apply nth_error_map|].
  destruct (_ <=? i)%Z; [apply nth_error_map|reflexivity].
Qed.

End ArrFacts.


(** ** Floats within their range *)

Section FloatFacts.

Import Float.
Context {fmt : Format}.
Local Open Scope R_scope.

Lemma huge_pos : 0 < huge.
Proof. pose proof huge_big. lra. Qed.

Lemma rnd_null (x : R) : x = 0 -> rnd x = Fin 0.
Proof.
  intros ->. unfold rnd. rewrite Rabs_R0.
  pose proof huge_pos. pose proof tiny_pos.
  destruct (Rlt_dec huge 0); [lra|].
  destruct (Rlt_dec 0 tiny); [reflexivity|lra].
Qed.

Lemma rnd_exact (x : R) : tiny <= Rabs x -> Rabs x <= huge -> rnd x = Fin x.
Proof.
  intros Ht Hh. unfold rnd.
  destruct (Rlt_dec huge (Rabs x)); [lra|].
  destruct (Rlt_dec (Rabs x) tiny); [lra|reflexivity].
Qed.

Lemma rnd_in_range (x : R) : in_range x -> rnd x = Fin x.
Proof.
  intros [->|[Ht Hh]]; [now apply rnd_null|now apply rnd_exact].
Qed.

Lemma rnd_pos (x : R) : tiny <= x -> x <= huge -> rnd x = Fin x.
Proof.
  intros Ht Hh. pose proof tiny_pos.
  apply rnd_exact; rewrite Rabs_pos_eq; lra.
Qed.

Lemma rnd_neg (x : R) : tiny <= - x -> - x <= huge -> rnd x = Fin x.
Proof.
  intros Ht Hh. pose proof tiny_pos.
  apply rnd_exact; rewrite Rabs_left; lra.
Qed.

Lemma rnd_above (x : R) : huge < x -> rnd x = PInf.
Proof.
  intros H. pose proof huge_pos. unfold rnd, inf.
  rewrite Rabs_pos_eq by lra.
  destruct (Rlt_dec huge x); [|lra].
  destruct (Rlt_dec 0 x); [reflexivity|lra].
Qed.

Lemma rnd_below (x : R) : x < - huge -> rnd x = NInf.
Proof.
  intros H. pose proof huge_pos. unfold rnd, inf.
  rewrite Rabs_left by lra.
  destruct (Rlt_dec huge (- x)); [|lra].
  destruct (Rlt_dec 0 x); [lra|reflexivity].
Qed.

(** What a rounded result can be. *)
Lemma rnd_cases (x : R) :
  rnd x = Fin 0 /\ Rabs x < tiny \/
  rnd x = Fin x /\ tiny <= Rabs x <= huge \/
  rnd x = inf x /\ huge < Rabs x.
Proof.
  unfold rnd.
  destruct (Rlt_dec huge (Rabs x)); [right; right; now split|].
  destruct (Rlt_dec (Rabs x) tiny); [left; now split|].
  right; left. split; [reflexivity|lra].
Qed.

Lemma fadd_exact (x y : R) : in_range (x + y) -> fadd (Fin x) (Fin y) = Fin (x + y).
Proof. apply rnd_in_range. Qed.

Lemma fmul_exact (x y : R) : in_range (x * y) -> fmul (Fin x) (Fin y) = Fin (x * y).
Proof. apply rnd_in_range. Qed.

Lemma fdiv_exact (x y : R) :
  y <> 0 -> in_range (x / y) -> fdiv (Fin x) (Fin y) = Fin (x / y).
Proof.
  intros Hy Hr. unfold fdiv.
  destruct (Req_EM_T y 0); [contradiction|now apply rnd_in_range].
Qed.

Lemma fsqrt_exact (x : R) : 0 <= x -> fsqrt (Fin x) = Fin (sqrt x).
Proof.
  intros Hx. unfold fsqrt. destruct (Rlt_dec x 0); [lra|reflexivity].
Qed.

Lemma fdiv_zero_zero : fdiv (Fin 0) (Fin 0) = NaN.
Proof.
  unfold fdiv.
  destruct (Req_EM_T 0 0) as [_|H]; [reflexivity|exfalso; apply H; reflexivity].
Qed.

Lemma fadd_nan_r (a : fval) : fadd a NaN = NaN.
Proof. destruct a; reflexivity. Qed.

Lemma fmul_nan_r (a : fval) : fmul a NaN = NaN.
Proof. destruct a; reflexivity. Qed.

End FloatFacts.


(** ** The mesh upsampler *)

Section UpsampleFacts.

Import Linalg Float Arr Upsample.
Context {fmt : Format}.
Local Open Scope R_scope.

Lemma take_rows {A : Type} (src : list A) (idx : list Z) (n : nat) :
  List.length idx = n ->
  pointwise n (take src idx) (fun i => bind (nth_error idx i) (Py.index src)).
Proof. intros <-. apply mapM_rows. Qed.

Lemma col_rows {A B : Type} (g : A -> B) (k : A * A * A -> A)
    (a : list (A * A * A)) (n : nat) :
  List.length a = n ->
  pointwise n (Some (map g (col k a)))
    (fun i => option_map (fun t => g (k t)) (nth_error a i)).
Proof.
  intros <-. eapply pointwise_ext.
  - rewrite <- (length_map k a), <- (length_map g (map k a)). apply some_rows.
  - intros i _. unfold col. rewrite !nth_error_map.
    destruct (nth_error a i); reflexivity.
Qed.

(** The barycentric combination, row by row. *)
Lemma interpolate_rows (src : list vec3) faces b (n : nat) :
  List.length faces = n -> List.length b = n ->
  pointwise n (interpolate src faces b)
    (fun i => bind (nth_error faces i) (fun tri =>
              bind (nth_error b i) (fun w => barycentric src tri w))).
Proof.
  intros Hf Hb. unfold interpolate, zip_with.
  eapply pointwise_ext.
  - apply zipO_rows; [apply zipO_rows|]; apply zipO_rows;
      first [apply take_rows; unfold col; rewrite length_map; exact Hf
            |apply col_rows; exact Hb].
  - intros i Hi. cbv beta. unfold col. rewrite !nth_error_map.
    destruct (nth_error faces i) as [tri|]; simpl; [|reflexivity].
    rewrite !index_map.
    destruct (nth_error b i) as [w|]; simpl.
    + unfold barycentric.
      destruct (Py.index src (c0 tri)) as [[x0 y0 z0]|]; simpl; [|reflexivity].
      destruct (Py.index src (c1 tri)) as [[x1 y1 z1]|]; simpl; [|reflexivity].
      destruct (Py.index src (c2 tri)) as [[x2 y2 z2]|]; reflexivity.
    + destruct (Py.index src (c0 tri)); reflexivity.
Qed.

(** The displacement lookup, row by row. *)
Lemma displacement_rows (disp_map : list (list R)) (t : dense_template) (n : nat) :
  List.length (valid_pixel_ids t) = n ->
  pointwise n
    (zipO (index2 disp_map) (take (y_coords t) (valid_pixel_ids t))
                            (take (x_coords t) (valid_pixel_ids t)))
    (fun i => bind (nth_error (valid_pixel_ids t) i) (displacement disp_map t)).
Proof.
  intros Hn. eapply pointwise_ext.
  - apply zipO_rows; apply take_rows; exact Hn.
  - intros i Hi. cbv beta.
    destruct (nth_error (valid_pixel_ids t) i) as [pid|]; reflexivity.
Qed.

(** The vectorised function computes the per-pixel algorithm. *)
Lemma upsample_rows (v normals : list vec3) (disp_map : list (list R))
    (t : dense_template) :
  List.length (valid_pixel_3d_faces t) = List.length (valid_pixel_ids t) ->
  List.length (valid_pixel_b_coords t) = List.length (valid_pixel_ids t) ->
  pointwise (List.length (valid_pixel_ids t))
    (upsample_mesh v normals disp_map t)
    (dense_vertex v normals disp_map t).
Proof.
  intros Hf Hb. unfold upsample_mesh, zip_with.
  eapply pointwise_ext.
  - apply zipO_rows; [apply interpolate_rows; assumption|].
    apply zipO_rows; [apply mapO_rows, displacement_rows; reflexivity|].
    apply zipO_rows; [apply interpolate_rows; assumption|].
    apply mapO_rows. apply interpolate_rows; assumption.
  - intros i Hi. cbv beta. unfold dense_vertex.
    destruct (nth_error (valid_pixel_3d_faces t) i) as [tri|]; simpl; [|reflexivity].
    destruct (nth_error (valid_pixel_b_coords t) i) as [w|]; simpl; [|reflexivity].
    destruct (barycentric v tri w) as [[px py pz]|]; simpl.
    + destruct (nth_error (valid_pixel_ids t) i) as [pid|]; simpl; [|reflexivity].
      destruct (displacement disp_map t pid) as [d|]; simpl.
      * destruct (barycentric normals tri w) as [[nx ny nz]|]; reflexivity.
      * destruct (barycentric normals tri w); reflexivity.
    + destruct (nth_error (valid_pixel_ids t) i); reflexivity.
Qed.

(** Within the range the three scalar formulas are the real ones. *)
Lemma weighted_exact (a0 a1 a2 : R) (w : R * R * R) :
  weighted_in_range a0 a1 a2 w ->
  weighted a0 a1 a2 w = Fin (plain_weighted a0 a1 a2 w).
Proof.
  intros [H0 [H1 [H2 [H01 H012]]]]. unfold weighted, plain_weighted.
  rewrite (fmul_exact _ _ H0), (fmul_exact _ _ H1), (fmul_exact _ _ H2).
  rewrite (fadd_exact _ _ H01). apply (fadd_exact _ _ H012).
Qed.

Lemma length3_exact (nx ny nz : R) :
  length_in_range nx ny nz ->
  length3 (Fin nx) (Fin ny) (Fin nz) = Fin (plain_length nx ny nz).
Proof.
  intros [H0 [H1 [H2 [H01 H012]]]]. unfold length3, plain_length.
  rewrite (fmul_exact _ _ H0), (fmul_exact _ _ H1), (fmul_exact _ _ H2).
  rewrite (fadd_exact _ _ H01), (fadd_exact _ _ H012).
  apply fsqrt_exact. nra.
Qed.

Lemma displaced_exact (p n len d : R) :
  displaced_in_range p n len d ->
  displaced (Fin p) (Fin n) (Fin len) d = Fin (plain_displaced p n len d).
Proof.
  intros [Hl [Hq [Hm Hs]]]. unfold displaced, plain_displaced.
  rewrite (fdiv_exact _ _ Hl Hq), (fmul_exact _ _ Hm).
  apply (fadd_exact _ _ Hs).
Qed.


(** A zero normal: the length is zero and every coordinate is NaN. *)
Lemma displaced_zero_normal (p : fval) (d : R) :
  displaced p (Fin 0) (length3 (Fin 0) (Fin 0) (Fin 0)) d = NaN.
Proof.
  assert (L : length3 (Fin 0) (Fin 0) (Fin 0) = Fin 0).
  { rewrite length3_exact.
    - unfold plain_length. f_equal.
      replace (0 * 0 + 0 * 0 + 0 * 0) with 0 by lra. apply sqrt_0.
    - unfold length_in_range. repeat split; left; lra. }
  unfold displaced. now rewrite L, fdiv_zero_zero, fmul_nan_r, fadd_nan_r.
Qed.

(** Numbers of moderate size are within the range of every format. *)
Lemma moderate_in_range (x : R) :
  x = 0 \/ / 1000000000000 <= x <= 1000000000000 \/
  / 1000000000000 <= - x <= 1000000000000 ->
  in_range x.
Proof.
  pose proof tiny_small. pose proof huge_big.
  intros [->|[Hx|Hx]]; [now left| |]; right.
  - rewrite Rabs_pos_eq by lra. lra.
  - rewrite Rabs_left by lra. lra.
Qed.


Lemma dense_vertex_at (v normals : list vec3) (disp_map : list (list R))
    (t : dense_template) (i : nat) tri w pid (px py pz nx ny nz : fval) (d : R) :
  nth_error (valid_pixel_3d_faces t) i = Some tri ->
  nth_error (valid_pixel_b_coords t) i = Some w ->
  nth_error (valid_pixel_ids t) i = Some pid ->
  barycentric v tri w = Some (FV3 px py pz) ->
  barycentric normals tri w = Some (FV3 nx ny nz) ->
  displacement disp_map t pid = Some d ->
  dense_vertex v normals disp_map t i =
  Some (FV3 (displaced px nx (length3 nx ny nz) d)
            (displaced py ny (length3 nx ny nz) d)
            (displaced pz nz (length3 nx ny nz) d)).
Proof.
  intros Ht Hw Hp Hb Hn Hd. unfold dense_vertex.
  rewrite Ht, Hw, Hp. simpl bind. rewrite Hb, Hn. simpl bind. now rewrite Hd.
Qed.

(** The one pixel of the example templates. *)
Lemma example_pixel (normals : list vec3) (t : dense_template) (row : fvec3) :
  List.length (valid_pixel_ids t) = 1%nat ->
  List.length (valid_pixel_3d_faces t) = 1%nat ->
  List.length (valid_pixel_b_coords t) = 1%nat ->
  dense_vertex UpsampleExample.triangle normals UpsampleExample.disp_map t 0
  = Some row ->
  upsample_mesh UpsampleExample.triangle normals UpsampleExample.disp_map t
  = Some [row].
Proof.
  intros Li Lf Lb E0.
  destruct (upsample_rows UpsampleExample.triangle normals
              UpsampleExample.disp_map t) as [Hs Ht]; [congruence|congruence|].
  rewrite Li in Hs, Ht.
  destruct (upsample_mesh _ _ _ _) as [r|] eqn:E.
  - destruct (Hs r eq_refl) as [L N].
    specialize (N 0%nat ltac:(lia)). rewrite E0 in N.
    destruct r as [|a [|b r]]; try discriminate L.
    simpl in N. now injection N as ->.
  - exfalso. apply Ht; [|reflexivity].
    intros [|i] Hi; [rewrite E0; discriminate|lia].
Qed.

Lemma weighted_zero (w : R * R * R) : weighted 0 0 0 w = Fin 0.
Proof.
  rewrite weighted_exact.
  - unfold plain_weighted. f_equal. lra.
  - unfold weighted_in_range. repeat split; left; lra.
Qed.

Lemma opposed_pixel :
  dense_vertex UpsampleExample.triangle UpsampleExample.opposed_normals
    UpsampleExample.disp_map UpsampleExample.midpoint 0
  = Some (FV3 NaN NaN NaN).
Proof.
  assert (Hz : weighted 1 (-1) 1 (1 / 2, 1 / 2, 0) = Fin 0).
  { rewrite weighted_exact.
    - unfold plain_weighted, c0, c1, c2. cbn [fst snd]. f_equal. lra.
    - unfold weighted_in_range, c0, c1, c2. cbn [fst snd].
      repeat split; apply moderate_in_range; lra. }
  rewrite (dense_vertex_at _ _ _ _ 0 (0, 1, 2)%Z (1 / 2, 1 / 2, 0) 0%Z
             (weighted 0 1 0 (1 / 2, 1 / 2, 0)) (weighted 0 0 1 (1 / 2, 1 / 2, 0))
             (weighted 0 0 0 (1 / 2, 1 / 2, 0)) (weighted 0 0 0 (1 / 2, 1 / 2, 0))
             (weighted 0 0 0 (1 / 2, 1 / 2, 0)) (weighted 1 (-1) 1 (1 / 2, 1 / 2, 0))
             1) by reflexivity.
  rewrite Hz, !weighted_zero. now rewrite !displaced_zero_normal.
Qed.


Lemma flat_pixel :
  dense_vertex UpsampleExample.triangle UpsampleExample.flat_normals
    UpsampleExample.disp_map UpsampleExample.centroid 0
  = Some (FV3 (Fin (1 / 4)) (Fin (1 / 2)) (Fin 1)).
Proof.
  assert (Hx : weighted 0 1 0 (1 / 4, 1 / 4, 1 / 2) = Fin (1 / 4)).
  { rewrite weighted_exact.
    - unfold plain_weighted, c0, c1, c2. cbn [fst snd]. f_equal. lra.
    - unfold weighted_in_range, c0, c1, c2. cbn [fst snd].
      repeat split; apply moderate_in_range; lra. }
  assert (Hy : weighted 0 0 1 (1 / 4, 1 / 4, 1 / 2) = Fin (1 / 2)).
  { rewrite weighted_exact.
    - unfold plain_weighted, c0, c1, c2. cbn [fst snd]. f_equal. lra.
    - unfold weighted_in_range, c0, c1, c2. cbn [fst snd].
      repeat split; apply moderate_in_range; lra. }
  assert (Hn : weighted 1 1 1 (1 / 4, 1 / 4, 1 / 2) = Fin 1).
  { rewrite weighted_exact.
    - unfold plain_weighted, c0, c1, c2. cbn [fst snd]. f_equal. lra.
    - unfold weighted_in_range, c0, c1, c2. cbn [fst snd].
      repeat split; apply moderate_in_range; lra. }
  assert (Hl : length3 (Fin 0) (Fin 0) (Fin 1) = Fin 1).
  { rewrite length3_exact.
    - unfold plain_length. f_equal.
      replace (0 * 0 + 0 * 0 + 1 * 1) with 1 by lra. apply sqrt_1.
    - unfold length_in_range. repeat split; apply moderate_in_range; lra. }
  rewrite (dense_vertex_at _ _ _ _ 0 (0, 1, 2)%Z (1 / 4, 1 / 4, 1 / 2) 0%Z
             (weighted 0 1 0 (1 / 4, 1 / 4, 1 / 2))
             (weighted 0 0 1 (1 / 4, 1 / 4, 1 / 2))
             (weighted 0 0 0 (1 / 4, 1 / 4, 1 / 2))
             (weighted 0 0 0 (1 / 4, 1 / 4, 1 / 2))
             (weighted 0 0 0 (1 / 4, 1 / 4, 1 / 2))
             (weighted 1 1 1 (1 / 4, 1 / 4, 1 / 2)) 1) by reflexivity.
  rewrite Hx, Hy, Hn, !weighted_zero, Hl.
  rewrite (displaced_exact (1 / 4) 0 1 1), (displaced_exact (1 / 2) 0 1 1),
    (displaced_exact 0 1 1 1).
  - unfold plain_displaced. do 2 f_equal; f_equal; lra.
  - unfold displaced_in_range.
    split; [lra|]. repeat split; apply moderate_in_range; lra.
  - unfold displaced_in_range.
    split; [lra|]. repeat split; apply moderate_in_range; lra.
  - unfold displaced_in_range.
    split; [lra|]. repeat split; apply moderate_in_range; lra.
Qed.

End UpsampleFacts.

(** C3, on the code: with two opposed unit normals weighted one half each,
    the interpolated normal is the zero vector, the unguarded division by
    its norm is 0 / 0, and the returned vertex is NaN in every coordinate. *)
Theorem C3_zero_normal_yields_nan :
  Upsample.upsample_mesh UpsampleExample.triangle UpsampleExample.opposed_normals
    UpsampleExample.disp_map UpsampleExample.midpoint
  = Some [Float.FV3 Float.NaN Float.NaN Float.NaN].
Proof.
  apply example_pixel; try reflexivity. apply opposed_pixel.
Qed.


Lemma upsample_example_well_formed :
  Upsample.well_formed UpsampleExample.triangle UpsampleExample.flat_normals
    UpsampleExample.disp_map UpsampleExample.centroid.
Proof.
  split; [reflexivity|split; [reflexivity|]].
  intros [|i] Hi; [|simpl in Hi; lia]. rewrite flat_pixel. discriminate.
Qed.


(** ** Vertex normals *)

Section NormalsFacts.

Import Linalg Float Arr Normals.
Context {fmt : Format}.
Local Open Scope R_scope.

Lemma eps_positive : 0 < eps.
Proof. unfold eps. lra. Qed.

(** *** The normalisation of one row *)

Lemma square_covers (x : R) : covers (fmul (Fin x) (Fin x)) (above_square x).
Proof.
  pose proof tiny_pos. unfold fmul.
  assert (Hx : 0 <= x * x) by nra.
  destruct (rnd_cases (x * x)) as [[-> Hc]|[[-> Hc]|[-> Hc]]];
    rewrite Rabs_pos_eq in Hc by exact Hx.
  - right. exists 0. pose proof huge_pos. unfold above_square.
    split; [reflexivity|]. split; [lra|]. split; [now left|].
    split; [lra|]. now right.
  - right. exists (x * x). unfold above_square.
    split; [reflexivity|]. split; [lra|]. split; [right; lra|].
    split; [lra|]. left. lra.
  - left. unfold inf. pose proof huge_pos.
    destruct (Rlt_dec 0 (x * x)); [reflexivity|lra].
Qed.

Lemma add_covers (f g : fval) (P Q : R -> Prop) :
  (forall s s', P s -> s <= s' -> P s') ->
  (forall s s', Q s -> s <= s' -> Q s') ->
  covers f P -> covers g Q -> covers (fadd f g) (fun s => P s /\ Q s).
Proof.
  intros MP MQ [->|[s [-> [Hs [Rs [Us Ps]]]]]] [->|[r [-> [Hr [Rr [Ur Qr]]]]]];
    try (left; reflexivity).
  pose proof tiny_pos. pose proof huge_pos. unfold fadd.
  destruct (rnd_cases (s + r)) as [[-> Hc]|[[-> Hc]|[-> Hc]]];
    rewrite Rabs_pos_eq in Hc by lra.
  - assert (s = 0) by (destruct Rs; lra). assert (r = 0) by (destruct Rr; lra).
    subst. right. exists 0.
    split; [reflexivity|]. split; [lra|]. split; [now left|].
    split; [lra|]. now split.
  - right. exists (s + r).
    split; [reflexivity|]. split; [lra|]. split; [right; lra|].
    split; [lra|]. split.
    + apply (MP s); [exact Ps|lra].
    + apply (MQ r); [exact Qr|lra].
  - left. unfold inf. destruct (Rlt_dec 0 (s + r)); [reflexivity|lra].
Qed.

Lemma above_square_mono (x s s' : R) :
  above_square x s -> s <= s' -> above_square x s'.
Proof. unfold above_square. intros [H|H] L; [left; lra|now right]. Qed.

(** The clamped norm of a finite row: the positive infinity, or a number
    that is at least [eps] and at least the magnitude of every entry. *)
Lemma clamped_norm (x y z : R) :
  clamp_min (norm (FV3 (Fin x) (Fin y) (Fin z))) eps = PInf \/
  exists m, clamp_min (norm (FV3 (Fin x) (Fin y) (Fin z))) eps = Fin m /\
            eps <= m /\ - m <= x <= m /\ - m <= y <= m /\ - m <= z <= m.
Proof.
  pose proof eps_positive as He. pose proof tiny_small as Ht.
  pose proof tiny_pos as Hp.
  assert (C : covers (fadd (fadd (fmul (Fin x) (Fin x)) (fmul (Fin y) (Fin y)))
                           (fmul (Fin z) (Fin z)))
                     (fun s => (above_square x s /\ above_square y s) /\
                               above_square z s)).
  { apply add_covers.
    - intros s s' [A B] L. split; eapply above_square_mono; eauto.
    - apply above_square_mono.
    - apply add_covers; try apply above_square_mono; apply square_covers.
    - apply square_covers. }
  unfold norm. destruct C as [->|[s [-> [Hs [_ [_ [[Ax Ay] Az]]]]]]].
  - left. reflexivity.
  - right. unfold fsqrt. destruct (Rlt_dec s 0); [lra|].
    cbn [clamp_min]. exists (Rmax (sqrt s) eps).
    set (m := Rmax (sqrt s) eps).
    assert (Hm : eps <= m) by apply Rmax_r.
    assert (Hq : sqrt s <= m) by apply Rmax_l.
    assert (H0 : 0 <= sqrt s) by apply sqrt_pos.
    assert (Hmm : s <= m * m).
    { rewrite <- (sqrt_sqrt s Hs) at 1. nra. }
    assert (B : forall a, above_square a s -> - m <= a <= m).
    { intros a [A|A]; unfold eps in *; split;
        match goal with
        | |- ?l <= ?r => destruct (Rle_dec l r); [assumption|exfalso; nra]
        end. }
    split; [reflexivity|]. split; [exact Hm|]. auto.
Qed.

(** A number divided by one of at least its magnitude. *)
Lemma quotient_bounded (x m : R) :
  0 < m -> - m <= x <= m ->
  exists u, fdiv (Fin x) (Fin m) = Fin u /\ - 1 <= u <= 1.
Proof.
  intros Hm Hx. pose proof huge_big. unfold fdiv.
  destruct (Req_EM_T m 0); [lra|].
  assert (Hi : 0 < / m) by now apply Rinv_0_lt_compat.
  assert (H1 : m * / m = 1) by (apply Rinv_r; lra).
  assert (Hq : - 1 <= x / m <= 1) by (unfold Rdiv; split; nra).
  destruct (rnd_cases (x / m)) as [[-> _]|[[-> _]|[_ Hc]]].
  - exists 0. split; [reflexivity|lra].
  - exists (x / m). split; [reflexivity|exact Hq].
  - exfalso. assert (Rabs (x / m) <= 1) by (apply Rabs_le; exact Hq). lra.
Qed.

(** The clamp keeps the division of a finite row finite, and no entry of
    the result exceeds one in magnitude. *)
Lemma normalize_row_bounded (x y z : R) :
  exists u v w,
    normalize_row eps (FV3 (Fin x) (Fin y) (Fin z)) = FV3 (Fin u) (Fin v) (Fin w) /\
    - 1 <= u <= 1 /\ - 1 <= v <= 1 /\ - 1 <= w <= 1.
Proof.
  pose proof eps_positive as He. unfold normalize_row.
  destruct (clamped_norm x y z) as [->|[m [-> [Hm [Bx [By Bz]]]]]].
  - exists 0, 0, 0. cbn [vdiv fdiv]. split; [reflexivity|]. lra.
  - destruct (quotient_bounded x m) as [u [Eu Hu]]; [lra|exact Bx|].
    destruct (quotient_bounded y m) as [v [Ev Hv]]; [lra|exact By|].
    destruct (quotient_bounded z m) as [w [Ew Hw]]; [lra|exact Bz|].
    exists u, v, w. cbn [vdiv]. rewrite Eu, Ev, Ew. auto.
Qed.

Lemma normalize_row_finite (a : fvec3) :
  finite3 a -> finite3 (normalize_row eps a).
Proof.
  destruct a as [[x| | |] [y| | |] [z| | |]]; intros H; simpl in H;
    try tauto.
  destruct (normalize_row_bounded x y z) as [u [v [w [-> _]]]].
  simpl. auto.
Qed.

Lemma normalize_row_zero :
  normalize_row eps (FV3 (Fin 0) (Fin 0) (Fin 0)) = FV3 (Fin 0) (Fin 0) (Fin 0).
Proof.
  pose proof eps_positive as He. unfold normalize_row.
  destruct (clamped_norm 0 0 0) as [->|[m [-> [Hm _]]]].
  - reflexivity.
  - cbn [vdiv]. unfold fdiv. destruct (Req_EM_T m 0); [lra|].
    rewrite rnd_null; [reflexivity|]. unfold Rdiv. apply Rmult_0_l.
Qed.

(** *** Rows that are not finite *)

Lemma square_nonnegative (a : fval) : nonnegative (fmul a a).
Proof.
  destruct a as [x| | |]; [|now left|now left|right; now left].
  destruct (square_covers x) as [->|[s [-> [Hs _]]]]; [now left|].
  right; right. now exists s.
Qed.

Lemma square_unbounded (a : fval) : ~ finite a -> unbounded (fmul a a).
Proof.
  destruct a as [x| | |]; simpl; intros H;
    [tauto|now left|now left|now right].
Qed.

Lemma add_nonnegative (f g : fval) :
  nonnegative f -> nonnegative g -> nonnegative (fadd f g).
Proof.
  pose proof huge_pos as Hh.
  intros [->|[->|[s [-> Hs]]]] [->|[->|[r [-> Hr]]]];
    try (left; reflexivity); try (right; left; reflexivity).
  unfold fadd.
  destruct (rnd_cases (s + r)) as [[-> _]|[[-> _]|[-> Hc]]].
  - right; right. exists 0. split; [reflexivity|lra].
  - right; right. exists (s + r). split; [reflexivity|lra].
  - left. rewrite Rabs_pos_eq in Hc by lra.
    unfold inf. destruct (Rlt_dec 0 (s + r)); [reflexivity|lra].
Qed.

Lemma add_unbounded_l (f g : fval) :
  unbounded f -> nonnegative g -> unbounded (fadd f g).
Proof.
  intros [->| ->] [->|[->|[r [-> _]]]];
    first [left; reflexivity | right; reflexivity].
Qed.

Lemma add_unbounded_r (f g : fval) :
  nonnegative f -> unbounded g -> unbounded (fadd f g).
Proof.
  intros [->|[->|[r [-> _]]]] [->| ->];
    first [left; reflexivity | right; reflexivity].
Qed.

(** The clamped norm of a row with an infinity or NaN in it. *)
Lemma clamped_norm_unbounded (a : fvec3) :
  ~ finite3 a -> unbounded (clamp_min (norm a) eps).
Proof.
  destruct a as [x y z]. intros H.
  assert (U : unbounded (fadd (fadd (fmul x x) (fmul y y)) (fmul z z))).
  { pose proof (square_nonnegative x) as Nx.
    pose proof (square_nonnegative y) as Ny.
    pose proof (square_nonnegative z) as Nz.
    destruct x as [x| | |];
      [|apply add_unbounded_l; [apply add_unbounded_l|]; trivial;
        apply square_unbounded; simpl; tauto ..].
    destruct y as [y| | |];
      [|apply add_unbounded_l; [apply add_unbounded_r|]; trivial;
        apply square_unbounded; simpl; tauto ..].
    apply add_unbounded_r; [now apply add_nonnegative|].
    apply square_unbounded. simpl in H. tauto. }
  unfold norm. destruct U as [->| ->]; [left|right]; reflexivity.
Qed.

Lemma div_unbounded (e d : fval) :
  ~ finite e -> unbounded d -> fdiv e d = NaN.
Proof.
  intros He [->| ->]; destruct e; simpl in He; try tauto; reflexivity.
Qed.

(** An infinity or NaN in a row leaves NaN in the normalised row: the norm
    is then infinite or NaN itself, and the clamp keeps it. *)
Lemma normalize_row_not_finite (a : fvec3) :
  ~ finite3 a -> ~ finite3 (normalize_row eps a).
Proof.
  intros H F. pose proof (clamped_norm_unbounded a H) as U.
  unfold normalize_row in F. destruct a as [x y z]. cbn [vdiv] in F.
  set (d := clamp_min (norm (FV3 x y z)) eps) in *. clearbody d.
  destruct F as [Fx [Fy Fz]].
  assert (C : ~ finite x \/ ~ finite y \/ ~ finite z).
  { destruct x, y, z; simpl in *; tauto. }
  destruct C as [C|[C|C]].
  - now rewrite (div_unbounded x d C U) in Fx.
  - now rewrite (div_unbounded y d C U) in Fy.
  - now rewrite (div_unbounded z d C U) in Fz.
Qed.

Lemma normalize_row_finite_iff (a : fvec3) :
  finite3 (normalize_row eps a) <-> finite3 a.
Proof.
  split; [|apply normalize_row_finite].
  intros H.
  destruct a as [[x| | |] [y| | |] [z| | |]]; simpl; auto;
    exfalso; revert H; apply normalize_row_not_finite; simpl; tauto.
Qed.

Lemma concat_chunks {A : Type} (bs k : nat) (l : list A) :
  List.length l = (bs * k)%nat -> List.concat (chunks bs k l) = l.
Proof.
  revert l. induction bs as [|bs IH]; intros l H; simpl.
  - destruct l; [reflexivity|discriminate].
  - rewrite IH by (rewrite length_skipn; simpl in H; lia).
    apply firstn_skipn.
Qed.

(** *** Shapes *)

Lemma Forall_firstn_skipn {A : Type} (P : A -> Prop) (k : nat) (l : list A) :
  Forall P l -> Forall P (firstn k l) /\ Forall P (skipn k l).
Proof.
  intros H. rewrite <- (firstn_skipn k l) in H. now apply Forall_app in H.
Qed.

Lemma chunks_Forall {A : Type} (P : A -> Prop) (bs k : nat) (l : list A) :
  Forall P l -> Forall (Forall P) (chunks bs k l).
Proof.
  revert l. induction bs as [|bs IH]; intros l H; simpl; constructor.
  - now apply Forall_firstn_skipn.
  - apply IH. now apply Forall_firstn_skipn.
Qed.

Lemma chunks_shape {A : Type} (bs k : nat) (l : list A) :
  List.length l = (bs * k)%nat ->
  List.length (chunks bs k l) = bs /\
  Forall (fun b => List.length b = k) (chunks bs k l).
Proof.
  revert l. induction bs as [|bs IH]; intros l H; simpl.
  - split; [reflexivity|constructor].
  - destruct (IH (skipn k l)) as [L F].
    { rewrite length_skipn. simpl in H. lia. }
    split; [now rewrite L|]. constructor; [|exact F].
    rewrite length_firstn. simpl in H. lia.
Qed.

Lemma take_in_range {A : Type} (l : list A) (idx : list Z) :
  Forall (fun i => (0 <= i < Z.of_nat (List.length l))%Z) idx ->
  exists r, take l idx = Some r /\ List.length r = List.length idx.
Proof.
  intros H. destruct (take_rows l idx _ eq_refl) as [Hs Ht].
  destruct (take l idx) as [r|] eqn:E.
  - exists r. split; [reflexivity|]. apply (Hs r eq_refl).
  - exfalso. apply Ht; [|reflexivity].
    intros i Hi. destruct (nth_error idx i) as [z|] eqn:Ez.
    + simpl. rewrite Forall_forall in H.
      pose proof (H z (nth_error_In _ _ Ez)) as Hz.
      unfold Py.index. destruct (Z.leb_spec 0 z); [|lia].
      apply nth_error_Some. lia.
    + apply nth_error_None in Ez. lia.
Qed.

Lemma zip_with_defined {A B D : Type} (f : A -> B -> D) (l1 : list A) (l2 : list B) :
  List.length l1 = List.length l2 ->
  exists r, zip_with f (Some l1) (Some l2) = Some r /\
            List.length r = List.length l1.
Proof.
  intros H. unfold zip_with, zipO.
  destruct (zipM_rows (fun a b => Some (f a b)) l1 l2 H) as [Hs Ht].
  destruct (zipM _ l1 l2) as [r|] eqn:E.
  - exists r. split; [reflexivity|]. apply (Hs r eq_refl).
  - exfalso. apply Ht; [|reflexivity].
    intros i Hi.
    destruct (nth_error l1 i) eqn:E1; [|apply nth_error_None in E1; lia].
    destruct (nth_error l2 i) eqn:E2; [|apply nth_error_None in E2; lia].
    discriminate.
Qed.

Lemma torch_cross_defined (A B : list fvec3) :
  List.length A = List.length B ->
  exists r, torch_cross A B = Some r /\ List.length r = List.length A.
Proof.
  intros H. unfold torch_cross.
  destruct A as [|a0 [|a1 [|a2 [|a3 A]]]], B as [|b0 [|b1 [|b2 [|b3 B]]]];
    try discriminate H;
    first [exact (zip_with_defined cross3 _ _ H)
          |eexists; split; reflexivity].
Qed.

Lemma add_at_length (l : list fvec3) (i : nat) (a : fvec3) :
  List.length (add_at l i a) = List.length l.
Proof.
  revert i. induction l as [|x l IH]; intros [|i]; simpl; auto.
Qed.

Lemma index_add_in_range (normals : list fvec3) (idx : list Z) (src : list fvec3) :
  List.length idx = List.length src ->
  Forall (fun i => (0 <= i < Z.of_nat (List.length normals))%Z) idx ->
  exists r, index_add normals idx src = Some r /\
            List.length r = List.length normals.
Proof.
  revert normals src. induction idx as [|i idx IH]; intros normals [|a src] L H;
    try discriminate.
  - exists normals. split; reflexivity.
  - inversion H as [|? ? Hi Hrest]; subst. simpl.
    replace ((0 <=? i)%Z && (i <? Z.of_nat (List.length normals))%Z) with true
      by (symmetry; apply andb_true_iff; split;
          [apply Z.leb_le|apply Z.ltb_lt]; lia).
    destruct (IH (add_at normals (Z.to_nat i) a) src) as [r [E Lr]].
    + simpl in L. lia.
    + now rewrite add_at_length.
    + exists r. split; [exact E|]. now rewrite Lr, add_at_length.
Qed.

Lemma index_add_length (normals : list fvec3) (idx : list Z) (src r : list fvec3) :
  index_add normals idx src = Some r -> List.length r = List.length normals.
Proof.
  revert normals src. induction idx as [|i idx IH]; intros normals [|a src] E;
    simpl in E; try discriminate.
  - now injection E as <-.
  - destruct (_ && _); [|discriminate].
    rewrite (IH _ _ E). apply add_at_length.
Qed.

Lemma concat_rectangular {A : Type} (k : nat) (l : list (list A)) :
  Forall (fun b => List.length b = k) l ->
  List.length (List.concat l) = (List.length l * k)%nat.
Proof.
  induction 1 as [|b l Hb _ IH]; simpl; [reflexivity|].
  rewrite length_app, IH, Hb. reflexivity.
Qed.

(** What [accumulate] returns: the three index arrays, the three arrays of
    cross products, and the three passes of [index_add_]. *)
Lemma accumulate_passes (v : vertices) (f : list (list face)) (sums : list fvec3) :
  accumulate v f = Some sums ->
  let k := (List.length f * nv v)%nat in
  let fs := expand_faces (nv v) 0 f in
  exists c1 c2 c0 n1 n2,
    index_add (repeat (FV3 (Fin 0) (Fin 0) (Fin 0)) k) (map f1 fs) c1 = Some n1 /\
    index_add n1 (map f2 fs) c2 = Some n2 /\
    index_add n2 (map f0 fs) c0 = Some sums /\
    List.length sums = k.
Proof.
  unfold accumulate.
  destruct (reshape_rows _ _) as [flat|]; [|discriminate].
  destruct (take flat _) as [vf0|]; [|discriminate].
  destruct (take flat _) as [vf1|]; [|discriminate].
  destruct (take flat _) as [vf2|]; [|discriminate].
  destruct (crossO _ _) as [c1|]; [|discriminate].
  destruct (crossO _ _) as [c2|]; [|discriminate].
  destruct (crossO _ _) as [c0|]; [|discriminate].
  destruct (index_add _ _ c1) as [n1|] eqn:E1; [|discriminate].
  destruct (index_add _ _ c2) as [n2|] eqn:E2; [|discriminate].
  intros E0. exists c1, c2, c0, n1, n2.
  repeat split; trivial.
  rewrite (index_add_length _ _ _ _ E0), (index_add_length _ _ _ _ E2),
    (index_add_length _ _ _ _ E1).
  apply repeat_length.
Qed.

Lemma accumulate_returns (v : vertices) (f : list (list face)) :
  rectangular v ->
  List.length (batches v) = List.length f ->
  faces_in_range v f ->
  exists sums, accumulate v f = Some sums /\
               List.length sums = (List.length f * nv v)%nat.
Proof.
  intros Hrect Hbs Hrange. unfold accumulate.
  set (k := (List.length f * nv v)%nat) in *.
  set (fs := expand_faces (nv v) 0 f) in *.
  assert (Hflat : List.length (map lift3 (List.concat (batches v))) = k).
  { rewrite length_map. unfold k. rewrite <- Hbs.
    apply concat_rectangular, Hrect. }
  unfold reshape_rows. rewrite Hflat, Nat.eqb_refl.
  set (flat := map lift3 (List.concat (batches v))) in *.
  unfold faces_in_range in Hrange. fold fs k in Hrange.
  assert (R0 : Forall (fun i => (0 <= i < Z.of_nat k)%Z) (map f0 fs)).
  { apply Forall_forall. intros i Hi. apply in_map_iff in Hi.
    destruct Hi as [t [<- Ht]]. rewrite Forall_forall in Hrange.
    apply (Hrange t Ht). }
  assert (R1 : Forall (fun i => (0 <= i < Z.of_nat k)%Z) (map f1 fs)).
  { apply Forall_forall. intros i Hi. apply in_map_iff in Hi.
    destruct Hi as [t [<- Ht]]. rewrite Forall_forall in Hrange.
    apply (Hrange t Ht). }
  assert (R2 : Forall (fun i => (0 <= i < Z.of_nat k)%Z) (map f2 fs)).
  { apply Forall_forall. intros i Hi. apply in_map_iff in Hi.
    destruct Hi as [t [<- Ht]]. rewrite Forall_forall in Hrange.
    apply (Hrange t Ht). }
  destruct (take_in_range flat (map f0 fs)) as [vf0 [-> L0]];
    [now rewrite Hflat|].
  destruct (take_in_range flat (map f1 fs)) as [vf1 [-> L1]];
    [now rewrite Hflat|].
  destruct (take_in_range flat (map f2 fs)) as [vf2 [-> L2]];
    [now rewrite Hflat|].
  rewrite length_map in L0, L1, L2.
  destruct (zip_with_defined fsub3 vf2 vf1) as [a1 [-> La1]]; [congruence|].
  destruct (zip_with_defined fsub3 vf0 vf1) as [b1 [-> Lb1]]; [congruence|].
  destruct (zip_with_defined fsub3 vf0 vf2) as [a2 [-> La2]]; [congruence|].
  destruct (zip_with_defined fsub3 vf1 vf2) as [b2 [-> Lb2]]; [congruence|].
  destruct (zip_with_defined fsub3 vf1 vf0) as [a0 [-> La0]]; [congruence|].
  destruct (zip_with_defined fsub3 vf2 vf0) as [b0 [-> Lb0]]; [congruence|].
  cbn [crossO].
  destruct (torch_cross_defined a1 b1) as [c1 [-> Lc1]]; [congruence|].
  destruct (torch_cross_defined a2 b2) as [c2 [-> Lc2]]; [congruence|].
  destruct (torch_cross_defined a0 b0) as [c0 [-> Lc0]]; [congruence|].
  destruct (index_add_in_range (repeat (FV3 (Fin 0) (Fin 0) (Fin 0)) k)
              (map f1 fs) c1) as [n1 [-> Ln1]].
  { rewrite length_map. congruence. }
  { now rewrite repeat_length. }
  rewrite repeat_length in Ln1.
  destruct (index_add_in_range n1 (map f2 fs) c2) as [n2 [-> Ln2]].
  { rewrite length_map. congruence. }
  { now rewrite Ln1. }
  destruct (index_add_in_range n2 (map f0 fs) c0) as [n0 [-> Ln0]].
  { rewrite length_map. congruence. }
  { rewrite Ln2, Ln1. exact R0. }
  exists n0. split; [reflexivity|]. congruence.
Qed.

Lemma vertex_normals_returns (v : vertices) (f : list (list face)) :
  rectangular v ->
  List.length (batches v) = List.length f ->
  faces_in_range v f ->
  exists n, vertex_normals v f = Some n /\
            List.length n = List.length f /\
            Forall (fun b => List.length b = nv v) n.
Proof.
  intros Hrect Hbs Hrange.
  destruct (accumulate_returns v f Hrect Hbs Hrange) as [sums [E L]].
  unfold vertex_normals. rewrite E.
  eexists. split; [reflexivity|].
  apply chunks_shape. now rewrite length_map.
Qed.

(** *** Magnitudes *)

Lemma bounded_weaken (K K' : R) (f : fval) :
  K <= K' -> bounded K f -> bounded K' f.
Proof. intros L [e [-> H]]. exists e. split; [reflexivity|lra]. Qed.

Lemma bounded3_weaken (K K' : R) (a : fvec3) :
  K <= K' -> bounded3 K a -> bounded3 K' a.
Proof.
  intros L. destruct a as [x y z]. intros [Hx [Hy Hz]].
  repeat split; eapply bounded_weaken; eauto.
Qed.

Lemma bounded3_finite (K : R) (a : fvec3) : bounded3 K a -> finite3 a.
Proof.
  destruct a as [x y z]. intros [[? [-> _]] [[? [-> _]] [? [-> _]]]].
  simpl. auto.
Qed.

Lemma rnd_bounded (x K : R) : Rabs x <= K -> K <= huge -> bounded K (rnd x).
Proof.
  intros Hx HK. pose proof (Rabs_pos x).
  destruct (rnd_cases x) as [[-> _]|[[-> _]|[_ Hc]]].
  - exists 0. split; [reflexivity|]. rewrite Rabs_R0. lra.
  - exists x. now split.
  - exfalso. lra.
Qed.

Lemma fadd_bounded (K1 K2 : R) (a b : fval) :
  bounded K1 a -> bounded K2 b -> K1 + K2 <= huge ->
  bounded (K1 + K2) (fadd a b).
Proof.
  intros [x [-> Hx]] [y [-> Hy]] HK. unfold fadd.
  apply rnd_bounded; [|exact HK].
  pose proof (Rabs_triang x y). lra.
Qed.

Lemma fsub_bounded (K1 K2 : R) (a b : fval) :
  bounded K1 a -> bounded K2 b -> K1 + K2 <= huge ->
  bounded (K1 + K2) (fsub a b).
Proof.
  intros Ha [y [-> Hy]] HK. unfold fsub. apply fadd_bounded; trivial.
  exists (- y). split; [reflexivity|]. now rewrite Rabs_Ropp.
Qed.

Lemma fmul_bounded (K1 K2 : R) (a b : fval) :
  bounded K1 a -> bounded K2 b -> K1 * K2 <= huge ->
  bounded (K1 * K2) (fmul a b).
Proof.
  intros [x [-> Hx]] [y [-> Hy]] HK. unfold fmul.
  apply rnd_bounded; [|exact HK].
  rewrite Rabs_mult. pose proof (Rabs_pos x). pose proof (Rabs_pos y).
  apply Rmult_le_compat; lra.
Qed.

Lemma fsub3_bounded (K : R) (a b : fvec3) :
  bounded3 K a -> bounded3 K b -> K + K <= huge -> bounded3 (K + K) (fsub3 a b).
Proof.
  destruct a as [a0 a1 a2], b as [b0 b1 b2].
  intros [A0 [A1 A2]] [B0 [B1 B2]] HK.
  repeat split; now apply fsub_bounded.
Qed.

Lemma fadd3_bounded (K1 K2 : R) (a b : fvec3) :
  bounded3 K1 a -> bounded3 K2 b -> K1 + K2 <= huge ->
  bounded3 (K1 + K2) (fadd3 a b).
Proof.
  destruct a as [a0 a1 a2], b as [b0 b1 b2].
  intros [A0 [A1 A2]] [B0 [B1 B2]] HK.
  repeat split; now apply fadd_bounded.
Qed.

Lemma fmul3_bounded (K : R) (a b : fvec3) :
  bounded3 K a -> bounded3 K b -> K * K <= huge -> bounded3 (K * K) (fmul3 a b).
Proof.
  destruct a as [a0 a1 a2], b as [b0 b1 b2].
  intros [A0 [A1 A2]] [B0 [B1 B2]] HK.
  repeat split; now apply fmul_bounded.
Qed.

Lemma cross3_bounded (K : R) (a b : fvec3) :
  bounded3 K a -> bounded3 K b -> K * K + K * K <= huge ->
  bounded3 (K * K + K * K) (cross3 a b).
Proof.
  destruct a as [a0 a1 a2], b as [b0 b1 b2].
  intros [A0 [A1 A2]] [B0 [B1 B2]] HK.
  assert (HK' : K * K <= huge) by nra.
  repeat split; apply fsub_bounded; trivial; now apply fmul_bounded.
Qed.

Lemma zipM_Forall {A B D : Type} (g : A -> B -> D)
    (P : A -> Prop) (Q : B -> Prop) (S : D -> Prop) (l1 : list A) (l2 : list B)
    (r : list D) :
  (forall a b, P a -> Q b -> S (g a b)) ->
  zipM (fun a b => Some (g a b)) l1 l2 = Some r ->
  Forall P l1 -> Forall Q l2 -> Forall S r.
Proof.
  intros Hg. revert l2 r. induction l1 as [|a l1 IH]; intros [|b l2] r E H1 H2;
    simpl in E; try discriminate.
  - injection E as <-. constructor.
  - destruct (zipM _ l1 l2) as [r'|] eqn:Er; [|discriminate].
    injection E as <-. inversion H1; inversion H2; subst.
    constructor; [now apply Hg|]. now apply (IH l2).
Qed.

Lemma torch_cross_bounded (K : R) (A B r : list fvec3) :
  K * K + K * K <= huge ->
  torch_cross A B = Some r ->
  Forall (bounded3 K) A -> Forall (bounded3 K) B ->
  Forall (bounded3 (K * K + K * K)) r.
Proof.
  intros HK E HA HB.
  assert (HK' : K * K <= huge) by nra.
  assert (Z : forall A' B' r',
            zipM (fun a b => Some (cross3 a b)) A' B' = Some r' ->
            Forall (bounded3 K) A' -> Forall (bounded3 K) B' ->
            Forall (bounded3 (K * K + K * K)) r').
  { intros A' B' r'. apply zipM_Forall.
    intros a b Ha Hb. now apply cross3_bounded. }
  unfold torch_cross in E.
  destruct A as [|a0 [|a1 [|a2 [|a3 A]]]];
    try (now apply (Z _ _ _ E)).
  destruct B as [|b0 [|b1 [|b2 [|b3 B]]]];
    try (now apply (Z _ _ _ E)).
  injection E as <-.
  inversion HA as [|? ? Ha0 HA1]; inversion HA1 as [|? ? Ha1 HA2];
    inversion HA2 as [|? ? Ha2 _]; subst.
  inversion HB as [|? ? Hb0 HB1]; inversion HB1 as [|? ? Hb1 HB2];
    inversion HB2 as [|? ? Hb2 _]; subst.
  repeat constructor; apply fsub3_bounded; trivial; now apply fmul3_bounded.
Qed.

Lemma take_Forall {A : Type} (P : A -> Prop) (l : list A) (idx : list Z)
    (r : list A) :
  take l idx = Some r -> Forall P l -> Forall P r.
Proof.
  intros E H. rewrite Forall_forall in H. unfold take in E.
  revert r E. induction idx as [|i idx IH]; intros r E; simpl in E.
  - injection E as <-. constructor.
  - destruct (Py.index l i) as [x|] eqn:Ex; [|discriminate].
    destruct (mapM _ idx) as [r'|]; [|discriminate].
    injection E as <-. constructor; [|now apply IH].
    apply H. unfold Py.index in Ex.
    destruct (0 <=? i)%Z; [now apply nth_error_In in Ex|].
    destruct (_ <=? i)%Z; [now apply nth_error_In in Ex|discriminate].
Qed.

Lemma add_at_bounded (K c : R) (l : list fvec3) (i : nat) (a : fvec3) :
  0 <= c -> K + c <= huge ->
  Forall (bounded3 K) l -> bounded3 c a ->
  Forall (bounded3 (K + c)) (add_at l i a).
Proof.
  intros Hc HK Hl Ha. revert i.
  induction Hl as [|x l Hx Hl IH]; intros i; simpl; [constructor|].
  destruct i as [|i].
  - constructor; [now apply fadd3_bounded|].
    eapply Forall_impl; [|exact Hl]. intros y. apply bounded3_weaken. lra.
  - constructor; [|apply IH]. eapply bounded3_weaken; [|exact Hx]. lra.
Qed.

Lemma index_add_bounded (c : R) (idx : list Z) :
  0 <= c ->
  forall (K : R) (normals src r : list fvec3),
  K + INR (List.length idx) * c <= huge ->
  Forall (bounded3 K) normals -> Forall (bounded3 c) src ->
  index_add normals idx src = Some r ->
  Forall (bounded3 (K + INR (List.length idx) * c)) r.
Proof.
  intros Hc. induction idx as [|i idx IH]; intros K normals [|a src] r HK Hn Hs E;
    simpl in E; try discriminate.
  - injection E as <-. simpl. eapply Forall_impl; [|exact Hn].
    intros y. apply bounded3_weaken. lra.
  - destruct (_ && _); [|discriminate].
    inversion Hs as [|? ? Ha Hs']; subst.
    change (List.length (i :: idx)) with (S (List.length idx)) in *.
    rewrite S_INR in *.
    pose proof (pos_INR (List.length idx)) as Hp.
    replace (K + (INR (List.length idx) + 1) * c)
      with ((K + c) + INR (List.length idx) * c) by ring.
    apply (IH (K + c) (add_at normals (Z.to_nat i) a) src r); trivial.
    + lra.
    + apply add_at_bounded; trivial. nra.
Qed.

Lemma expand_faces_length (k b : nat) (f : list (list face)) :
  List.length (expand_faces k b f) = List.length (List.concat f).
Proof.
  revert b. induction f as [|fb f IH]; intros b; simpl; [reflexivity|].
  now rewrite !length_app, length_map, IH.
Qed.

(** With coordinates of magnitude at most [B] and [F] faces, no accumulated
    entry exceeds 24 F B^2; as long as this is a float, every accumulated
    row is finite. *)
Lemma accumulate_bounded (B : R) (v : vertices) (f : list (list face))
    (sums : list fvec3) :
  0 <= B -> within B v ->
  24 * INR (List.length (List.concat f)) * (B * B) <= huge ->
  accumulate v f = Some sums ->
  Forall finite3 sums.
Proof.
  intros HB Hw Hh E. pose proof huge_big as Hg.
  rewrite <- (expand_faces_length (nv v) 0 f) in Hh.
  unfold accumulate in E.
  set (fs := expand_faces (nv v) 0 f) in *.
  set (k := (List.length f * nv v)%nat) in *.
  destruct (reshape_rows _ _) as [flat|] eqn:Er; [|discriminate].
  assert (Hflat : Forall (bounded3 B) flat).
  { unfold reshape_rows in Er. destruct (Nat.eqb _ _); [|discriminate].
    injection Er as <-. apply Forall_forall. intros a Ha.
    apply in_map_iff in Ha. destruct Ha as [[x y z] [<- Hp]].
    apply in_concat in Hp. destruct Hp as [b [Hb Hp]].
    unfold within in Hw. rewrite Forall_forall in Hw.
    pose proof (Hw b Hb) as Hbb. rewrite Forall_forall in Hbb.
    destruct (Hbb _ Hp) as [Hx [Hy Hz]].
    repeat split; eexists; (split; [reflexivity|assumption]). }
  destruct (take flat (map f0 fs)) as [vf0|] eqn:T0; [|discriminate].
  destruct (take flat (map f1 fs)) as [vf1|] eqn:T1; [|discriminate].
  destruct (take flat (map f2 fs)) as [vf2|] eqn:T2; [|discriminate].
  pose proof (take_Forall _ _ _ _ T0 Hflat) as H0.
  pose proof (take_Forall _ _ _ _ T1 Hflat) as H1.
  pose proof (take_Forall _ _ _ _ T2 Hflat) as H2.
  assert (Hcase : fs = [] \/ 1 <= INR (List.length fs)).
  { clearbody fs. destruct fs; [now left|right].
    simpl List.length. rewrite S_INR.
    pose proof (pos_INR (List.length fs)). lra. }
  clearbody fs k. destruct Hcase as [->|HF].
  - (* no face: nothing is added *)
    simpl in T0, T1, T2. injection T0 as <-. injection T1 as <-.
    injection T2 as <-. simpl in E. injection E as <-.
    apply Forall_forall. intros a Ha. apply repeat_spec in Ha. subst a.
    simpl. auto.
  - 
    set (F := INR (List.length fs)) in *.
    assert (HBB : 0 <= B * B) by nra.
    assert (HD : (B + B) * (B + B) + (B + B) * (B + B) <= huge) by nra.
    assert (HD1 : B + B <= huge) by nra.
    set (C := (B + B) * (B + B) + (B + B) * (B + B)) in *.
    assert (HC : 0 <= C) by (unfold C; nra).
    assert (S : forall a b r, zip_with fsub3 (Some a) (Some b) = Some r ->
                Forall (bounded3 B) a -> Forall (bounded3 B) b ->
                Forall (bounded3 (B + B)) r).
    { intros a b r. unfold zip_with, zipO. apply zipM_Forall.
      intros x y Hx Hy. now apply fsub3_bounded. }
    assert (X : forall oa ob r, crossO oa ob = Some r ->
                (forall a, oa = Some a -> Forall (bounded3 (B + B)) a) ->
                (forall b, ob = Some b -> Forall (bounded3 (B + B)) b) ->
                Forall (bounded3 C) r).
    { intros [a|] [b|] r Ec Ha Hb; simpl in Ec; try discriminate.
      apply (torch_cross_bounded (B + B) a b r HD Ec); auto. }
    destruct (crossO _ _) as [c1|] eqn:E1; [|discriminate].
    destruct (crossO (zip_with fsub3 (Some vf0) (Some vf2)) _) as [c2|] eqn:E2;
      [|discriminate].
    destruct (crossO (zip_with fsub3 (Some vf1) (Some vf0)) _) as [c0|] eqn:E0;
      [|discriminate].
    assert (B1 : Forall (bounded3 C) c1).
    { apply (X _ _ _ E1); intros a Ha; apply (S _ _ _ Ha); assumption. }
    assert (B2 : Forall (bounded3 C) c2).
    { apply (X _ _ _ E2); intros a Ha; apply (S _ _ _ Ha); assumption. }
    assert (B0 : Forall (bounded3 C) c0).
    { apply (X _ _ _ E0); intros a Ha; apply (S _ _ _ Ha); assumption. }
    destruct (index_add _ (map f1 fs) c1) as [n1|] eqn:A1; [|discriminate].
    destruct (index_add n1 (map f2 fs) c2) as [n2|] eqn:A2; [|discriminate].
    assert (Z0 : Forall (bounded3 0) (repeat (FV3 (Fin 0) (Fin 0) (Fin 0)) k)).
    { apply Forall_forall. intros a Ha. apply repeat_spec in Ha. subst a.
      repeat split; exists 0; (split; [reflexivity|rewrite Rabs_R0; lra]). }
    assert (HFC : 0 + F * C + F * C + F * C <= huge) by (unfold C; nra).
    assert (P : 0 <= F * C) by nra.
    pose proof (index_add_bounded C (map f1 fs) HC 0
                  (repeat (FV3 (Fin 0) (Fin 0) (Fin 0)) k) c1 n1) as I1.
    rewrite length_map in I1. fold F in I1.
    specialize (I1 ltac:(lra) Z0 B1 A1).
    pose proof (index_add_bounded C (map f2 fs) HC (0 + F * C) n1 c2 n2) as I2.
    rewrite length_map in I2. fold F in I2.
    specialize (I2 ltac:(lra) I1 B2 A2).
    pose proof (index_add_bounded C (map f0 fs) HC (0 + F * C + F * C) n2 c0
                  sums) as I0.
    rewrite length_map in I0. fold F in I0.
    specialize (I0 ltac:(lra) I2 B0 E).
    eapply Forall_impl; [|exact I0]. intros a. apply bounded3_finite.
Qed.

(** *** A triangle whose cross products overflow *)

Lemma fmul_zero_l (y : R) : fmul (Fin 0) (Fin y) = Fin 0.
Proof. apply rnd_null. apply Rmult_0_l. Qed.

Lemma fmul_zero_r (x : R) : fmul (Fin x) (Fin 0) = Fin 0.
Proof. apply rnd_null. apply Rmult_0_r. Qed.

Lemma fsub_zero_r (x : R) : in_range x -> fsub (Fin x) (Fin 0) = Fin x.
Proof.
  intros H. unfold fsub, fopp, fadd.
  replace (x + - 0) with x by lra. now apply rnd_in_range.
Qed.

Lemma in_range_opp (x : R) : in_range x -> in_range (- x).
Proof.
  intros [->|H]; [left; lra|right]. now rewrite Rabs_Ropp.
Qed.

Lemma fsub_zero_l (x : R) : in_range x -> fsub (Fin 0) (Fin x) = Fin (- x).
Proof.
  intros H. unfold fsub, fopp, fadd.
  replace (0 + - x) with (- x) by lra. apply rnd_in_range.
  now apply in_range_opp.
Qed.

Lemma fadd_zero_l (x : R) : in_range x -> fadd (Fin 0) (Fin x) = Fin x.
Proof.
  intros H. unfold fadd. replace (0 + x) with x by lra. now apply rnd_in_range.
Qed.

(** The triangle (0,0,0), (B,0,0), (0,B,0) for a float [B] whose square is
    beyond the range: each of the three cross products is (0, 0, +inf), and
    the normalisation of that row is (0, 0, NaN). *)
Lemma overflowing_triangle (B : R) :
  tiny <= B -> B <= huge -> huge < B * B ->
  vertex_normals (mkVertices 3 [[V3 0 0 0; V3 B 0 0; V3 0 B 0]]) [[(0, 1, 2)%Z]]
  = Some [[FV3 (Fin 0) (Fin 0) NaN; FV3 (Fin 0) (Fin 0) NaN;
           FV3 (Fin 0) (Fin 0) NaN]].
Proof.
  intros Ht Hh Ho. pose proof tiny_pos as Hp.
  assert (R0 : in_range 0) by now left.
  assert (RB : in_range B) by (right; rewrite Rabs_pos_eq; lra).
  assert (Pos : fmul (Fin B) (Fin B) = PInf) by now apply rnd_above.
  assert (Neg1 : fmul (Fin B) (Fin (- B)) = NInf) by (apply rnd_below; nra).
  assert (Neg2 : fmul (Fin (- B)) (Fin B) = NInf) by (apply rnd_below; nra).
  assert (Row : forall c,
            c = FV3 (Fin 0) (Fin 0) PInf ->
            fadd3 (FV3 (Fin 0) (Fin 0) (Fin 0)) c = FV3 (Fin 0) (Fin 0) PInf).
  { intros c ->. unfold fadd3. now rewrite (fadd_zero_l 0 R0). }
  assert (C0 : cross3 (fsub3 (lift3 (V3 B 0 0)) (lift3 (V3 0 0 0)))
                      (fsub3 (lift3 (V3 0 B 0)) (lift3 (V3 0 0 0)))
               = FV3 (Fin 0) (Fin 0) PInf).
  { unfold fsub3, lift3, cross3.
    rewrite !(fsub_zero_r 0 R0), !(fsub_zero_r B RB).
    rewrite ?fmul_zero_l, ?fmul_zero_r, Pos, !(fsub_zero_r 0 R0).
    reflexivity. }
  assert (C1 : cross3 (fsub3 (lift3 (V3 0 B 0)) (lift3 (V3 B 0 0)))
                      (fsub3 (lift3 (V3 0 0 0)) (lift3 (V3 B 0 0)))
               = FV3 (Fin 0) (Fin 0) PInf).
  { unfold fsub3, lift3, cross3.
    rewrite !(fsub_zero_r 0 R0), !(fsub_zero_r B RB), !(fsub_zero_l B RB).
    rewrite ?fmul_zero_l, ?fmul_zero_r, Neg1, !(fsub_zero_r 0 R0).
    reflexivity. }
  assert (C2 : cross3 (fsub3 (lift3 (V3 0 0 0)) (lift3 (V3 0 B 0)))
                      (fsub3 (lift3 (V3 B 0 0)) (lift3 (V3 0 B 0)))
               = FV3 (Fin 0) (Fin 0) PInf).
  { unfold fsub3, lift3, cross3.
    rewrite !(fsub_zero_r 0 R0), !(fsub_zero_r B RB), !(fsub_zero_l B RB).
    rewrite ?fmul_zero_l, ?fmul_zero_r, Neg2, !(fsub_zero_r 0 R0).
    reflexivity. }
  assert (N : normalize_row eps (FV3 (Fin 0) (Fin 0) PInf)
              = FV3 (Fin 0) (Fin 0) NaN).
  { unfold normalize_row, norm. rewrite fmul_zero_l, (fadd_zero_l 0 R0).
    reflexivity. }
  assert (A : accumulate (mkVertices 3 [[V3 0 0 0; V3 B 0 0; V3 0 B 0]])
                [[(0, 1, 2)%Z]]
              = Some [fadd3 (FV3 (Fin 0) (Fin 0) (Fin 0))
                        (cross3 (fsub3 (lift3 (V3 B 0 0)) (lift3 (V3 0 0 0)))
                                (fsub3 (lift3 (V3 0 B 0)) (lift3 (V3 0 0 0))));
                      fadd3 (FV3 (Fin 0) (Fin 0) (Fin 0))
                        (cross3 (fsub3 (lift3 (V3 0 B 0)) (lift3 (V3 B 0 0)))
                                (fsub3 (lift3 (V3 0 0 0)) (lift3 (V3 B 0 0))));
                      fadd3 (FV3 (Fin 0) (Fin 0) (Fin 0))
                        (cross3 (fsub3 (lift3 (V3 0 0 0)) (lift3 (V3 0 B 0)))
                                (fsub3 (lift3 (V3 B 0 0)) (lift3 (V3 0 B 0))))])
    by reflexivity.
  unfold vertex_normals. rewrite A, C0, C1, C2.
  rewrite !(Row _ eq_refl). cbn [map List.length nv chunks firstn skipn].
  now rewrite N.
Qed.

(** The returned normals are finite exactly when the accumulated rows
    are. *)
Lemma vertex_normals_finite_iff (v : vertices) (f : list (list face))
    (sums : list fvec3) (n : list (list fvec3)) :
  accumulate v f = Some sums -> vertex_normals v f = Some n ->
  (Forall (Forall finite3) n <-> Forall finite3 sums).
Proof.
  intros Ea En.
  destruct (accumulate_passes v f sums Ea) as [_ [_ [_ [_ [_ [_ [_ [_ L]]]]]]]].
  unfold vertex_normals in En. rewrite Ea in En. injection En as <-.
  split.
  - intros H. apply Forall_concat in H.
    rewrite concat_chunks in H by (now rewrite length_map).
    rewrite Forall_map in H. revert H. apply Forall_impl.
    intros a. apply normalize_row_finite_iff.
  - intros H. apply chunks_Forall. rewrite Forall_map. revert H.
    apply Forall_impl. intros a. apply normalize_row_finite_iff.
Qed.

(** C10, in the form that holds of the code.  The clamp does what the claim
    credits it with: a row that accumulated finite numbers is divided by a
    norm of at least 1e-6 and stays finite, and a row that accumulated
    nothing, or whose contributions cancel, becomes the zero vector.  It
    does no more: a row that holds an infinity or NaN keeps a NaN.  So the
    normals [vertex_normals] returns are finite exactly when the accumulated
    rows are, and these are finite whenever 24 F B^2 is a float, [B]
    bounding the coordinates in magnitude and [F] being the number of faces.
    On a rectangular vertex tensor with as many batches as the faces tensor
    and face numbers within range the function returns, with one normal per
    vertex. *)
Theorem C10_vertex_normals_are_finite (v : vertices) (f : list (list face)) :
  (forall a, finite3 (normalize_row eps a) <-> finite3 a) /\
  normalize_row eps (FV3 (Fin 0) (Fin 0) (Fin 0)) = FV3 (Fin 0) (Fin 0) (Fin 0) /\
  (forall sums n,
     accumulate v f = Some sums -> vertex_normals v f = Some n ->
     (Forall (Forall finite3) n <-> Forall finite3 sums)) /\
  (forall B n,
     0 <= B -> within B v ->
     24 * INR (List.length (List.concat f)) * (B * B) <= huge ->
     vertex_normals v f = Some n -> Forall (Forall finite3) n) /\
  (rectangular v -> List.length (batches v) = List.length f ->
   faces_in_range v f ->
   exists n, vertex_normals v f = Some n /\
             List.length n = List.length f /\
             Forall (fun b => List.length b = nv v) n).
Proof.
  split; [apply normalize_row_finite_iff|]. split; [apply normalize_row_zero|].
  split; [apply vertex_normals_finite_iff|].
  split; [|apply vertex_normals_returns].
  intros B n HB Hw Hh En.
  destruct (accumulate v f) as [sums|] eqn:Ea.
  - apply (vertex_normals_finite_iff v f sums n Ea En).
    now apply (accumulate_bounded B v f).
  - unfold vertex_normals in En. rewrite Ea in En. discriminate.
Qed.

End NormalsFacts.

(** C10, the claim as stated fails: a triangle with edges of length 1e20
    has cross products of magnitude 1e40, beyond the binary32 range; the
    accumulated rows hold an infinity, and the normalisation returns NaN,
    the clamp notwithstanding. *)
Lemma C10_overflow_yields_nan :
  Normals.vertex_normals NormalsExample.large_mesh NormalsExample.faces
  = Some [[Float.FV3 (Float.Fin 0) (Float.Fin 0) Float.NaN;
           Float.FV3 (Float.Fin 0) (Float.Fin 0) Float.NaN;
           Float.FV3 (Float.Fin 0) (Float.Fin 0) Float.NaN]].
Proof.
  apply (overflowing_triangle (fmt := Float.binary32) 100000000000000000000);
    simpl; lra.
Qed.

(** The concrete mesh is within range. *)
Lemma example_mesh_in_range :
  Normals.faces_in_range NormalsExample.mesh NormalsExample.faces.
Proof.
  unfold Normals.faces_in_range. simpl.
  constructor; [|constructor]. cbv [Normals.f0 Normals.f1 Normals.f2 fst snd]. lia.
Qed.

Lemma example_mesh_within : Normals.within 5 NormalsExample.mesh.
Proof.
  unfold Normals.within. simpl.
  repeat constructor; rewrite Rabs_pos_eq; lra.
Qed.

(** C10 on a concrete mesh with a vertex that belongs to no face and
    coordinates of magnitude at most 5. *)
Lemma C10_witness :
  exists n,
    Normals.vertex_normals NormalsExample.mesh NormalsExample.faces = Some n /\
    List.length n = 1%nat /\
    Forall (fun b => List.length b = 4%nat) n /\
    Forall (Forall Float.finite3) n.
Proof.
  destruct (C10_vertex_normals_are_finite NormalsExample.mesh NormalsExample.faces)
    as [_ [_ [_ [Hfin Hret]]]].
  destruct Hret as [n [E [L S]]].
  - repeat constructor.
  - reflexivity.
  - exact example_mesh_in_range.
  - exists n. split; [exact E|]. split; [exact L|]. split; [exact S|].
    apply (Hfin 5%R n); [lra|exact example_mesh_within| |exact E].
    simpl. lra.
Defined.

(** ** The OBJ loader *)

Section ObjFacts.

Import Obj.
Context {B : Builtins}.
Local Open Scope string_scope.

Lemma string_append_assoc (s1 s2 s3 : string) :
  (s1 ++ s2) ++ s3 = s1 ++ (s2 ++ s3).
Proof.
  induction s1 as [|c s1 IH]; simpl; [reflexivity|now rewrite IH].
Qed.

Lemma floats_length (tokens : list string) (l : list F) :
  floats tokens = Ok l -> List.length l = List.length tokens.
Proof.
  revert l. induction tokens as [|x rest IH]; intros l E; simpl in E.
  - now injection E as <-.
  - destruct (float x); [|discriminate].
    destruct (floats rest) as [l'|]; [|discriminate].
    injection E as <-. simpl. now rewrite (IH l' eq_refl).
Qed.

(** [tokens[1:stop]] holds fewer elements than [tokens] and at most
    [stop - 1]. *)
Lemma slice_tail_length {A : Type} (l : list A) (stop : nat) :
  List.length (Py.slice l 1 (Z.of_nat stop)) =
  Nat.min (stop - 1) (List.length l - 1).
Proof.
  unfold Py.slice, Py.clamp. rewrite length_firstn, length_skipn.
  destruct (Z.ltb_spec 1 0); [lia|].
  destruct (Z.ltb_spec (Z.of_nat stop) 0); lia.
Qed.

Lemma texture_is_no_vertex (line : string) :
  startswith line "vt " = true -> startswith line "v " = false.
Proof.
  unfold startswith.
  destruct line as [|c1 [|c2 rest]]; cbn [String.prefix]; try discriminate.
  - destruct (ascii_dec "v" c1); reflexivity.
  - destruct (ascii_dec "v" c1); [|reflexivity].
    destruct (ascii_dec "t" c2) as [<-|]; [|discriminate].
    intros _. destruct (ascii_dec " " "t"); [discriminate|reflexivity].
Qed.

Lemma step_short_vertex (st : state) (line : string) :
  short_vertex_line line ->
  match floats (Py.slice (split (strip line)) 1 4) with
  | Ok vert => step st line = Raise (ValueError (vertex_message vert line))
  | Raise e => step st line = Raise e
  end.
Proof.
  intros [Hv Hn]. unfold step. rewrite Hv.
  destruct (floats _) as [vert|e] eqn:E; [|reflexivity].
  apply floats_length in E.
  rewrite (slice_tail_length _ 4) in E.
  replace (negb (Nat.eqb (List.length vert) 3)) with true; [reflexivity|].
  symmetry. apply negb_true_iff, Nat.eqb_neq. lia.
Qed.

Lemma step_short_texture (st : state) (line : string) :
  short_texture_line line ->
  match floats (Py.slice (split (strip line)) 1 3) with
  | Ok tx => step st line = Raise (ValueError (texture_message tx line))
  | Raise e => step st line = Raise e
  end.
Proof.
  intros [Hv Hn]. unfold step. rewrite (texture_is_no_vertex line Hv), Hv.
  destruct (floats _) as [tx|e] eqn:E; [|reflexivity].
  apply floats_length in E.
  rewrite (slice_tail_length _ 3) in E.
  replace (negb (Nat.eqb (List.length tx) 2)) with true; [reflexivity|].
  symmetry. apply negb_true_iff, Nat.eqb_neq. lia.
Qed.

Lemma step_short_fails (st : state) (line : string) :
  short_vertex_line line \/ short_texture_line line ->
  exists e, step st line = Raise e.
Proof.
  intros [H|H].
  - pose proof (step_short_vertex st line H) as E.
    destruct (floats _); eauto.
  - pose proof (step_short_texture st line H) as E.
    destruct (floats _); eauto.
Qed.

Lemma loop_fails (lines : list string) (line : string) :
  In line lines ->
  (forall st, exists e, step st line = Raise e) ->
  forall st, exists e, loop st lines = Raise e.
Proof.
  intros Hin Hfail. induction lines as [|l rest IH]; [contradiction|].
  intros st. simpl. destruct Hin as [->|Hin].
  - destruct (Hfail st) as [e ->]. eauto.
  - destruct (step st l) as [st'|e]; [apply IH, Hin|eauto].
Qed.

Lemma loop_app (pre post : list string) (line : string) (st st' : state) :
  loop st pre = Ok st' ->
  loop st (pre ++ line :: post) =
  match step st' line with
  | Ok s => loop s post
  | Raise e => Raise e
  end.
Proof.
  revert st. induction pre as [|l pre IH]; intros st E; simpl in *.
  - now injection E as ->.
  - destruct (step st l) as [s|]; [apply IH, E|discriminate].
Qed.

Lemma loop_concat (pre post : list string) (st : state) :
  loop st (pre ++ post) =
  match loop st pre with
  | Ok s => loop s post
  | Raise e => Raise e
  end.
Proof.
  revert st. induction pre as [|l pre IH]; intros st; simpl; [reflexivity|].
  destruct (step st l); [apply IH|reflexivity].
Qed.

(** A line that is its tag alone changes nothing. *)
Lemma step_tag_only (st : state) (line : string) :
  line = "v" \/ line = "vt" -> step st line = Ok st.
Proof. intros [->| ->]; reflexivity. Qed.

(** C9, in the form that holds of the code.  The loader tests the line
    after stripping the whitespace around it.  A file with a line that then
    starts with the vertex tag and carries fewer than three coordinates, or
    starts with the texture tag and carries fewer than two values, fails to
    load; when the lines before it load and its values parse as floats, the
    error is the ValueError whose message ends with the content of that
    stripped line.  (Values beyond the third, respectively the second, are
    not read.)  A line that is the tag alone, followed by whitespace only,
    no longer carries the prefix once stripped and is skipped: the file
    loads, or fails, as it does without that line. *)
Theorem C9_short_lines_fail_with_their_content :
  (forall file_lines raw,
     In raw file_lines ->
     short_vertex_line (strip raw) \/ short_texture_line (strip raw) ->
     exists e, load_obj file_lines = Raise e) /\
  (forall pre raw post st vert,
     loop (mkState [] [] [] []) (map strip pre) = Ok st ->
     short_vertex_line (strip raw) ->
     floats (Py.slice (split (strip (strip raw))) 1 4) = Ok vert ->
     load_obj (pre ++ raw :: post) =
     Raise (ValueError (vertex_message vert (strip raw)))) /\
  (forall pre raw post st tx,
     loop (mkState [] [] [] []) (map strip pre) = Ok st ->
     short_texture_line (strip raw) ->
     floats (Py.slice (split (strip (strip raw))) 1 3) = Ok tx ->
     load_obj (pre ++ raw :: post) =
     Raise (ValueError (texture_message tx (strip raw)))) /\
  (forall vert tx line,
     (exists before, vertex_message vert line = before ++ line) /\
     (exists before, texture_message tx line = before ++ line)) /\
  (forall pre raw post,
     strip raw = "v" \/ strip raw = "vt" ->
     load_obj (pre ++ raw :: post) = load_obj (pre ++ post)).
Proof.
  split; [|split; [|split; [|split; [intros vert tx line; split|]]]].
  - intros file_lines raw Hin Hshort. unfold load_obj.
    destruct (loop_fails (map strip file_lines) (strip raw)) with
      (st := mkState [] [] [] []) as [e ->].
    + apply in_map, Hin.
    + intros st. apply step_short_fails, Hshort.
    + eauto.
  - intros pre raw post st vert Hpre Hshort Hfloats. unfold load_obj.
    rewrite map_app. simpl map. rewrite (loop_app _ _ _ _ _ Hpre).
    pose proof (step_short_vertex st (strip raw) Hshort) as E.
    rewrite Hfloats in E. now rewrite E.
  - intros pre raw post st tx Hpre Hshort Hfloats. unfold load_obj.
    rewrite map_app. simpl map. rewrite (loop_app _ _ _ _ _ Hpre).
    pose proof (step_short_texture st (strip raw) Hshort) as E.
    rewrite Hfloats in E. now rewrite E.
  - exists ("Vertex " ++ str_floats vert ++ " does not have 3 values. Line: ").
    unfold vertex_message. 
    now rewrite !string_append_assoc.
  - exists ("Texture " ++ str_floats tx ++ " does not have 2 values. Line: ").
    unfold texture_message.
    now rewrite !string_append_assoc.
  - intros pre raw post Htag. unfold load_obj.
    rewrite !map_app, !loop_concat. cbn [map loop].
    destruct (loop _ (map strip pre)) as [st|]; [|reflexivity].
    now rewrite (step_tag_only st (strip raw) Htag).
Qed.

End ObjFacts.

(** C9, the claim as stated fails: a vertex line with four values and a
    texture line with three are accepted, the surplus values dropped. *)
Lemma C9_long_lines_are_accepted :
  Obj.load_obj (B := ObjExample.builtins) ObjExample.long_lines =
  Obj.Ok (Obj.mkMesh (B := ObjExample.builtins)
            [[[1; 2; 3]; [0; 0; 0]; [0; 1; 0]]]%R
            [[[0; 1]]]%R
            [[(0, 1, 2)]]%Z
            [[(0, 0, 0)]]%Z).
Proof. reflexivity. Qed.

(** A file whose first two lines are a vertex tag and a texture tag with
    nothing after them loads: both lines are skipped. *)
Lemma tag_only_lines_load :
  Obj.load_obj (B := ObjExample.builtins) ObjExample.tag_only_lines =
  Obj.Ok (Obj.mkMesh (B := ObjExample.builtins)
            [[[1; 2; 3]]]%R [[]] [[]] [[]]).
Proof. reflexivity. Qed.

(** C9 on a concrete file whose second line is a vertex with two
    coordinates. *)
Lemma C9_witness :
  Obj.load_obj (B := ObjExample.builtins) ObjExample.short_lines =
  Obj.Raise (Obj.ValueError
               "Vertex [...] does not have 3 values. Line: v 1 2"%string).
Proof.
  refine (proj1 (proj2 (C9_short_lines_fail_with_their_content
                          (B := ObjExample.builtins)))
            ["v 1 2 3"%string] "v 1 2"%string ["f 1 2 3"%string]
            (Obj.mkState (B := ObjExample.builtins) [[1; 2; 3]%R] [] [] [])
            [1; 2]%R _ _ _).
  - reflexivity.
  - split; [reflexivity|]. vm_compute. lia.
  - reflexivity.
Defined.

(** ** The reconstruction model: warnings, defaults and the pose *)

Section ReconLogFacts.

Import Linalg Recon ReconLog.
Context {C : Collaborators}.

Ltac run :=
  unfold state_of, result_of, log_of, bind, get, modify, ret, lift, raise, warning;
  simpl.

Lemma _encode_log (image : Image) (self : DecaReconModel) :
  log_of (_encode image self) = [].
Proof.
  unfold _encode. run.
  destruct (img_size self) eqn:Hs; run;
    destruct (E_flame image); run; trivial;
    destruct (_decompose_params _ _); run; trivial;
    destruct (dense self); run;
    try (destruct (E_detail image); run; trivial);
    destruct (Py.contains "emoca" (name self)); run; trivial;
    destruct (E_expression image); run; trivial.
Qed.

Lemma _decode_log (enc_dict : Py.dict tensor) (self : DecaReconModel) :
  log_of (_decode enc_dict self) =
  match D_mesh (dense self) enc_dict, cam_lookup enc_dict, tform self with
  | Some _, Some _, None =>
      if _warned_about_tform self then [] else [tform_warning]
  | _, _, _ => []
  end.
Proof.
  unfold _decode. run.
  destruct (D_mesh (dense self) enc_dict) as [[v Rs]|]; run; trivial.
  destruct (cam_lookup enc_dict) as [[[sc tx] ty]|]; run; trivial.
  destruct (tform self) eqn:Ht; run.
  - rewrite Ht. simpl.
    destruct (star create_ortho_matrix _); run; trivial.
    destruct (star create_viewport_matrix _); run; trivial.
    destruct (img_size self) as [s|]; run; trivial.
    destruct (star create_viewport_matrix s); run; trivial.
    destruct (star create_ortho_matrix s); run; trivial.
    destruct (inv _); run; trivial.
    destruct (inv _); run; trivial.
  - destruct (_warned_about_tform self); run;
    (destruct (star create_ortho_matrix _); run; trivial;
     destruct (star create_viewport_matrix _); run; trivial;
     destruct (img_size self) as [s|]; run; trivial;
     destruct (star create_viewport_matrix s); run; trivial;
     destruct (star create_ortho_matrix s); run; trivial;
     destruct (inv _); run; trivial;
     destruct (inv _); run; trivial).
Qed.

Lemma __call___log (image : Image) (self : DecaReconModel) :
  log_of (__call__ image self) =
  match _check_input image (224%Z, 224%Z) with
  | None => []
  | Some image' =>
      match result_of (_encode image' self) with
      | None => []
      | Some enc_dict => log_of (_decode enc_dict (state_of (_encode image' self)))
      end
  end.
Proof.
  pose proof (_encode_log) as He.
  unfold __call__. run.
  destruct (_check_input image (224%Z, 224%Z)) as [image'|]; run; trivial.
  specialize (He image' self). unfold log_of in He.
  destruct (_encode image' self) as [[[enc|] s1] l1]; simpl in He; subst l1; run;
    trivial.
  destruct (_decode enc s1) as [[[out|] s2] l2]; run; now rewrite ?app_nil_r.
Qed.


Lemma _encode_keeps_tform (image : Image) (self : DecaReconModel) :
  tform (state_of (_encode image self)) = tform self /\
  _warned_about_tform (state_of (_encode image self)) = _warned_about_tform self.
Proof.
  rewrite _encode_state. destruct (img_size self); split; reflexivity.
Qed.

Lemma quiet_frame (s s' : DecaReconModel) : Frame s s' -> quiet s -> quiet s'.
Proof.
  intros [_ [_ [Ht [_ [Hw _]]]]] [Hq|Hq].
  - left. destruct (tform s) as [t|] eqn:E; [|contradiction].
    rewrite (Ht t eq_refl). discriminate.
  - right. auto.
Qed.

Lemma quiet_call_logs_nothing (image : Image) (self : DecaReconModel) :
  quiet self -> log_of (__call__ image self) = [].
Proof.
  intros Hq. rewrite __call___log.
  destruct (_check_input _ _) as [image'|]; [|reflexivity].
  destruct (result_of _) as [enc|]; [|reflexivity].
  rewrite _decode_log.
  destruct (_encode_keeps_tform image' self) as [-> ->].
  destruct (D_mesh _ _); [|reflexivity].
  destruct (cam_lookup _); [|reflexivity].
  destruct (tform self) eqn:Et; [reflexivity|].
  destruct Hq as [Hq|Hq]; [contradiction|]. now rewrite Hq.
Qed.

Lemma call_log_cases (image : Image) (self : DecaReconModel) :
  log_of (__call__ image self) = [] \/
  (log_of (__call__ image self) = [tform_warning] /\
   quiet (state_of (__call__ image self))).
Proof.
  rewrite __call___log, __call___state.
  destruct (_check_input _ _) as [image'|]; [|now left].
  destruct (result_of _) as [enc|]; [|now left].
  rewrite _decode_log, _decode_state.
  destruct (D_mesh _ _); [|now left].
  destruct (cam_lookup _); [|now left].
  destruct (tform (state_of (_encode image' self))) eqn:Et; [now left|].
  destruct (_warned_about_tform (state_of (_encode image' self))) eqn:Ew;
    [now left|].
  right. split; [reflexivity|]. left.
  unfold after_tform_check. rewrite Et. simpl. discriminate.
Qed.

(** X1.  Over any sequence of reconstruction calls on one instance the
    warning about the missing [tform] is logged at most once, and the
    methods of the reconstruction path ([__call__], [_encode], [_decode])
    log nothing else; on an instance whose [tform] is set, or that has
    warned already, they log nothing at all. *)
Theorem X1_tform_warning_at_most_once (images : list Image) (self : DecaReconModel) :
  (calls_log images self = [] \/ calls_log images self = [tform_warning]) /\
  (quiet self -> calls_log images self = []).
Proof.
  assert (Hquiet : forall images self, quiet self -> calls_log images self = []).
  { clear. induction images as [|image rest IH]; intros self Hq; simpl.
    - reflexivity.
    - rewrite (quiet_call_logs_nothing image self Hq). simpl.
      apply IH. eapply quiet_frame; [apply __call___frame|exact Hq]. }
  split; [|apply Hquiet].
  revert self. induction images as [|image rest IH]; intros self; simpl.
  - now left.
  - destruct (call_log_cases image self) as [->|[-> Hq]].
    + simpl. apply IH.
    + right. rewrite (Hquiet rest _ Hq). reflexivity.
Qed.

End ReconLogFacts.

Section ReconMoreFacts.

Import Linalg Recon.
Context {C : Collaborators}.
Local Open Scope R_scope.

Ltac run :=
  unfold state_of, result_of, log_of, bind, get, modify, ret, lift, raise, warning;
  simpl.

Lemma mat4_ext (A B : mat4) :
  (forall i j, mget A i j = mget B i j) -> A = B.
Proof.
  intros H.
  destruct A as [[? ? ? ?] [? ? ? ?] [? ? ? ?] [? ? ? ?]],
           B as [[? ? ? ?] [? ? ? ?] [? ? ? ?] [? ? ? ?]].
  pose proof (H I0 I0); pose proof (H I0 I1); pose proof (H I0 I2);
  pose proof (H I0 I3); pose proof (H I1 I0); pose proof (H I1 I1);
  pose proof (H I1 I2); pose proof (H I1 I3); pose proof (H I2 I0);
  pose proof (H I2 I1); pose proof (H I2 I2); pose proof (H I2 I3);
  pose proof (H I3 I0); pose proof (H I3 I1); pose proof (H I3 I2);
  pose proof (H I3 I3).
  cbv [mget vget row] in *. congruence.
Qed.

Lemma sum_repeat (x : R) (n : nat) :
  fold_right Rplus 0 (repeat x n) = INR n * x.
Proof.
  induction n as [|n IH].
  - simpl. ring.
  - rewrite S_INR. simpl repeat. simpl fold_right. rewrite IH. ring.
Qed.

(** The mean of copies of one matrix is that matrix. *)
Lemma mean_repeat (R0 : mat4) (n : nat) : mean (repeat R0 (S n)) = R0.
Proof.
  apply mat4_ext. intros i j. rewrite mean_entry.
  rewrite map_repeat, sum_repeat, repeat_length.
  field. apply not_0_INR. discriminate.
Qed.

(** X2.  When the mesh decoder returns the same matrix for every vertex
    (the situation the comment in [_decode] describes), the averaging is
    exact: the returned [mat] is the full reprojection matrix times that
    matrix. *)
Theorem X2_mean_of_identical_rotations
    self enc_dict v R0 n sc tx ty t W H CPinv backward :
  decode_ready self enc_dict v (repeat R0 (S n)) sc tx ty t W H CPinv backward ->
  exists out,
    result_of (_decode enc_dict self) = Some out /\
    mat out =
    matmul
      (full_matrix_spec backward
         (forward_spec CPinv (create_viewport_matrix 224 224)
            (create_ortho_matrix 224 224))
         (pose_spec sc tx ty))
      R0.
Proof.
  intros Hr. eexists.
  split; [rewrite (_decode_returns _ _ _ _ _ _ _ _ _ _ _ _ Hr); reflexivity|].
  cbn [Recon.mat]. rewrite full_matrix_association, mean_repeat. reflexivity.
Qed.

(** X3.  With the identity as crop transform (whose lift is the 4 x 4
    identity) and an original image of the crop size, the returned vertices
    are the decoded ones translated by (tx, ty, 0) and then scaled by sc
    about the origin: translation first, scale second, no translation
    along z. *)
Theorem X3_translate_then_scale
    self enc_dict v Rs sc tx ty CPinv backward :
  decode_ready self enc_dict v Rs sc tx ty eye3 224 224 CPinv backward ->
  crop_matrix_to_3d eye3 = eye4 ->
  exists out,
    result_of (_decode enc_dict self) = Some out /\
    Recon.v out =
    map (fun p => match p with
                  | V3 x y z => V3 (sc * (x + tx)) (sc * (y + ty)) (sc * z)
                  end) v.
Proof.
  intros Hr Hlift.
  pose proof (ready_CPinv _ _ _ _ _ _ _ _ _ _ _ _ Hr) as Hi.
  pose proof (ready_backward _ _ _ _ _ _ _ _ _ _ _ _ Hr) as Hb.
  rewrite Hlift, inv_eye4 in Hi. injection Hi as <-.
  set (OP := create_ortho_matrix 224 224) in *.
  set (VP := create_viewport_matrix 224 224) in *.
  assert (E : matmul backward (matmul (matmul eye4 VP) OP) = eye4).
  { rewrite matmul_eye_l. apply inv_left, Hb. }
  eexists.
  split; [rewrite (_decode_returns _ _ _ _ _ _ _ _ _ _ _ _ Hr); reflexivity|].
  simpl. fold OP VP. rewrite E, matmul_eye_l.
  unfold trim3, rows_matmul, c_ones. rewrite !map_map.
  apply map_ext. intros [x y z].
  cbv [vecmat transpose matmul S_spec T_spec set_entry mbuild vbuild sum4 mget
       vget row eye4 idx4_eqb andb].
  f_equal; ring.
Qed.

End ReconMoreFacts.

(** X2 on the concrete instance, whose decoder returns the identity twice. *)
Lemma X2_witness :
  exists out,
    Recon.result_of
      (Recon._decode (C := Example.collaborators) Example.enc_dict
         (Example.model (Some [224%Z; 224%Z]) (Some Example.crop)))
    = Some out /\
    Recon.mat out =
    Linalg.matmul
      (Recon.full_matrix_spec Example.backward224
         (Recon.forward_spec Example.crop_inverse
            (Example.viewport 224 224) (Example.ortho 224 224))
         (Recon.pose_spec 2 1 3))
      Linalg.eye4.
Proof.
  exact (X2_mean_of_identical_rotations (C := Example.collaborators)
           _ _ _ Linalg.eye4 1%nat _ _ _ _ _ _ _ _
           (example_ready Example.crop Example.crop_inverse example_crop_inverse)).
Defined.

(** X3 on the concrete instance: camera [2, 1, 3] sends (1, 0, 0) to
    (4, 6, 0) and (0, 1, 0) to (2, 8, 0). *)
Lemma X3_witness :
  exists out,
    Recon.result_of
      (Recon._decode (C := Example.collaborators) Example.enc_dict
         (Example.model (Some [224%Z; 224%Z]) (Some Linalg.eye3)))
    = Some out /\
    Recon.v out =
    map (fun p => match p with
                  | Linalg.V3 x y z =>
                      Linalg.V3 (2 * (x + 1)) (2 * (y + 3)) (2 * z)
                  end%R) Example.vertices.
Proof.
  exact (X3_translate_then_scale (C := Example.collaborators)
           _ _ _ _ _ _ _ _ _
           (example_ready Linalg.eye3 Linalg.eye4 example_identity_inverse)
           eq_refl).
Defined.

(** ** The reconstruction model: defaults, construction and the encoder *)

Section ReconEdgeFacts.

Import Linalg Recon.
Context {C : Collaborators}.

Ltac run :=
  unfold state_of, result_of, log_of, bind, get, modify, ret, lift, raise, warning;
  simpl.

(** X4.  A model whose [tform] is unset reconstructs exactly as the same
    model with the 3 x 3 identity as [tform]: [_decode] returns the same
    vertices and matrix, or raises in the same cases, whether or not the
    warning has been issued before. *)
Theorem X4_unset_tform_acts_as_identity
    (enc_dict : Py.dict tensor) (self : DecaReconModel) :
  result_of (_decode enc_dict (set_tform None self)) =
  result_of (_decode enc_dict (set_tform (Some eye3) self)).
Proof.
  unfold _decode. run.
  destruct (D_mesh (dense self) enc_dict) as [[v Rs]|]; run; trivial.
  destruct (cam_lookup enc_dict) as [[[sc tx] ty]|]; run; trivial.
  destruct (_warned_about_tform self); run;
    (destruct (star create_ortho_matrix _); run; trivial;
     destruct (star create_viewport_matrix _); run; trivial;
     destruct (img_size self) as [s|]; run; trivial;
     destruct (star create_viewport_matrix s); run; trivial;
     destruct (star create_ortho_matrix s); run; trivial;
     destruct (inv (crop_matrix_to_3d eye3)); run; trivial;
     destruct (inv _); run; trivial).
Qed.

(** A slice with bounds inside the non-negative range, without the
    clamping. *)
Lemma slice_nonneg {A : Type} (l : list A) (a b : nat) :
  (a <= b)%nat ->
  Py.slice l (Z.of_nat a) (Z.of_nat b) = firstn (b - a) (skipn a l).
Proof.
  intros Hab. unfold Py.slice, Py.clamp.
  destruct (Z.ltb_spec (Z.of_nat a) 0); [lia|].
  destruct (Z.ltb_spec (Z.of_nat b) 0); [lia|].
  set (n := List.length l).
  destruct (Nat.le_gt_cases n a) as [Hna|Hna].
  - rewrite !skipn_all2 by (fold n; lia). now rewrite !firstn_nil.
  - replace (Z.to_nat (Z.min (Z.of_nat a) (Z.of_nat n))) with a by lia.
    destruct (Nat.le_gt_cases n b) as [Hnb|Hnb].
    + rewrite !firstn_all2; trivial; rewrite length_skipn; fold n; lia.
    + f_equal. lia.
Qed.

Lemma slice_length {A : Type} (l : list A) (a b : nat) :
  (a <= b)%nat ->
  List.length (Py.slice l (Z.of_nat a) (Z.of_nat b)) =
  Nat.min (b - a) (List.length l - a).
Proof.
  intros Hab. rewrite slice_nonneg by exact Hab.
  now rewrite length_firstn, length_skipn.
Qed.

Lemma slice_firstn {A : Type} (l : list A) (a b k : nat) :
  (a <= b <= k)%nat ->
  Py.slice (firstn k l) (Z.of_nat a) (Z.of_nat b) =
  Py.slice l (Z.of_nat a) (Z.of_nat b).
Proof.
  intros Hab. rewrite !slice_nonneg by lia.
  rewrite skipn_firstn_comm, firstn_firstn. f_equal. lia.
Qed.

(** What the decomposer does with the declared sizes, on any tensor. *)
Lemma decompose_default (parameters : list (list R)) :
  _decompose_params parameters default_param_dict =
  match reshape_9_3 (map (fun r => Py.slice r 209 236) parameters) with
  | Some t =>
      Some [("shape"%string, T2 (map (fun r => Py.slice r 0 100) parameters));
            ("tex"%string, T2 (map (fun r => Py.slice r 100 150) parameters));
            ("exp"%string, T2 (map (fun r => Py.slice r 150 200) parameters));
            ("pose"%string, T2 (map (fun r => Py.slice r 200 206) parameters));
            ("cam"%string, T2 (map (fun r => Py.slice r 206 209) parameters));
            ("light"%string, T3 t)]
  | None => None
  end.
Proof.
  unfold _decompose_params. cbn -[Py.slice reshape_9_3].
  destruct (reshape_9_3 _); reflexivity.
Qed.

Lemma reshape_9_3_defined (rows : list (list R)) :
  reshape_9_3 rows <> None <-> Forall (fun r => List.length r = 27%nat) rows.
Proof.
  unfold reshape_9_3. rewrite Forall_forall.
  destruct (forallb _ rows) eqn:E.
  - split; [|discriminate]. intros _ r Hr.
    rewrite forallb_forall in E. now apply Nat.eqb_eq, E.
  - split; [congruence|]. intros H. exfalso.
    assert (forallb (fun r => Nat.eqb (List.length r) 27) rows = true);
      [|congruence].
    apply forallb_forall. intros r Hr. now apply Nat.eqb_eq, H.
Qed.

(** X5.  With the declared sizes the decomposer returns exactly when every
    row of the coefficient tensor has at least 236 columns (a shorter row
    leaves a light block that cannot be reshaped to 9 x 3), and columns from
    the 237th on are never read: truncating every row to 236 columns gives
    the same result. *)
Theorem X5_decompose_reads_236_columns (parameters : list (list R)) :
  (_decompose_params parameters default_param_dict <> None <->
   Forall (fun r => (236 <= List.length r)%nat) parameters) /\
  _decompose_params (map (firstn 236) parameters) default_param_dict =
  _decompose_params parameters default_param_dict.
Proof.
  split.
  - rewrite decompose_default.
    assert (E : match reshape_9_3 (map (fun r => Py.slice r 209 236) parameters)
                with Some _ => True | None => False end <->
                reshape_9_3 (map (fun r => Py.slice r 209 236) parameters) <> None)
      by (destruct (reshape_9_3 _); split; (congruence || tauto)).
    transitivity
      (reshape_9_3 (map (fun r => Py.slice r 209 236) parameters) <> None).
    { destruct (reshape_9_3 _); split; congruence. }
    clear E. rewrite reshape_9_3_defined, Forall_map, !Forall_forall.
    assert (L : forall r : list R,
              List.length (Py.slice r 209 236) = 27%nat <->
              (236 <= List.length r)%nat).
    { intros r.
      change 209%Z with (Z.of_nat 209). change 236%Z with (Z.of_nat 236).
      rewrite slice_length by lia. lia. }
    split; intros H r Hr; apply L, H, Hr.
  - rewrite !decompose_default, !map_map.
    assert (E : forall a b, (a <= b <= 236)%nat ->
                map (fun r => Py.slice (firstn 236 r) (Z.of_nat a) (Z.of_nat b))
                    parameters =
                map (fun r => Py.slice r (Z.of_nat a) (Z.of_nat b)) parameters).
    { intros a b Hab. apply map_ext. intros r. now apply slice_firstn. }
    change 0%Z with (Z.of_nat 0). change 100%Z with (Z.of_nat 100).
    change 150%Z with (Z.of_nat 150). change 200%Z with (Z.of_nat 200).
    change 206%Z with (Z.of_nat 206). change 209%Z with (Z.of_nat 209).
    change 236%Z with (Z.of_nat 236).
    rewrite !E by lia. reflexivity.
Qed.

Lemma existsb_eqb_In (x : string) (l : list string) :
  existsb (String.eqb x) l = true <-> In x l.
Proof.
  rewrite existsb_exists. split.
  - intros [y [Hy E]]. apply String.eqb_eq in E. now subst.
  - intros H. exists x. split; [exact H|apply String.eqb_refl].
Qed.

(** X6.  Given assets that load, construction succeeds exactly for the
    four model names and the two devices.  The constructed model is dense
    exactly for the two names that end in dense, expects 236 coefficients in
    total, has not warned yet, keeps the given [img_size] and [tform], crops
    to 224 x 224, and logs a warning exactly when no [img_size] was
    given. *)
Theorem X6_init_accepts_four_names_two_devices
    (name : string) (img_size : option (list Z)) (device : string)
    (tform : option mat3) (assets : Assets) :
  (__init__ name img_size device tform assets <> None <->
   In name MODELS /\ In device DEVICES) /\
  (forall m log,
     __init__ name img_size device tform assets = Some (m, log) ->
     (Recon.dense m = true <->
      name = "deca-dense"%string \/ name = "emoca-dense"%string) /\
     Recon.n_param m = 236%Z /\
     Recon.param_dict m = default_param_dict /\
     Recon._warned_about_tform m = false /\
     Recon.img_size m = img_size /\ Recon.tform m = tform /\
     Recon._crop_img_size m = [224%Z; 224%Z] /\
     (log = [] <-> img_size <> None) /\
     (log = [] \/ log = [img_size_warning])).
Proof.
  unfold __init__.
  destruct (existsb (String.eqb name) MODELS) eqn:En; cbn [negb].
  - destruct (existsb (String.eqb device) DEVICES) eqn:Ed; cbn [negb].
    + apply existsb_eqb_In in En. apply existsb_eqb_In in Ed.
      split; [split; [tauto|intros _; discriminate]|].
      intros m log E. injection E as <- <-. simpl.
      repeat split; trivial.
      * intros Hd.
        destruct En as [<-|[<-|[<-|[<-|[]]]]]; try discriminate Hd; tauto.
      * intros [->| ->]; reflexivity.
      * destruct img_size; [discriminate|discriminate].
      * destruct img_size; [reflexivity|congruence].
      * destruct img_size; [now left|now right].
    + split; [|discriminate].
      split; [congruence|]. intros [_ H]. apply existsb_eqb_In in H. congruence.
  - split; [|discriminate].
    split; [congruence|]. intros [H _]. apply existsb_eqb_In in H. congruence.
Qed.

Lemma keys_dict_set_new {V : Type} (d : Py.dict V) (k : string) (x : V) :
  Py.dict_get d k = None -> Py.keys (Py.dict_set d k x) = (Py.keys d ++ [k])%list.
Proof.
  induction d as [|[k' v'] d IH]; simpl; [reflexivity|].
  destruct (String.eqb k k'); [discriminate|].
  intros H. simpl. now rewrite (IH H).
Qed.

Lemma keys_dict_set_old {V : Type} (d : Py.dict V) (k : string) (x : V) :
  Py.dict_get d k <> None -> Py.keys (Py.dict_set d k x) = Py.keys d.
Proof.
  induction d as [|[k' v'] d IH]; simpl; [congruence|].
  destruct (String.eqb k k'); [reflexivity|].
  intros H. simpl. now rewrite (IH H).
Qed.

Lemma dict_get_set_same {V : Type} (d : Py.dict V) (k : string) (x : V) :
  Py.dict_get (Py.dict_set d k x) k = Some x.
Proof.
  induction d as [|[k' v'] d IH]; simpl.
  - now rewrite String.eqb_refl.
  - destruct (String.eqb k k') eqn:E; simpl; rewrite E; [reflexivity|exact IH].
Qed.

Lemma dict_get_set_other {V : Type} (d : Py.dict V) (k k' : string) (x : V) :
  String.eqb k' k = false ->
  Py.dict_get (Py.dict_set d k x) k' = Py.dict_get d k'.
Proof.
  intros Hk. induction d as [|[k0 v0] d IH]; simpl.
  - now rewrite Hk.
  - destruct (String.eqb k k0) eqn:E; simpl.
    + apply String.eqb_eq in E. subst k0. now rewrite Hk.
    + now rewrite IH.
Qed.

(** X7.  On a model with the declared sizes, a dict returned by [_encode]
    lists the six decomposed groups in declaration order, followed by
    [detail] exactly on a dense model; its [cam] entry is columns 206-208 of
    the coefficient tensor whatever the model, its [exp] entry is the output
    of the expression encoder on an emoca model and columns 150-199
    otherwise, and its [detail] entry is the output of the detail
    encoder. *)
Theorem X7_encode_entries
    (image : Image) (self : DecaReconModel) (enc : Py.dict tensor) :
  Recon.param_dict self = default_param_dict ->
  result_of (_encode image self) = Some enc ->
  exists rows,
    E_flame image = Some rows /\
    Py.keys enc =
    (["shape"; "tex"; "exp"; "pose"; "cam"; "light"]
     ++ (if Recon.dense self then ["detail"] else []))%list%string /\
    Py.dict_get enc "cam" = Some (T2 (map (fun r => Py.slice r 206 209) rows)) /\
    Py.dict_get enc "exp" =
    (if Py.contains "emoca" (Recon.name self)
     then option_map T2 (E_expression image)
     else Some (T2 (map (fun r => Py.slice r 150 200) rows))) /\
    Py.dict_get enc "detail" =
    (if Recon.dense self then option_map T2 (E_detail image) else None).
Proof.
  intros Hp. unfold _encode. run.
  assert (Hp' : Recon.param_dict
                  (match Recon.img_size self with
                   | None => set_img_size (Some (Py.slice_from (shape image) 2)) self
                   | Some _ => self
                   end) = default_param_dict)
    by (destruct (Recon.img_size self); exact Hp).
  assert (Hd : Recon.dense
                  (match Recon.img_size self with
                   | None => set_img_size (Some (Py.slice_from (shape image) 2)) self
                   | Some _ => self
                   end) = Recon.dense self)
    by (destruct (Recon.img_size self); reflexivity).
  assert (Hn : Recon.name
                  (match Recon.img_size self with
                   | None => set_img_size (Some (Py.slice_from (shape image) 2)) self
                   | Some _ => self
                   end) = Recon.name self)
    by (destruct (Recon.img_size self); reflexivity).
  destruct (Recon.img_size self) eqn:Hs; run;
    (destruct (E_flame image) as [rows|]; run; [|discriminate];
     rewrite ?Hp', ?Hp, decompose_default;
     destruct (reshape_9_3 _) as [t|]; run; [|discriminate];
     simpl in Hd, Hn; rewrite ?Hd, ?Hn;
     destruct (Recon.dense self); run;
     [destruct (E_detail image) as [det|]; run; [|discriminate]|];
     (destruct (Py.contains "emoca" (Recon.name self)); run;
      [destruct (E_expression image) as [ex|]; run; [|discriminate]|]);
     intros E; injection E as <-; exists rows; repeat split; reflexivity).
Qed.

End ReconEdgeFacts.

(** X7 on the concrete instance, a coarse deca model. *)
Lemma X7_witness :
  exists rows,
    Recon.E_flame (Collaborators := Example.collaborators) Example.image224
    = Some rows /\
    Py.keys ExampleEncoded.encoded =
    ["shape"; "tex"; "exp"; "pose"; "cam"; "light"]%string /\
    Py.dict_get ExampleEncoded.encoded "cam"
    = Some (Recon.T2 (map (fun r => Py.slice r 206 209) rows)) /\
    Py.dict_get ExampleEncoded.encoded "exp"
    = Some (Recon.T2 (map (fun r => Py.slice r 150 200) rows)) /\
    Py.dict_get ExampleEncoded.encoded "detail" = None.
Proof.
  exact (X7_encode_entries (C := Example.collaborators) Example.image224
           (Example.model None None) ExampleEncoded.encoded eq_refl eq_refl).
Defined.

(** ** Vertex normals and face vertices: further properties *)

Section NormalsMoreFacts.

Import Linalg Float Arr Normals FaceVertices.
Context {fmt : Format}.
Local Open Scope R_scope.

Lemma mapM_map_commute {A B D : Type} (g : B -> D) (h : A -> option B)
    (h' : A -> option D) (l : list A) :
  (forall a, h' a = option_map g (h a)) ->
  mapM h' l = option_map (map g) (mapM h l).
Proof.
  intros E. induction l as [|a l IH]; simpl; [reflexivity|].
  rewrite E, IH. destruct (h a); simpl; [|reflexivity].
  destruct (mapM h l); reflexivity.
Qed.

Lemma take_map {A B : Type} (g : A -> B) (l : list A) (idx : list Z) :
  take (map g l) idx = option_map (map g) (take l idx).
Proof. apply mapM_map_commute. intros i. apply index_map. Qed.

(** The difference of two vertices does not see a common shift. *)
Lemma fsub3_translate (a b d : vec3) :
  fsub3 (lift3 (vadd a d)) (lift3 (vadd b d)) = fsub3 (lift3 a) (lift3 b).
Proof.
  destruct a as [a0 a1 a2], b as [b0 b1 b2], d as [d0 d1 d2].
  unfold fsub3, lift3, vadd, fsub, fopp, fadd.
  f_equal; f_equal; ring.
Qed.

Lemma zip_fsub3_translate (d : vec3) (l1 l2 : list vec3) :
  zip_with fsub3 (Some (map (fun p => lift3 (vadd p d)) l1))
                 (Some (map (fun p => lift3 (vadd p d)) l2)) =
  zip_with fsub3 (Some (map lift3 l1)) (Some (map lift3 l2)).
Proof.
  unfold zip_with, zipO. revert l2.
  induction l1 as [|a l1 IH]; intros [|b l2]; simpl; trivial.
  now rewrite IH, fsub3_translate.
Qed.

Lemma accumulate_translate (d : vec3) (v : vertices) (f : list (list face)) :
  accumulate (translate d v) f = accumulate v f.
Proof.
  unfold accumulate, translate. cbn [nv batches].
  rewrite <- concat_map, map_map. unfold reshape_rows. rewrite !length_map.
  destruct (Nat.eqb _ _); [|reflexivity].
  rewrite !take_map.
  destruct (take _ (map f0 _)) as [vf0|]; [|reflexivity].
  destruct (take _ (map f1 _)) as [vf1|]; [|reflexivity].
  destruct (take _ (map f2 _)) as [vf2|]; [|reflexivity].
  cbn [option_map]. now rewrite !zip_fsub3_translate.
Qed.

(** X8.  Vertex normals do not depend on where the mesh sits: adding one
    vector to every vertex leaves the result, and the cases in which the
    function raises, unchanged. *)
Theorem X8_vertex_normals_translation_invariant
    (d : vec3) (v : vertices) (f : list (list face)) :
  vertex_normals (translate d v) f = vertex_normals v f.
Proof.
  unfold vertex_normals. now rewrite accumulate_translate.
Qed.

Lemma add_at_other (l : list fvec3) (i j : nat) (a : fvec3) :
  i <> j -> nth_error (add_at l i a) j = nth_error l j.
Proof.
  revert i j. induction l as [|x l IH]; intros [|i] [|j] H; simpl; trivial.
  - contradiction.
  - apply IH. congruence.
Qed.

(** A row no index names keeps its value through [index_add_]. *)
Lemma index_add_other (normals : list fvec3) (idx : list Z) (src r : list fvec3)
    (j : nat) :
  index_add normals idx src = Some r ->
  ~ In (Z.of_nat j) idx ->
  nth_error r j = nth_error normals j.
Proof.
  revert normals src. induction idx as [|i idx IH]; intros normals [|a src] E Hj;
    simpl in E; try discriminate.
  - now injection E as <-.
  - destruct (Z.leb_spec 0 i); simpl in E; [|discriminate].
    destruct (_ <? _)%Z; [|discriminate].
    rewrite (IH _ _ E) by (intros Hin; apply Hj; now right).
    apply add_at_other. intros Hij. apply Hj. left. lia.
Qed.

(** When [index_add_] returns, every index named a row. *)
Lemma index_add_some (normals : list fvec3) (idx : list Z) (src r : list fvec3) :
  index_add normals idx src = Some r ->
  Forall (fun i => (0 <= i < Z.of_nat (List.length normals))%Z) idx.
Proof.
  revert normals src. induction idx as [|i idx IH]; intros normals [|a src] E;
    simpl in E; try discriminate; [constructor|].
  destruct (Z.leb_spec 0 i); simpl in E; [|discriminate].
  destruct (Z.ltb_spec i (Z.of_nat (List.length normals))); [|discriminate].
  constructor; [lia|].
  specialize (IH _ _ E). now rewrite add_at_length in IH.
Qed.

(** What [vertex_normals] returns, with the accumulated rows named. *)
Lemma vertex_normals_accumulates (v : vertices) (f : list (list face)) n :
  vertex_normals v f = Some n ->
  exists sums,
    accumulate v f = Some sums /\
    List.length sums = (List.length f * nv v)%nat /\
    n = chunks (List.length f) (nv v) (map (normalize_row eps) sums).
Proof.
  unfold vertex_normals. destruct (accumulate v f) as [sums|] eqn:E;
    [|discriminate].
  intros H. injection H as <-. exists sums.
  destruct (accumulate_passes v f sums E) as [_ [_ [_ [_ [_ [_ [_ [_ L]]]]]]]].
  auto.
Qed.

(** X9.  A vertex that no face names gets the zero vector as its normal
    (not NaN): row [j] of the flattened result is (0, 0, 0) when [j] occurs
    in no offset face. *)
Theorem X9_vertex_in_no_face_gets_zero_normal
    (v : vertices) (f : list (list face)) (n : list (list Float.fvec3)) (j : nat) :
  vertex_normals v f = Some n ->
  (j < List.length f * nv v)%nat ->
  Forall (fun t => f0 t <> Z.of_nat j /\ f1 t <> Z.of_nat j /\ f2 t <> Z.of_nat j)
         (expand_faces (nv v) 0 f) ->
  nth_error (List.concat n) j = Some (row_of 0 0 0).
Proof.
  intros E Hj Hfree.
  destruct (vertex_normals_accumulates v f n E) as [sums [Ea [L ->]]].
  destruct (accumulate_passes v f sums Ea)
    as [c1 [c2 [c0 [n1 [n2 [E1 [E2 [E0 _]]]]]]]].
  rewrite concat_chunks by (now rewrite length_map).
  rewrite nth_error_map.
  assert (Hnot : forall g : face -> Z,
            (forall t, In t (expand_faces (nv v) 0 f) -> g t <> Z.of_nat j) ->
            ~ In (Z.of_nat j) (map g (expand_faces (nv v) 0 f))).
  { intros g Hg Hin. apply in_map_iff in Hin. destruct Hin as [t [Et Ht]].
    now apply (Hg t Ht). }
  rewrite Forall_forall in Hfree.
  rewrite (index_add_other _ _ _ _ j E0)
    by (apply Hnot; intros t Ht; apply (Hfree t Ht)).
  rewrite (index_add_other _ _ _ _ j E2)
    by (apply Hnot; intros t Ht; apply (Hfree t Ht)).
  rewrite (index_add_other _ _ _ _ j E1)
    by (apply Hnot; intros t Ht; apply (Hfree t Ht)).
  rewrite nth_error_repeat by exact Hj.
  cbn [option_map]. now rewrite normalize_row_zero.
Qed.

(** X10.  With coordinates of magnitude at most [B] and [F] faces such that
    24 F B^2 is a float, no entry of a returned normal exceeds one in
    magnitude: every row of the result is a row of finite numbers between
    -1 and 1. *)
Theorem X10_normal_entries_at_most_one
    (B : R) (v : vertices) (f : list (list face)) (n : list (list Float.fvec3)) :
  0 <= B -> within B v ->
  24 * INR (List.length (List.concat f)) * (B * B) <= huge ->
  vertex_normals v f = Some n ->
  Forall (Forall (fun r => exists x y z,
                      r = row_of x y z /\
                      - 1 <= x <= 1 /\ - 1 <= y <= 1 /\ - 1 <= z <= 1)) n.
Proof.
  intros HB Hw Hh E.
  destruct (vertex_normals_accumulates v f n E) as [sums [Ea [_ ->]]].
  pose proof (accumulate_bounded B v f sums HB Hw Hh Ea) as Hfin.
  apply chunks_Forall. apply Forall_forall. intros r Hr.
  apply in_map_iff in Hr. destruct Hr as [a [<- Ha]].
  rewrite Forall_forall in Hfin. pose proof (Hfin a Ha) as Hf.
  destruct a as [[x| | |] [y| | |] [z| | |]]; simpl in Hf; try tauto.
  apply normalize_row_bounded.
Qed.

(** X11.  On a rectangular vertex tensor with as many batches as the faces
    tensor, [vertex_normals] returns exactly when every face index, after
    the batch offset, is a row number of the flattened vertex array; a
    negative index, which the gather would accept, makes [index_add_]
    raise. *)
Theorem X11_vertex_normals_returns_iff_in_range
    (v : vertices) (f : list (list face)) :
  rectangular v ->
  List.length (batches v) = List.length f ->
  (vertex_normals v f <> None <-> faces_in_range v f).
Proof.
  intros Hr Hb. split.
  - intros Hn. destruct (vertex_normals v f) as [n|] eqn:E; [|congruence].
    destruct (vertex_normals_accumulates v f n E) as [sums [Ea [L _]]].
    destruct (accumulate_passes v f sums Ea)
      as [c1 [c2 [c0 [n1 [n2 [E1 [E2 [E0 _]]]]]]]].
    pose proof (index_add_some _ _ _ _ E1) as R1.
    pose proof (index_add_some _ _ _ _ E2) as R2.
    pose proof (index_add_some _ _ _ _ E0) as R0.
    rewrite (index_add_length _ _ _ _ E2), (index_add_length _ _ _ _ E1) in R0.
    rewrite (index_add_length _ _ _ _ E1) in R2.
    rewrite repeat_length in R0, R1, R2.
    rewrite Forall_forall in R0, R1, R2.
    unfold faces_in_range. apply Forall_forall. intros t Ht.
    repeat split;
      first [apply (R0 (f0 t)) | apply (R1 (f1 t)) | apply (R2 (f2 t))];
      now apply in_map.
  - intros Hf. destruct (vertex_normals_returns v f Hr Hb Hf) as [n [E _]].
    rewrite E. discriminate.
Qed.

(** Row [b * k + i] of the concatenation of rectangular batches is row [i]
    of batch [b]. *)
Lemma index_offset (pre vb post : list vec3) (i : Z) :
  (0 <= i < Z.of_nat (List.length vb))%Z ->
  Py.index (pre ++ vb ++ post) (i + Z.of_nat (List.length pre)) = Py.index vb i.
Proof.
  intros Hi. unfold Py.index.
  destruct (Z.leb_spec 0 (i + Z.of_nat (List.length pre))); [|lia].
  destruct (Z.leb_spec 0 i); [|lia].
  rewrite nth_error_app2 by lia.
  replace (Z.to_nat (i + Z.of_nat (List.length pre)) - List.length pre)%nat
    with (Z.to_nat i) by lia.
  apply nth_error_app1. lia.
Qed.

Lemma mapM_ext_in {A B : Type} (h h' : A -> option B) (l : list A) :
  (forall a, In a l -> h a = h' a) -> mapM h l = mapM h' l.
Proof.
  induction l as [|a l IH]; intros E; simpl; [reflexivity|].
  rewrite (E a) by now left.
  rewrite IH by (intros x Hx; apply E; now right). reflexivity.
Qed.

Lemma mapM_defined {A B : Type} (h : A -> option B) (l : list A) :
  Forall (fun a => h a <> None) l -> mapM h l <> None.
Proof.
  induction 1 as [|a l Ha _ IH]; simpl; [discriminate|].
  destruct (h a); [|contradiction]. destruct (mapM h l); [discriminate|contradiction].
Qed.

Lemma gather_offset (pre : list vec3) (k b : nat) (rest : list (list vec3))
    (f : list (list face)) :
  List.length pre = (b * k)%nat ->
  Forall (fun vb => List.length vb = k) rest ->
  List.length rest = List.length f ->
  local_faces k f ->
  gather (pre ++ List.concat rest) k b f =
  zipM (fun vb fb => mapM (corners vb) fb) rest f.
Proof.
  revert pre b rest.
  induction f as [|fb f IH]; intros pre b [|vb rest] Hpre Hrect Hlen Hloc;
    try discriminate; [reflexivity|].
  inversion Hloc as [|? ? Hfb Hf]; subst.
  inversion Hrect as [|? ? Hvb Hrest]; subst.
  cbn [gather zipM List.concat].
  rewrite (mapM_ext_in _ (corners vb)).
  - rewrite app_assoc.
    rewrite (IH (pre ++ vb)%list (S b) rest); trivial.
    + rewrite length_app, Hpre. simpl. lia.
    + simpl in Hlen. lia.
  - intros t Ht. rewrite Forall_forall in Hfb.
    destruct (Hfb t Ht) as [H0 [H1 H2]].
    replace (Z.of_nat b * Z.of_nat (List.length vb))%Z
      with (Z.of_nat (List.length pre)) by lia.
    unfold corners. cbn [f0 f1 f2 fst snd].
    now rewrite !index_offset by assumption.
Qed.

Lemma corners_defined (vb : list vec3) (t : face) :
  (0 <= f0 t < Z.of_nat (List.length vb))%Z ->
  (0 <= f1 t < Z.of_nat (List.length vb))%Z ->
  (0 <= f2 t < Z.of_nat (List.length vb))%Z ->
  corners vb t <> None.
Proof.
  intros H0 H1 H2. unfold corners, Py.index.
  destruct (Z.leb_spec 0 (f0 t)); [|lia].
  destruct (Z.leb_spec 0 (f1 t)); [|lia].
  destruct (Z.leb_spec 0 (f2 t)); [|lia].
  destruct (nth_error vb (Z.to_nat (f0 t))) eqn:E0;
    [|apply nth_error_None in E0; lia].
  destruct (nth_error vb (Z.to_nat (f1 t))) eqn:E1;
    [|apply nth_error_None in E1; lia].
  destruct (nth_error vb (Z.to_nat (f2 t))) eqn:E2;
    [|apply nth_error_None in E2; lia].
  discriminate.
Qed.

Lemma per_batch_defined (k : nat) (rest : list (list vec3)) (f : list (list face)) :
  Forall (fun vb => List.length vb = k) rest ->
  List.length rest = List.length f ->
  local_faces k f ->
  zipM (fun vb fb => mapM (corners vb) fb) rest f <> None.
Proof.
  revert rest. induction f as [|fb f IH]; intros [|vb rest] Hrect Hlen Hloc;
    try discriminate.
  inversion Hloc as [|? ? Hfb Hf]; subst.
  inversion Hrect as [|? ? Hvb Hrest]; subst.
  cbn [zipM].
  assert (H1 : mapM (corners vb) fb <> None).
  { apply mapM_defined. eapply Forall_impl; [|exact Hfb].
    intros t [H0 [H1 H2]]. now apply corners_defined. }
  assert (H2 : zipM (fun vb fb => mapM (corners vb) fb) rest f <> None).
  { apply IH; trivial. simpl in Hlen. lia. }
  destruct (mapM _ fb); [|contradiction].
  destruct (zipM _ rest f); [discriminate|contradiction].
Qed.

(** X12.  On a rectangular vertex tensor with as many batches as the faces
    tensor, and faces that name vertices of one mesh, [face_vertices]
    returns, and what it gathers from the flattened array through the
    offset indices is what each batch's faces name in that batch's own
    vertices. *)
Theorem X12_face_vertices_gathers_per_batch
    (v : vertices) (f : list (list face)) :
  rectangular v ->
  List.length (batches v) = List.length f ->
  local_faces (nv v) f ->
  face_vertices v f =
  zipM (fun vb fb => mapM (corners vb) fb) (batches v) f /\
  face_vertices v f <> None.
Proof.
  intros Hr Hb Hloc.
  assert (E : face_vertices v f =
              zipM (fun vb fb => mapM (corners vb) fb) (batches v) f).
  { unfold face_vertices, reshape_rows.
    rewrite (concat_rectangular (nv v) (batches v) Hr), Hb, Nat.eqb_refl.
    apply (gather_offset [] (nv v) 0 (batches v) f); trivial. }
  split; [exact E|]. rewrite E. now apply per_batch_defined with (k := nv v).
Qed.

End NormalsMoreFacts.

Lemma example_mesh_normals :
  exists n, Normals.vertex_normals NormalsExample.mesh NormalsExample.faces = Some n.
Proof.
  destruct (vertex_normals_returns NormalsExample.mesh NormalsExample.faces)
    as [n [E _]].
  - repeat constructor.
  - reflexivity.
  - exact example_mesh_in_range.
  - now exists n.
Qed.

(** X9 on the concrete mesh: its fourth vertex belongs to no face. *)
Lemma X9_witness :
  exists n,
    Normals.vertex_normals NormalsExample.mesh NormalsExample.faces = Some n /\
    nth_error (List.concat n) 3 = Some (FaceVertices.row_of 0 0 0).
Proof.
  destruct example_mesh_normals as [n E].
  exists n. split; [exact E|].
  apply (X9_vertex_in_no_face_gets_zero_normal
           NormalsExample.mesh NormalsExample.faces n 3 E).
  - simpl. lia.
  - simpl. constructor; [|constructor].
    cbv [Normals.f0 Normals.f1 Normals.f2 fst snd]. lia.
Defined.

(** X10 on the concrete mesh, whose coordinates are at most 5. *)
Lemma X10_witness :
  exists n,
    Normals.vertex_normals NormalsExample.mesh NormalsExample.faces = Some n /\
    Forall (Forall (fun r => exists x y z,
                        r = FaceVertices.row_of x y z /\
                        (- 1 <= x <= 1)%R /\ (- 1 <= y <= 1)%R /\
                        (- 1 <= z <= 1)%R)) n.
Proof.
  destruct example_mesh_normals as [n E].
  exists n. split; [exact E|].
  apply (X10_normal_entries_at_most_one 5%R
           NormalsExample.mesh NormalsExample.faces n);
    [lra|exact example_mesh_within|simpl; lra|exact E].
Defined.

(** X11 on the concrete mesh. *)
Lemma X11_witness :
  Normals.vertex_normals NormalsExample.mesh NormalsExample.faces <> None <->
  Normals.faces_in_range NormalsExample.mesh NormalsExample.faces.
Proof.
  apply (X11_vertex_normals_returns_iff_in_range
           NormalsExample.mesh NormalsExample.faces).
  - repeat constructor.
  - reflexivity.
Defined.

(** X12 on the concrete mesh: the one face gathers its three corners. *)
Lemma X12_witness :
  FaceVertices.face_vertices NormalsExample.mesh NormalsExample.faces =
  Arr.zipM (fun vb fb => Arr.mapM (FaceVertices.corners vb) fb)
    (Normals.batches NormalsExample.mesh) NormalsExample.faces /\
  FaceVertices.face_vertices NormalsExample.mesh NormalsExample.faces <> None.
Proof.
  apply (X12_face_vertices_gathers_per_batch
           NormalsExample.mesh NormalsExample.faces).
  - repeat constructor.
  - reflexivity.
  - constructor; [|constructor]. constructor; [|constructor].
    cbv [Normals.f0 Normals.f1 Normals.f2 Normals.nv NormalsExample.mesh fst snd].
    lia.
Defined.

(** ** The mesh upsampler: further properties *)

Section UpsampleMoreFacts.

Import Linalg Float Arr Upsample FaceVertices.
Context {fmt : Format}.
Local Open Scope R_scope.

(** A combination one of whose operands is missing is missing. *)
Ltac stuck E :=
  exfalso; cbn [option_map zipO] in E;
  repeat (match type of E with
          | context [zipM ?f ?a ?b] => destruct (zipM f a b)
          end; cbn [zipO] in E);
  discriminate E.

Lemma mapM_some {A B : Type} (h : A -> option B) (l : list A) (r : list B) :
  mapM h l = Some r -> Forall (fun a => h a <> None) l.
Proof.
  revert r. induction l as [|a l IH]; intros r E; simpl in E; constructor.
  - destruct (h a); [discriminate|discriminate E].
  - destruct (h a); [|discriminate].
    destruct (mapM h l) as [r'|]; [|discriminate]. now apply (IH r').
Qed.

Lemma interpolate_some (src : list vec3) (faces : list (Z * Z * Z))
    (b : list (R * R * R)) (r : list fvec3) :
  interpolate src faces b = Some r ->
  Forall (fun tri => Py.index src (c0 tri) <> None /\
                     Py.index src (c1 tri) <> None /\
                     Py.index src (c2 tri) <> None) faces.
Proof.
  unfold interpolate, zip_with, col. rewrite !take_map. intros E.
  destruct (take src (map c0 faces)) as [r0|] eqn:E0; [|discriminate].
  destruct (take src (map c1 faces)) as [r1|] eqn:E1; [|stuck E].
  destruct (take src (map c2 faces)) as [r2|] eqn:E2; [|stuck E].
  unfold take in E0, E1, E2.
  apply mapM_some in E0, E1, E2. rewrite Forall_map in E0, E1, E2.
  rewrite Forall_forall in *. intros tri Ht.
  repeat split; [apply (E0 tri Ht)|apply (E1 tri Ht)|apply (E2 tri Ht)].
Qed.

(** X14.  The upsampler returns a result only when every lookup succeeded:
    each triangle of a valid pixel names rows of both the vertex and the
    normal array, and each valid pixel id names an entry of both coordinate
    arrays.  A single bad index makes the whole call raise; no partial
    result is returned. *)
Theorem X14_upsample_returns_only_if_lookups_succeed
    (v normals : list vec3) (disp_map : list (list R)) (t : dense_template)
    (v_dense : list Float.fvec3) :
  upsample_mesh v normals disp_map t = Some v_dense ->
  Forall (fun tri => Py.index v (c0 tri) <> None /\
                     Py.index v (c1 tri) <> None /\
                     Py.index v (c2 tri) <> None /\
                     Py.index normals (c0 tri) <> None /\
                     Py.index normals (c1 tri) <> None /\
                     Py.index normals (c2 tri) <> None)
         (valid_pixel_3d_faces t) /\
  Forall (fun pid => Py.index (y_coords t) pid <> None /\
                     Py.index (x_coords t) pid <> None)
         (valid_pixel_ids t).
Proof.
  unfold upsample_mesh, zip_with, mapO. intros E.
  destruct (interpolate v _ _) as [pts|] eqn:Ep; [|discriminate].
  destruct (interpolate normals _ _) as [ns|] eqn:En.
  2:{ cbn [option_map zipO] in E.
      destruct (zipO _ (take _ _) _); discriminate E. }
  destruct (take (y_coords t) _) as [ys|] eqn:Ey.
  2:{ stuck E. }
  destruct (take (x_coords t) _) as [xs|] eqn:Ex.
  2:{ stuck E. }
  apply interpolate_some in Ep, En. unfold take in Ey, Ex.
  apply mapM_some in Ey, Ex.
  rewrite Forall_forall in Ep, En, Ey, Ex. split; apply Forall_forall.
  - intros tri Ht. destruct (Ep tri Ht) as [? [? ?]].
    destruct (En tri Ht) as [? [? ?]]. auto 10.
  - intros pid Hp. split; [apply (Ey pid Hp)|apply (Ex pid Hp)].
Qed.

End UpsampleMoreFacts.

(** The concrete template runs through the upsampler. *)
Lemma example_upsample_returns :
  exists v_dense,
    Upsample.upsample_mesh UpsampleExample.triangle UpsampleExample.flat_normals
      UpsampleExample.disp_map UpsampleExample.centroid = Some v_dense.
Proof.
  destruct (upsample_rows UpsampleExample.triangle UpsampleExample.flat_normals
              UpsampleExample.disp_map UpsampleExample.centroid eq_refl eq_refl)
    as [_ Ht].
  destruct (Upsample.upsample_mesh _ _ _ _) as [r|]; [now exists r|].
  exfalso. apply Ht; [|reflexivity].
  apply upsample_example_well_formed.
Qed.

(** X14 on the concrete template. *)
Lemma X14_witness :
  Forall (fun tri =>
            Py.index UpsampleExample.triangle (Upsample.c0 tri) <> None /\
            Py.index UpsampleExample.triangle (Upsample.c1 tri) <> None /\
            Py.index UpsampleExample.triangle (Upsample.c2 tri) <> None /\
            Py.index UpsampleExample.flat_normals (Upsample.c0 tri) <> None /\
            Py.index UpsampleExample.flat_normals (Upsample.c1 tri) <> None /\
            Py.index UpsampleExample.flat_normals (Upsample.c2 tri) <> None)
         (Upsample.valid_pixel_3d_faces UpsampleExample.centroid) /\
  Forall (fun pid =>
            Py.index (Upsample.y_coords UpsampleExample.centroid) pid <> None /\
            Py.index (Upsample.x_coords UpsampleExample.centroid) pid <> None)
         (Upsample.valid_pixel_ids UpsampleExample.centroid).
Proof.
  destruct example_upsample_returns as [v_dense E].
  exact (X14_upsample_returns_only_if_lookups_succeed _ _ _ _ v_dense E).
Defined.

(** ** The OBJ loader: whole files *)

Section ObjMoreFacts.

Import Obj ObjLines.
Context {B : Builtins}.
Local Open Scope string_scope.

(** *** Whitespace *)

Lemma lstrip_spaces (ws s : string) :
  all_space ws = true -> lstrip (ws ++ s) = lstrip s.
Proof.
  induction ws as [|c ws IH]; simpl; [reflexivity|].
  intros H. apply andb_true_iff in H. destruct H as [Hc Hw].
  rewrite Hc. now apply IH.
Qed.

Lemma rstrip_all_space (ws : string) : all_space ws = true -> rstrip ws = "".
Proof.
  induction ws as [|c ws IH]; simpl; [reflexivity|].
  intros H. apply andb_true_iff in H. destruct H as [Hc Hw].
  now rewrite (IH Hw), Hc.
Qed.

Lemma rstrip_spaces (s ws : string) :
  all_space ws = true -> rstrip (s ++ ws) = rstrip s.
Proof.
  intros H. induction s as [|c s IH]; simpl.
  - now apply rstrip_all_space.
  - now rewrite IH.
Qed.

Lemma strip_padded (lead s trail : string) :
  all_space lead = true -> all_space trail = true ->
  strip (lead ++ s ++ trail) = strip s.
Proof.
  intros Hl Ht. unfold strip. rewrite (lstrip_spaces lead _ Hl).
  induction s as [|c s IH]; simpl.
  - assert (E : lstrip trail = "").
    { clear -Ht. induction trail as [|c ws IH]; simpl; [reflexivity|].
      apply andb_true_iff in Ht. destruct Ht as [Hc Hw]. now rewrite Hc, IH. }
    now rewrite E.
  - destruct (is_space c); [exact IH|].
    change (String c (s ++ trail)) with (String c s ++ trail).
    now apply rstrip_spaces.
Qed.

Lemma rstrip_idempotent (s : string) : rstrip (rstrip s) = rstrip s.
Proof.
  induction s as [|c s IH]; simpl; [reflexivity|].
  destruct (rstrip s) as [|d r] eqn:E.
  - destruct (is_space c) eqn:Ec; simpl; [reflexivity|now rewrite Ec].
  - change (rstrip (String c (String d r))) with
      (match rstrip (String d r) with
       | EmptyString => if is_space c then EmptyString else String c EmptyString
       | rest => String c rest
       end).
    now rewrite IH.
Qed.

Lemma strip_idempotent (s : string) : strip (strip s) = strip s.
Proof.
  unfold strip.
  assert (H : forall t, (t = "" \/ exists c t', t = String c t' /\ is_space c = false) ->
                        lstrip (rstrip t) = rstrip t).
  { intros t [->|[c [t' [-> Hc]]]]; [reflexivity|].
    simpl. destruct (rstrip t'); rewrite ?Hc; simpl; rewrite ?Hc; reflexivity. }
  rewrite H; [apply rstrip_idempotent|].
  induction s as [|c s IH]; simpl; [now left|].
  destruct (is_space c) eqn:Ec; [exact IH|].
  right. now exists c, s.
Qed.

(** *** Prefixes *)

Lemma prefix_cons (a : ascii) (p s : string) :
  String.prefix (String a p) s = true ->
  exists s', s = String a s' /\ String.prefix p s' = true.
Proof.
  destruct s as [|b s']; cbn [String.prefix]; [discriminate|].
  destruct (ascii_dec a b) as [<-|]; [|discriminate].
  intros H. now exists s'.
Qed.

Lemma face_is_no_vertex (line : string) :
  startswith line "f " = true ->
  startswith line "v " = false /\ startswith line "vt " = false.
Proof.
  unfold startswith. intros H.
  apply prefix_cons in H. destruct H as [s' [-> _]].
  cbn [String.prefix].
  destruct (ascii_dec "v" "f"); [discriminate|]. now split.
Qed.

Lemma vertex_is_no_texture (line : string) :
  startswith line "v " = true ->
  startswith line "vt " = false /\ startswith line "f " = false.
Proof.
  intros H. split.
  - destruct (startswith line "vt ") eqn:E; [|reflexivity].
    apply texture_is_no_vertex in E. congruence.
  - destruct (startswith line "f ") eqn:E; [|reflexivity].
    apply face_is_no_vertex in E. destruct E. congruence.
Qed.

Lemma texture_is_no_face (line : string) :
  startswith line "vt " = true -> startswith line "f " = false.
Proof.
  intros H. destruct (startswith line "f ") eqn:E; [|reflexivity].
  apply face_is_no_vertex in E. destruct E. congruence.
Qed.

(** *** One line *)

Lemma slice_from_1_length {A : Type} (l : list A) :
  List.length (Py.slice_from l 1) = (List.length l - 1)%nat.
Proof.
  unfold Py.slice_from, Py.slice, Py.clamp.
  rewrite length_firstn, length_skipn.
  destruct (Z.ltb_spec 1 0); [lia|].
  destruct (Z.ltb_spec (Z.of_nat (List.length l)) 0); lia.
Qed.

Lemma face_step_effect (st st' : state) (vert_props : list string) :
  face_step st vert_props = Ok st' ->
  verts st' = verts st /\ uvcoords st' = uvcoords st /\
  List.length (faces st') = S (List.length (faces st)).
Proof.
  unfold face_step. destruct vert_props as [|p0 rest]; [discriminate|].
  destruct (int p0) as [i|]; [|discriminate].
  destruct rest as [|p1 rest].
  - intros E. injection E as <-. simpl. rewrite length_app. simpl.
    repeat split; lia.
  - destruct (String.eqb p1 "").
    + intros E. injection E as <-. simpl. rewrite length_app. simpl.
      repeat split; lia.
    + destruct (int p1) as [j|]; [|discriminate].
      intros E. injection E as <-. simpl. rewrite length_app. simpl.
      repeat split; lia.
Qed.

Lemma face_loop_effect (face_list : list (list string)) (st st' : state) :
  face_loop st face_list = Ok st' ->
  verts st' = verts st /\ uvcoords st' = uvcoords st /\
  List.length (faces st') = (List.length (faces st) + List.length face_list)%nat.
Proof.
  revert st. induction face_list as [|vp rest IH]; intros st E; simpl in E.
  - injection E as <-. repeat split; simpl; lia.
  - destruct (face_step st vp) as [s|] eqn:Es; [|discriminate].
    destruct (face_step_effect _ _ _ Es) as [Hv [Hu Hf]].
    destruct (IH _ E) as [Hv' [Hu' Hf']].
    repeat split; [congruence|congruence|]. simpl. lia.
Qed.

(** What one line does to the four lists. *)
Lemma step_effect (st st' : state) (line : string) :
  step st line = Ok st' ->
  if startswith line "v " then
    exists vert, List.length vert = 3%nat /\
                 verts st' = (verts st ++ [vert])%list /\
                 uvcoords st' = uvcoords st /\ faces st' = faces st
  else if startswith line "vt " then
    exists tx, List.length tx = 2%nat /\
               verts st' = verts st /\
               uvcoords st' = (uvcoords st ++ [tx])%list /\ faces st' = faces st
  else if startswith line "f " then
    verts st' = verts st /\ uvcoords st' = uvcoords st /\
    List.length (faces st') =
    (List.length (faces st) + (List.length (split (strip line)) - 1))%nat
  else st' = st.
Proof.
  unfold step. destruct (startswith line "v ").
  - destruct (floats _) as [vert|]; [|discriminate].
    destruct (Nat.eqb (List.length vert) 3) eqn:L; simpl; [|discriminate].
    intros E. injection E as <-. exists vert.
    apply Nat.eqb_eq in L. now repeat split.
  - destruct (startswith line "vt ").
    + destruct (floats _) as [tx|]; [|discriminate].
      destruct (Nat.eqb (List.length tx) 2) eqn:L; simpl; [|discriminate].
      intros E. injection E as <-. exists tx.
      apply Nat.eqb_eq in L. now repeat split.
    + destruct (startswith line "f ").
      * intros E. apply face_loop_effect in E.
        now rewrite length_map, slice_from_1_length in E.
      * intros E. now injection E as <-.
Qed.

(** *** The loop *)

Lemma loop_effect (file_lines : list string) (st st' : state) :
  loop st (map strip file_lines) = Ok st' ->
  (exists vs, verts st' = (verts st ++ vs)%list /\
              List.length vs = count_lines "v " file_lines /\
              Forall (fun r => List.length r = 3%nat) vs) /\
  (exists ts, uvcoords st' = (uvcoords st ++ ts)%list /\
              List.length ts = count_lines "vt " file_lines /\
              Forall (fun r => List.length r = 2%nat) ts) /\
  List.length (faces st') =
  (List.length (faces st) + face_references file_lines)%nat.
Proof.
  revert st. induction file_lines as [|raw rest IH]; intros st E; simpl in E.
  - injection E as <-. repeat split.
    + exists []. now rewrite app_nil_r.
    + exists []. now rewrite app_nil_r.
    + simpl. lia.
  - destruct (step st (strip raw)) as [s|] eqn:Es; [|discriminate].
    apply step_effect in Es.
    destruct (IH _ E) as [[vs [Hv [Lv Fv]]] [[ts [Ht [Lt Ft]]] Hf]].
    unfold count_lines in *. cbn [filter face_references].
    rewrite strip_idempotent in Es.
    destruct (startswith (strip raw) "v ") eqn:Pv.
    + destruct (vertex_is_no_texture _ Pv) as [-> ->].
      destruct Es as [vert [L [Ev [Eu Ef]]]].
      repeat split.
      * exists (vert :: vs). rewrite Hv, Ev, <- app_assoc. simpl.
        repeat split; [congruence|now constructor].
      * exists ts. rewrite Ht, Eu. now repeat split.
      * rewrite Hf, Ef. reflexivity.
    + destruct (startswith (strip raw) "vt ") eqn:Pt.
      * rewrite (texture_is_no_face _ Pt).
        destruct Es as [tx [L [Ev [Eu Ef]]]].
        repeat split.
        -- exists vs. rewrite Hv, Ev. now repeat split.
        -- exists (tx :: ts). rewrite Ht, Eu, <- app_assoc. simpl.
           repeat split; [congruence|now constructor].
        -- rewrite Hf, Ef. reflexivity.
      * destruct (startswith (strip raw) "f ") eqn:Pf.
        -- destruct Es as [Ev [Eu Ef]].
           repeat split.
           ++ exists vs. rewrite Hv, Ev. now repeat split.
           ++ exists ts. rewrite Ht, Eu. now repeat split.
           ++ rewrite Hf, Ef. lia.
        -- subst s. repeat split.
           ++ now exists vs.
           ++ now exists ts.
           ++ rewrite Hf. reflexivity.
Qed.

Lemma rows3_length (l : list Z) (r : list (Z * Z * Z)) :
  rows3 l = Some r -> List.length l = (3 * List.length r)%nat.
Proof.
  assert (H : forall n (l : list Z), (List.length l <= n)%nat ->
              forall r, rows3 l = Some r -> List.length l = (3 * List.length r)%nat).
  { clear. induction n as [|n IH]; intros l Hl r E.
    - destruct l; [|simpl in Hl; lia]. simpl in E. now injection E as <-.
    - destruct l as [|a [|b [|c rest]]]; simpl in E; try discriminate.
      + now injection E as <-.
      + destruct (rows3 rest) as [r'|] eqn:Er; [|discriminate].
        injection E as <-. simpl in *.
        rewrite (IH rest ltac:(lia) r' Er). lia. }
  intros E. now apply (H (List.length l) l (Nat.le_refl _) r).
Qed.

Lemma long_faces_length (l : list Z) (r : list (Z * Z * Z)) :
  long_faces l = Ok r -> List.length l = (3 * List.length r)%nat.
Proof.
  unfold long_faces. destruct (forallb in_int64 l); [|discriminate].
  destruct (rows3 l) as [r'|] eqn:E; [|discriminate].
  intros H. injection H as <-. rewrite length_map. now apply rows3_length.
Qed.

(** X15.  A line that carries none of the three prefixes (a comment, a
    vertex normal, a group or object name, an empty line, or a vertex line
    whose tag is followed by a tab) is skipped: the file loads, or fails,
    as it does without that line. *)
Theorem X15_other_lines_are_skipped (pre post : list string) (line : string) :
  other_line line ->
  load_obj (pre ++ line :: post) = load_obj (pre ++ post).
Proof.
  intros [Hv [Ht Hf]]. unfold load_obj.
  rewrite !map_app, !loop_concat. cbn [map loop].
  destruct (loop _ (map strip pre)) as [st|]; [|reflexivity].
  unfold step at 1. now rewrite Hv, Ht, Hf.
Qed.

(** X16.  Whitespace around a line never matters: padding every line of
    the file with whitespace on the left and on the right (an indentation,
    a trailing newline or carriage return) gives the same result. *)
Theorem X16_surrounding_whitespace_is_irrelevant
    (lead trail : string) (file_lines : list string) :
  all_space lead = true -> all_space trail = true ->
  load_obj (map (fun l => lead ++ l ++ trail) file_lines) = load_obj file_lines.
Proof.
  intros Hl Ht. unfold load_obj. rewrite map_map.
  rewrite (map_ext (fun l => strip (lead ++ l ++ trail)) strip); [reflexivity|].
  intros l. now apply strip_padded.
Qed.

(** X17.  When a file loads, each of the four arrays has a leading axis of
    length one; there is one vertex row per line with prefix v and one
    texture row per line with prefix vt, each of three respectively two
    values; and the vertex references of all face lines together are
    regrouped in threes, whatever their distribution over the lines: three
    times the number of returned faces is the number of references. *)
Theorem X17_loaded_mesh_shape (file_lines : list string) (m : mesh) :
  load_obj file_lines = Ok m ->
  exists vs ts fs us,
    m = mkMesh [vs] [ts] [fs] [us] /\
    List.length vs = count_lines "v " file_lines /\
    Forall (fun r => List.length r = 3%nat) vs /\
    List.length ts = count_lines "vt " file_lines /\
    Forall (fun r => List.length r = 2%nat) ts /\
    (3 * List.length fs)%nat = face_references file_lines.
Proof.
  unfold load_obj.
  destruct (loop _ _) as [st|] eqn:El; [|discriminate].
  destruct (long_faces (faces st)) as [fs|] eqn:Ef; [|discriminate].
  destruct (long_faces (uv_faces st)) as [us|] eqn:Eu; [|discriminate].
  intros E. injection E as <-.
  destruct (loop_effect _ _ _ El) as [[vs [Hv [Lv Fv]]] [[ts [Ht [Lt Ft]]] Hf]].
  simpl in Hv, Ht, Hf. apply long_faces_length in Ef.
  exists (verts st), (uvcoords st), fs, us.
  rewrite Hv, Ht. repeat split; trivial. lia.
Qed.

End ObjMoreFacts.

(** X15 on a concrete file: the normal line is skipped. *)
Lemma X15_witness :
  Obj.load_obj (B := ObjExample.builtins)
    (["v 1 2 3"%string] ++ "vn 0 0 1"%string :: ["v 0 0 0"%string])%list =
  Obj.load_obj (B := ObjExample.builtins)
    (["v 1 2 3"%string] ++ ["v 0 0 0"%string])%list.
Proof.
  apply (X15_other_lines_are_skipped (B := ObjExample.builtins)).
  repeat split.
Defined.

(** X16 on a concrete file: two spaces of indentation and a trailing line
    feed. *)
Lemma X16_witness :
  Obj.load_obj (B := ObjExample.builtins)
    (map (fun l => "  " ++ l ++ String "010"%char EmptyString)%string
         ObjExample.long_lines) =
  Obj.load_obj (B := ObjExample.builtins) ObjExample.long_lines.
Proof.
  apply (X16_surrounding_whitespace_is_irrelevant (B := ObjExample.builtins));
    reflexivity.
Defined.

(** The concrete file loads. *)
Lemma example_long_lines_load :
  Obj.load_obj (B := ObjExample.builtins) ObjExample.long_lines =
  Obj.Ok (Obj.mkMesh (B := ObjExample.builtins)
            [[[1; 2; 3]; [0; 0; 0]; [0; 1; 0]]]%R [[[0; 1]]]%R
            [[(0, 1, 2)]]%Z [[(0, 0, 0)]]%Z).
Proof. reflexivity. Qed.

(** X17 on a concrete file with three vertex lines, one texture line and
    one face line. *)
Lemma X17_witness :
  exists vs ts fs us,
    Obj.mkMesh (B := ObjExample.builtins)
      [[[1; 2; 3]; [0; 0; 0]; [0; 1; 0]]]%R [[[0; 1]]]%R
      [[(0, 1, 2)]]%Z [[(0, 0, 0)]]%Z
    = Obj.mkMesh [vs] [ts] [fs] [us] /\
    List.length vs = ObjLines.count_lines "v " ObjExample.long_lines /\
    Forall (fun r => List.length r = 3%nat) vs /\
    List.length ts = ObjLines.count_lines "vt " ObjExample.long_lines /\
    Forall (fun r => List.length r = 2%nat) ts /\
    (3 * List.length fs)%nat = ObjLines.face_references ObjExample.long_lines.
Proof.
  exact (X17_loaded_mesh_shape (B := ObjExample.builtins)
           ObjExample.long_lines
           (Obj.mkMesh (B := ObjExample.builtins)
              [[[1; 2; 3]; [0; 0; 0]; [0; 1; 0]]]%R [[[0; 1]]]%R
              [[(0, 1, 2)]]%Z [[(0, 0, 0)]]%Z)
           example_long_lines_load).
Defined.
